(** * IMU devtools: capture and processing scripts, embedded and verified

    The development follows the four Python scripts of the repository:

    - [imu_calibration/serial_capture.py]   (live capture, quaternion-capable)
    - [imudata2/accely/serial_capture.py]   (live capture, 7-field records only)
    - [imu_calibration/imu_data_process.py] (batch processing of 7-field files)
    - [imu_calibration/process_imu.py]      (batch processing of 14-field files)

    Python values are modelled as the interpreter has them: [float] is an
    IEEE-754 binary64 number (Rocq's primitive floats), [int] is an unbounded
    integer ([Z]), [str] is a sequence of Unicode code points, [bytes] is a
    sequence of bytes.  Exceptions are explicit outcomes; code that mutates
    lists and dictionaries inside a [try] block runs in a state monad whose
    state survives a raised exception, as the Python heap does. *)

From Stdlib Require Import ZArith NArith List Ascii Floats Lia Bool.
From Stdlib Require Uint63.
From stdpp Require Import base option list strings gmap sorting.
From Equations Require Import Equations.

Local Open Scope Z_scope.
Set Warnings "-inexact-float".

(** ** Exceptions and outcomes *)

Inductive exn : Set :=
| ValueError
| IndexError
| OverflowError
| ZeroDivisionError
| StopIteration
| UnicodeDecodeError
| SerialException
| OSError
| SystemExit (code : Z).

Inductive outcome (A : Type) : Type :=
| Ok (a : A)
| Raise (e : exn).
Arguments Ok {A} a.
Arguments Raise {A} e.

Definition exn_eqb (a b : exn) : bool :=
  match a, b with
  | ValueError, ValueError | IndexError, IndexError
  | OverflowError, OverflowError | ZeroDivisionError, ZeroDivisionError
  | StopIteration, StopIteration | UnicodeDecodeError, UnicodeDecodeError
  | SerialException, SerialException | OSError, OSError => true
  | SystemExit c, SystemExit d => c =? d
  | _, _ => false
  end.

Definition obind {A B} (x : outcome A) (k : A -> outcome B) : outcome B :=
  match x with
  | Ok a => k a
  | Raise e => Raise e
  end.

Definition of_option {A} (e : exn) (o : option A) : outcome A :=
  match o with
  | Some a => Ok a
  | None => Raise e
  end.

(** [list(map(f, xs))]: conversions run left to right, the first failure
    propagates. *)
Fixpoint map_outcome {A B} (f : A -> outcome B) (xs : list A) : outcome (list B) :=
  match xs with
  | [] => Ok []
  | x :: xs' =>
      obind (f x) (fun y => obind (map_outcome f xs') (fun ys => Ok (y :: ys)))
  end.

(** [xs[i]] on a Python list (non-negative index). *)
Definition py_index {A} (xs : list A) (i : nat) : outcome A :=
  of_option IndexError (xs !! i).

(** [xs[i:j]] for [0 <= i <= j]. *)
Definition slice {A} (i j : nat) (xs : list A) : list A :=
  take (j - i) (drop i xs).

(** ** State and exceptions

    A computation over a mutable store: the store is returned also when an
    exception is raised, since appends made before the failure persist. *)

Definition M (S A : Type) : Type := S -> S * outcome A.

Definition ret {S A} (a : A) : M S A := fun s => (s, Ok a).

Definition bind {S A B} (m : M S A) (k : A -> M S B) : M S B :=
  fun s =>
    match m s with
    | (s', Ok a) => k a s'
    | (s', Raise e) => (s', Raise e)
    end.

Definition lift {S A} (x : outcome A) : M S A := fun s => (s, x).

Definition modify {S} (f : S -> S) : M S unit := fun s => (f s, Ok tt).

Definition gets {S A} (f : S -> A) : M S A := fun s => (s, Ok (f s)).

(** [try: body  except <caught>: handler]. *)
Definition try_except {S} (body : M S unit) (caught : exn -> bool)
    (handler : M S unit) : M S unit :=
  fun s =>
    match body s with
    | (s', Ok _) => (s', Ok tt)
    | (s', Raise e) => if caught e then handler s' else (s', Raise e)
    end.

(** [for x in xs: body x]. *)
Fixpoint for_each {S X} (xs : list X) (body : X -> M S unit) : M S unit :=
  match xs with
  | [] => ret tt
  | x :: xs' => bind (body x) (fun _ => for_each xs' body)
  end.

Declare Scope py_scope.
Delimit Scope py_scope with py.
Notation "x <-- m ; k" := (bind m (fun x => k))
  (at level 20, m at level 100, k at level 200, only parsing) : py_scope.
Notation "x <~~ m ; k" := (obind m (fun x => k))
  (at level 20, m at level 100, k at level 200, only parsing) : py_scope.

(** ** Numbers *)

Module PyNum.

(** A Python number as the scripts handle them: [int] or [float]. *)
Inductive num : Type :=
| Int (z : Z)
| Float (f : float).

(** The non-negative results of rounding: [+0], a positive finite number,
    or [+inf]. *)
Definition sf_nonneg (x : spec_float) : bool :=
  match x with
  | S754_zero false | S754_finite false _ _ | S754_infinity false => true
  | _ => false
  end.

(** Correct rounding of an integer to binary64 (round to nearest, ties to
    even); an integer beyond the range rounds to an infinity. *)
Definition Z2F (n : Z) : float := SF2Prim (binary_normalize prec emax n 0 false).

(** [float(n)] for an [int] (also the implicit conversion of an [int]
    operand in mixed arithmetic): [OverflowError] when out of range. *)
Definition float_of_int (n : Z) : outcome float :=
  let f := Z2F n in
  if is_infinity f then Raise OverflowError else Ok f.

(** [n * x] with [n : int] and [x : float]. *)
Definition int_mul_float (n : Z) (x : float) : outcome float :=
  obind (float_of_int n) (fun f => Ok (f * x)%float).

(** [int(x)] for a [float]: truncation toward zero; [ValueError] on NaN,
    [OverflowError] on an infinity. *)
Definition int_of_float (x : float) : outcome Z :=
  match Prim2SF x with
  | S754_nan => Raise ValueError
  | S754_infinity _ => Raise OverflowError
  | S754_zero _ => Ok 0
  | S754_finite s m e => Ok (cond_Zopp s (Z.shiftl (Z.pos m) e))
  end.

(** The mathematical floor of a finite float. *)
Definition float_floor (x : float) : option Z :=
  match Prim2SF x with
  | S754_zero _ => Some 0
  | S754_finite s m e => Some (Z.shiftl (cond_Zopp s (Z.pos m)) e)
  | _ => None
  end.

(** Number of binary digits of a non-negative integer. *)
Definition bits (n : Z) : Z := Z.log2 n + 1.

(** The quotient [a / b] of two integers ([b <> 0]) rounded correctly to
    binary64: the quotient is first computed to at least 56 significant bits
    and made odd when inexact, then rounded to nearest-even. *)
Definition round_quotient (a b : Z) : spec_float :=
  let s := xorb (a <? 0) (b <? 0) in
  let a' := Z.abs a in
  let b' := Z.abs b in
  let k := Z.max 0 (bits b' - bits a' + 56) in
  let q := (a' * 2 ^ k) / b' in
  let r := (a' * 2 ^ k) mod b' in
  let m := if r =? 0 then q else Z.lor q 1 in
  binary_normalize prec emax (cond_Zopp s m) (- k) s.

(** [a / b] on two [int]s (true division). *)
Definition int_truediv (a b : Z) : outcome float :=
  if b =? 0 then Raise ZeroDivisionError
  else
    let f := SF2Prim (round_quotient a b) in
    if is_infinity f then Raise OverflowError else Ok f.

(** [sum(xs)] on a list of [int]s. *)
Definition sum_int (xs : list Z) : Z := foldl Z.add 0 xs.

End PyNum.
Export PyNum.

(** ** Text *)

Module PyStr.

(** A [str] is a sequence of Unicode code points. *)
Definition str : Type := list N.

(** A literal of the source, given by its ASCII characters. *)
Definition lit (s : String.string) : str :=
  map N_of_ascii (String.list_ascii_of_string s).
Arguments lit s%_string_scope.

(** [c.isspace()] for one code point (the interpreter's whitespace table). *)
Definition is_space (c : N) : bool :=
  ((9 <=? c) && (c <=? 13) || (28 <=? c) && (c <=? 32)
   || (c =? 133) || (c =? 160) || (c =? 5760)
   || (8192 <=? c) && (c <=? 8202)
   || (c =? 8232) || (c =? 8233) || (c =? 8239) || (c =? 8287)
   || (c =? 12288))%N.

Fixpoint drop_while {A} (p : A -> bool) (xs : list A) : list A :=
  match xs with
  | [] => []
  | x :: xs' => if p x then drop_while p xs' else xs
  end.

(** [s.strip()]. *)
Definition str_strip (s : str) : str :=
  rev (drop_while is_space (rev (drop_while is_space s))).

(** [s.startswith(p)]. *)
Fixpoint str_startswith (s p : str) : bool :=
  match p, s with
  | [], _ => true
  | a :: p', b :: s' => (a =? b)%N && str_startswith s' p'
  | _ :: _, [] => false
  end.

(** The scans below walk the text once; after a match of [sep] the next
    [length sep - 1] characters belong to that match and are skipped, so
    matches never overlap and are found left to right. *)

(** [s.count(sep)] for a non-empty [sep]. *)
Fixpoint str_count_go (sep s : str) (skip : nat) : nat :=
  match s with
  | [] => 0%nat
  | _ :: s' =>
      match skip with
      | S k => str_count_go sep s' k
      | O =>
          if str_startswith s sep then S (str_count_go sep s' (length sep - 1))
          else str_count_go sep s' 0
      end
  end.

Definition str_count (s sep : str) : nat := str_count_go sep s 0.

(** [s.split(sep)] for a non-empty [sep]; [cur] is the field being read,
    most recent character first. *)
Fixpoint str_split_go (sep s : str) (skip : nat) (cur : str) : list str :=
  match s with
  | [] => [rev cur]
  | c :: s' =>
      match skip with
      | S k => str_split_go sep s' k cur
      | O =>
          if str_startswith s sep
          then rev cur :: str_split_go sep s' (length sep - 1) []
          else str_split_go sep s' 0 (c :: cur)
      end
  end.

Definition str_split (s sep : str) : list str := str_split_go sep s 0 [].

(** [s.replace(old, new)] for a non-empty [old]. *)
Fixpoint str_replace_go (old new s : str) (skip : nat) : str :=
  match s with
  | [] => []
  | c :: s' =>
      match skip with
      | S k => str_replace_go old new s' k
      | O =>
          if str_startswith s old
          then new ++ str_replace_go old new s' (length old - 1)
          else c :: str_replace_go old new s' 0
      end
  end.

Definition str_replace (s old new : str) : str := str_replace_go old new s 0.

End PyStr.
Export PyStr.

(** ** Codecs *)

Module Codec.

Definition byte : Type := Byte.byte.

Definition newline : byte := Byte.x0a.

Definition is_cont (b : N) : bool := ((128 <=? b) && (b <=? 191))%N.

(** Allowed second byte of a three-byte sequence: no overlong forms
    ([E0]), no surrogates ([ED]). *)
Definition second_ok3 (b0 b1 : N) : bool :=
  (if b0 =? 224 then (160 <=? b1) && (b1 <=? 191)
   else if b0 =? 237 then (128 <=? b1) && (b1 <=? 159)
   else is_cont b1)%N.

(** Allowed second byte of a four-byte sequence: no overlong forms ([F0]),
    nothing above U+10FFFF ([F4]). *)
Definition second_ok4 (b0 b1 : N) : bool :=
  (if b0 =? 240 then (144 <=? b1) && (b1 <=? 191)
   else if b0 =? 244 then (128 <=? b1) && (b1 <=? 143)
   else is_cont b1)%N.

(** Strict UTF-8: [None] stands for [UnicodeDecodeError]. *)
Fixpoint utf8 (bs : list N) : option str :=
  match bs with
  | [] => Some []
  | b0 :: r0 =>
      if (b0 <? 128)%N then cons b0 <$> utf8 r0
      else if ((194 <=? b0) && (b0 <=? 223))%N then
        match r0 with
        | b1 :: r1 =>
            if is_cont b1
            then cons ((b0 - 192) * 64 + (b1 - 128))%N <$> utf8 r1
            else None
        | _ => None
        end
      else if ((224 <=? b0) && (b0 <=? 239))%N then
        match r0 with
        | b1 :: b2 :: r2 =>
            if second_ok3 b0 b1 && is_cont b2
            then cons ((b0 - 224) * 4096 + (b1 - 128) * 64 + (b2 - 128))%N
                   <$> utf8 r2
            else None
        | _ => None
        end
      else if ((240 <=? b0) && (b0 <=? 244))%N then
        match r0 with
        | b1 :: b2 :: b3 :: r3 =>
            if second_ok4 b0 b1 && is_cont b2 && is_cont b3
            then cons ((b0 - 240) * 262144 + (b1 - 128) * 4096
                       + (b2 - 128) * 64 + (b3 - 128))%N <$> utf8 r3
            else None
        | _ => None
        end
      else None
  end.

(** [bs.decode("utf-8")]. *)
Definition decode_utf8 (bs : list byte) : outcome str :=
  of_option UnicodeDecodeError (utf8 (map Byte.to_N bs)).

(** [bs.decode("ISO-8859-1")]: every byte is the code point of the same
    number. *)
Definition decode_latin1 (bs : list byte) : outcome str :=
  Ok (map Byte.to_N bs).

End Codec.
Export Codec.

(** ** The interpreter's conversions

    The scripts call the built-ins [float(s)], [int(s)], [sum(xs)] on floats
    and [x ** y]; these belong to the interpreter and its C library, so the
    model takes them as an interface.  [None] stands for [ValueError], the
    only exception [float] and [int] raise on a [str]. *)

Class PyRuntime : Type := {
  (** [float(s)] *)
  py_float : str -> option float;
  (** [int(s)] *)
  py_int : str -> option Z;
  (** [sum(xs)] for a non-empty sequence of floats *)
  py_fsum : list float -> float;
  (** [x ** 2] *)
  py_pow2 : float -> outcome float;
  (** [x ** 0.5] *)
  py_pow_half : float -> outcome float;
}.

(** [sum(xs)] on floats: the start value [0] is an [int] and stays one when
    there is nothing to add. *)
Definition py_sum `{PyRuntime} (xs : list float) : num :=
  match xs with
  | [] => Int 0
  | _ => Float (py_fsum xs)
  end.

(** [s / n] where [s] comes from [py_sum] and [n] is a length. *)
Definition div_by_len (s : num) (n : Z) : outcome float :=
  match s with
  | Int a => int_truediv a n
  | Float x =>
      if n =? 0 then Raise ZeroDivisionError
      else obind (float_of_int n) (fun d => Ok (x / d)%float)
  end.

(** A reference instance for decimal ASCII text, used to run the model on
    concrete inputs.  It reads ASCII digits only, sets no limit to the
    number of digits, and takes the correctly rounded product and square
    root for the two powers; the general theorems hold for every instance
    of the interface, and the examples evaluated with this one are plain
    decimal numbers. *)
Module Reference.

Definition digit_of (c : N) : option Z :=
  if ((48 <=? c) && (c <=? 57))%N then Some (Z.of_N c - 48) else None.

Definition is_digit (c : N) : bool :=
  match digit_of c with Some _ => true | None => false end.

(** Reads decimal digits, most recent first in [acc]; one underscore may
    stand between two digits. *)
Fixpoint digits_go (s : str) (acc : list Z) : list Z * str :=
  match s with
  | [] => (acc, [])
  | c :: s' =>
      match digit_of c with
      | Some d => digits_go s' (d :: acc)
      | None =>
          match acc, s' with
          | _ :: _, c' :: _ =>
              if (c =? 95)%N && is_digit c' then digits_go s' acc else (acc, s)
          | _, _ => (acc, s)
          end
      end
  end.

Definition value_of (rev_digits : list Z) : Z :=
  foldr (fun d v => v * 10 + d) 0 rev_digits.

Definition sign_of (s : str) : bool * str :=
  match s with
  | 45%N :: s' => (true, s')
  | 43%N :: s' => (false, s')
  | _ => (false, s)
  end.

Definition int_of_str (s : str) : option Z :=
  let '(neg, body) := sign_of (str_strip s) in
  match digits_go body [] with
  | ((_ :: _) as ds, []) => Some (cond_Zopp neg (value_of ds))
  | _ => None
  end.

Definition lower (c : N) : N :=
  if ((65 <=? c) && (c <=? 90))%N then (c + 32)%N else c.

Definition str_eqb (a b : str) : bool := bool_decide (a = b).

(** [m * 10 ^ e10] rounded to binary64; too large a value is an infinity. *)
Definition decimal (neg : bool) (m e10 : Z) : float :=
  if m =? 0 then (if neg then neg_zero else zero)
  else if 0 <=? e10
  then SF2Prim (binary_normalize prec emax (cond_Zopp neg m * 10 ^ e10) 0 false)
  else SF2Prim (round_quotient (cond_Zopp neg m) (10 ^ (- e10))).

Definition exponent_of (s : str) : option Z :=
  match s with
  | [] => Some 0
  | c :: s' =>
      if (lower c =? 101)%N then
        let '(neg, body) := sign_of s' in
        match digits_go body [] with
        | ((_ :: _) as ds, []) => Some (cond_Zopp neg (value_of ds))
        | _ => None
        end
      else None
  end.

Definition float_of_str (s : str) : option float :=
  let '(neg, body) := sign_of (str_strip s) in
  let name := map lower body in
  if str_eqb name (lit "inf") || str_eqb name (lit "infinity")
  then Some (if neg then neg_infinity else infinity)
  else if str_eqb name (lit "nan") then Some nan
  else
    let '(ip, r1) := digits_go body [] in
    let '(fp, r2) :=
      match r1 with
      | 46%N :: r1' => digits_go r1' []
      | _ => ([], r1)
      end in
    match ip ++ fp with
    | [] => None
    | _ =>
        match exponent_of r2 with
        | Some e => Some (decimal neg (value_of (fp ++ ip)) (e - Z.of_nat (length fp)))
        | None => None
        end
    end.

(** [x ** 2] and [x ** 0.5] through the correctly rounded product and
    square root; a finite operand whose power is not finite raises
    [OverflowError]. *)
Definition pow_checked (x r : float) : outcome float :=
  if is_finite x && is_infinity r then Raise OverflowError else Ok r.

#[global] Instance runtime : PyRuntime := {|
  py_float := float_of_str;
  py_int := int_of_str;
  py_fsum := foldl PrimFloat.add 0%float;
  py_pow2 := fun x => pow_checked x (x * x)%float;
  py_pow_half := fun x => pow_checked x (PrimFloat.sqrt x);
|}.

End Reference.

(** ** Line framing (shared by both [serial_capture.py] scripts) *)

Module Framer.

(** [buffer.index(b'\n')]; [None] when [b'\n' in buffer] is false. *)
Fixpoint index_of (b : byte) (buf : list byte) : option nat :=
  match buf with
  | [] => None
  | x :: buf' =>
      if Byte.eqb x b then Some 0%nat else S <$> index_of b buf'
  end.

(** The [try] / [except UnicodeDecodeError] of the framing loop. *)
Definition decode_line (span : list byte) : outcome str :=
  match obind (decode_utf8 span) (fun s => Ok (str_strip s)) with
  | Ok line => Ok line
  | Raise UnicodeDecodeError =>
      obind (decode_latin1 span) (fun s => Ok (str_strip s))
  | Raise e => Raise e
  end.

Lemma index_of_lt b buf i : index_of b buf = Some i -> (i < length buf)%nat.
Proof.
  revert i. induction buf as [|x buf IH]; intros i; simpl; [discriminate|].
  destruct (Byte.eqb x b).
  - intros [= <-]. lia.
  - destruct (index_of b buf) as [j|]; simpl; [|discriminate].
    intros [= <-]. specialize (IH j eq_refl). lia.
Qed.

(** Matching on a value while remembering what it is equal to. *)
Definition inspect {A} (a : A) : {b : A | a = b} := exist _ a eq_refl.

(** [while b'\n' in buffer: ...]: the span before the first terminator is
    decoded, the span and its terminator leave the buffer (the [finally]
    clause, so also when decoding raises), and the line is handed on. *)
Equations? drain {St} (handle : str -> M St unit) (buf : list byte) (s : St)
    : (St * list byte) * outcome unit by wf (length buf) lt :=
drain handle buf s with inspect (index_of newline buf) := {
  | exist _ (Some line_end) Hidx =>
      match decode_line (take line_end buf) with
      | Raise e => ((s, drop (S line_end) buf), Raise e)
      | Ok line =>
          match handle line s with
          | (s', Ok _) => drain handle (drop (S line_end) buf) s'
          | (s', Raise e) => ((s', drop (S line_end) buf), Raise e)
          end
      end
  | exist _ None _ => ((s, buf), Ok tt) }.
Proof.
  apply index_of_lt in Hidx. rewrite length_drop. lia.
Qed.
Arguments drain : simpl never.

(** What one read delivers: the bytes of [ser.read_all()], or the
    exception it raises when the transport fails.  That is a
    [serial.SerialException] where the driver wraps the failure, and
    whatever the operating system call raised where it does not, such as
    the [OSError] of a device that has gone. *)
Inductive poll : Type :=
| Data (data : list byte)
| Fault (e : exn).

(** [while datetime.now() < end_time: ...]; the clock decides how many reads
    happen, so the loop is given the reads it performs. *)
Fixpoint acquire {St} (handle : str -> M St unit) (polls : list poll)
    (buf : list byte) (s : St) : (St * list byte) * outcome unit :=
  match polls with
  | [] => ((s, buf), Ok tt)
  | Fault e :: _ => ((s, buf), Raise e)
  | Data data :: polls' =>
      match data with
      | [] => acquire handle polls' buf s
      | _ =>
          match drain handle (buf ++ data) s with
          | ((s', buf'), Ok _) => acquire handle polls' buf' s'
          | r => r
          end
      end
  end.

(** The serial port object as the function body sees it. *)
Inductive port : Set :=
| Unopened   (** the constructor raised: [ser] was never bound *)
| Opened
| Closed.

(** The [try] / [except serial.SerialException] / [finally] around the
    acquisition: [opened] tells whether [serial.Serial(...)] succeeded; the
    driver reports a port it cannot open as [serial.SerialException].  The
    handler catches that exception only, the [finally] clause runs
    whatever leaves the body. *)
Definition guarded {St A} (handle : str -> M St unit) (init : St)
    (returned : St -> A) (opened : bool) (polls : list poll)
    : outcome A * port :=
  let '(r, ser) :=
    if opened then
      match acquire handle polls [] init with
      | ((s, _), Ok _) => (Ok (returned s), Opened)
      | (_, Raise e) => (Raise e, Opened)
      end
    else (Raise SerialException, Unopened) in
  let r' :=
    match r with
    | Raise SerialException => Raise (SystemExit 1)
    | _ => r
    end in
  let ser' :=
    match ser with
    | Opened => Closed
    | _ => ser
    end in
  (r', ser').

(** The Line Framer on its own: the decoded lines of a byte stream, in
    order. *)
Definition collect (line : str) : M (list str) unit :=
  modify (fun lines => lines ++ [line]).

(** A line handler that lets no exception escape. *)
Definition never_raises {St} (handle : str -> M St unit) : Prop :=
  forall line s, (handle line s).2 = Ok tt.

(** Number of line terminators in a byte sequence. *)
Fixpoint terminators (buf : list byte) : nat :=
  match buf with
  | [] => 0%nat
  | x :: buf' =>
      if Byte.eqb x newline then S (terminators buf') else terminators buf'
  end.

(** The decoded lines of the reads [polls], in arrival order. *)
Definition framed_lines (polls : list poll) : list str :=
  (acquire collect polls [] []).1.1.

End Framer.
Export Framer.

Section Capture.
Context `{PyRuntime}.

(** [float(parts[i])] *)
Definition float_field (parts : list str) (i : nat) : outcome float :=
  obind (py_index parts i) (fun p => of_option ValueError (py_float p)).

(** [int(parts[i])] *)
Definition int_field (parts : list str) (i : nat) : outcome Z :=
  obind (py_index parts i) (fun p => of_option ValueError (py_int p)).

(** The body of the 7-field [try] block up to the row it builds:
    [accel + gyro + [temp]]. *)
Definition parse_record (line : str) : outcome (list num) :=
  let parts := str_split line (lit ",") in
  (a0 <~~ float_field parts 0;
   a1 <~~ float_field parts 1;
   a2 <~~ float_field parts 2;
   g0 <~~ float_field parts 3;
   g1 <~~ float_field parts 4;
   g2 <~~ float_field parts 5;
   temp <~~ int_field parts 6;
   Ok ([Float a0; Float a1; Float a2] ++ [Float g0; Float g1; Float g2]
       ++ [Int temp]))%py.

Definition caught_parse_errors (e : exn) : bool :=
  exn_eqb e ValueError || exn_eqb e IndexError.

End Capture.

(** ** [imu_calibration/serial_capture.py] *)

Module SerialCapture.
Section WithRuntime.
Context `{PyRuntime}.

Record state : Type := {
  raw_data : list (list num);
  filtered_data : list (list num);
  quat_data : list (list float);
  invalid_count : Z;
}.

Definition initial : state :=
  {| raw_data := []; filtered_data := []; quat_data := []; invalid_count := 0 |}.

Definition append_raw (row : list num) (s : state) : state :=
  {| raw_data := raw_data s ++ [row]; filtered_data := filtered_data s;
     quat_data := quat_data s; invalid_count := invalid_count s |}.

Definition append_filtered (row : list num) (s : state) : state :=
  {| raw_data := raw_data s; filtered_data := filtered_data s ++ [row];
     quat_data := quat_data s; invalid_count := invalid_count s |}.

Definition append_quat (q : list float) (s : state) : state :=
  {| raw_data := raw_data s; filtered_data := filtered_data s;
     quat_data := quat_data s ++ [q]; invalid_count := invalid_count s |}.

Definition count_invalid (s : state) : state :=
  {| raw_data := raw_data s; filtered_data := filtered_data s;
     quat_data := quat_data s; invalid_count := invalid_count s + 1 |}.

(** [float(parts[i].split('=')[1])] *)
Definition quat_field (parts : list str) (i : nat) : outcome float :=
  (p <~~ py_index parts i;
   v <~~ py_index (str_split p (lit "=")) 1;
   of_option ValueError (py_float v))%py.

Definition parse_quaternion (line : str) : outcome (list float) :=
  let parts := str_split (str_replace line (lit "Quaternion: ") []) (lit ", ") in
  (w <~~ quat_field parts 0;
   x <~~ quat_field parts 1;
   y <~~ quat_field parts 2;
   z <~~ quat_field parts 3;
   Ok [w; x; y; z])%py.

(** The classification of one decoded line. *)
Definition handle_line (line : str) : M state unit :=
  if str_startswith line (lit "Quaternion:") then
    try_except
      (q <-- lift (parse_quaternion line); modify (append_quat q))%py
      (fun _ => true)
      (modify count_invalid)
  else if Nat.eqb (str_count line (lit ",")) 6 then
    try_except
      (row <-- lift (parse_record line);
       _ <-- modify (append_raw row);
       modify (append_filtered row))%py
      caught_parse_errors
      (modify count_invalid)
  else modify count_invalid.

Definition returned (s : state)
    : list (list num) * list (list num) * list (list float) * Z :=
  (raw_data s, filtered_data s, quat_data s, invalid_count s).

Definition capture_serial_data (opened : bool) (polls : list poll)
    : outcome (list (list num) * list (list num) * list (list float) * Z) * port :=
  guarded handle_line initial returned opened polls.

End WithRuntime.
End SerialCapture.

(** ** [imudata2/accely/serial_capture.py] *)

Module SerialCaptureAccely.
Section WithRuntime.
Context `{PyRuntime}.

Record state : Type := {
  raw_data : list (list num);
  invalid_count : Z;
}.

Definition initial : state := {| raw_data := []; invalid_count := 0 |}.

Definition append_raw (row : list num) (s : state) : state :=
  {| raw_data := raw_data s ++ [row]; invalid_count := invalid_count s |}.

Definition count_invalid (s : state) : state :=
  {| raw_data := raw_data s; invalid_count := invalid_count s + 1 |}.

Definition handle_line (line : str) : M state unit :=
  if Nat.eqb (str_count line (lit ",")) 6 then
    try_except
      (row <-- lift (parse_record line); modify (append_raw row))%py
      caught_parse_errors
      (modify count_invalid)
  else modify count_invalid.

Definition returned (s : state) : list (list num) * Z :=
  (raw_data s, invalid_count s).

Definition capture_serial_data (opened : bool) (polls : list poll)
    : outcome (list (list num) * Z) * port :=
  guarded handle_line initial returned opened polls.

End WithRuntime.
End SerialCaptureAccely.

(** ** Pieces shared by the two batch processors *)

Module Processing.

(** The calibration dictionary: three lists of numbers. *)
Record calibration : Type := {
  accel_bias : list float;
  accel_scale : list float;
  gyro_bias : list float;
}.

(** The profile [load_calibration] falls back to. *)
Definition default_calibration : calibration :=
  {| accel_bias := [0; 0; 0]%float;
     accel_scale := [1; 1; 1]%float;
     gyro_bias := [0; 0; 0]%float |}.

(** What [calc_stats] returns. *)
Record stats : Type := {
  bias : list float;
  std : list float;
  unit_label : string;
}.

(** [channels[i].append(x)] *)
Definition append_at {A} (i : nat) (x : A) (channels : list (list A))
    : list (list A) :=
  alter (fun ch => ch ++ [x]) i channels.

(** [temp_windows[idx].append(x)] on a [defaultdict(list)]. *)
Definition window_append {T} (idx : Z) (x : T) (w : gmap Z (list T))
    : gmap Z (list T) :=
  <[idx := default [] (w !! idx) ++ [x]]> w.

(** [sorted(temp_windows.keys())] *)
Definition sorted_keys {T} (w : gmap Z (list T)) : list Z :=
  merge_sort Z.le (map_to_list w).*1.

(** [idx*0.1 + 0.05] *)
Definition window_center (idx : Z) : outcome float :=
  obind (int_mul_float idx 0.1) (fun x => Ok (x + 0.05)%float).

(** The averaging loop over the windows, with the two result lists
    [(window_centers, temp_avg)] as its state; [point] computes the centre
    and the average of one non-empty window. *)
Definition average_windows {T} (point : Z -> list T -> outcome (float * float))
    (w : gmap Z (list T)) : outcome (list float * list float) :=
  let loop :=
    for_each (sorted_keys w) (fun idx =>
      let values := default [] (w !! idx) in
      match values with
      | [] => ret tt
      | _ =>
          (p <-- lift (point idx values);
           modify (fun acc : list float * list float =>
                     (acc.1 ++ [p.1], acc.2 ++ [p.2])))%py
      end) in
  match loop ([], []) with
  | (acc, Ok _) => Ok acc
  | (_, Raise e) => Raise e
  end.

(** The windows after the entries [(idx, x)] have been appended in order. *)
Definition fill {T} (entries : list (Z * T)) (w : gmap Z (list T))
    : gmap Z (list T) :=
  foldl (fun w e => window_append e.1 e.2 w) w entries.

(** The time stamp of the sample with counter [n], and the readings among
    [samples] (time stamp and temperature, in arrival order) whose time
    stamp falls in window [idx]. *)
Definition stamp_of (n : Z) : float := (Z2F n * 0.005)%float.

(** The window index [int(t * 10)] of a time stamp (0 where [int] raises). *)
Definition window_of (t : float) : Z := default 0 (float_floor (t * 10)).

(** A calibration record with the three entries per list the scripts
    index. *)
Definition complete (calib : calibration) : Prop :=
  (3 <= length (accel_bias calib))%nat
  /\ (3 <= length (accel_scale calib))%nat
  /\ (3 <= length (gyro_bias calib))%nat.

Definition bucket {T} (idx : Z) (samples : list (float * T)) : list T :=
  (filter (fun s => float_floor (s.1 * 10)%float = Some idx) samples).*2.

(** The average of a window's readings as the specification has it, the
    sum of the readings divided by their number.  Float readings are added
    by the interpreter's [sum] and the sum is divided by the number of
    readings as a float; integer readings are added exactly and the exact
    quotient is rounded once to the nearest float. *)
Definition float_average `{PyRuntime} (values : list float) : float :=
  (py_fsum values / Z2F (Z.of_nat (length values)))%float.

Definition int_average (values : list Z) : float :=
  SF2Prim (round_quotient (fold_right Z.add 0 values)
             (Z.of_nat (length values))).

(** What the averaging loop reports for [samples]: one point per non-empty
    window, windows in ascending order, each at its centre
    [idx*0.1 + 0.05] with the average [average] of the window's
    readings. *)
Definition aggregated {T} (average : list T -> float)
    (samples : list (float * T)) (report : list float * list float) : Prop :=
  exists keys : list Z,
    StronglySorted Z.lt keys
    /\ (forall idx, idx ∈ keys <-> bucket idx samples <> [])
    /\ report.1 = map (fun idx => (Z2F idx * 0.1 + 0.05)%float) keys
    /\ report.2 = map (fun idx => average (bucket idx samples)) keys.

(** [enumerate(xs, start)] *)
Fixpoint enumerate {A} (start : Z) (xs : list A) : list (Z * A) :=
  match xs with
  | [] => []
  | x :: xs' => (start, x) :: enumerate (start + 1) xs'
  end.

(** Running a loop that started from [init] to the end of the function. *)
Definition finish {St A} (run : St * outcome unit) (k : St -> outcome A)
    : outcome A :=
  match run with
  | (s, Ok _) => k s
  | (_, Raise e) => Raise e
  end.

End Processing.
Export Processing.

(** ** [imu_calibration/imu_data_process.py] *)

Module ImuDataProcess.
Section WithRuntime.
Context `{PyRuntime}.

Record state : Type := {
  time_stamps : list float;
  accel : list (list float);
  gyro : list (list float);
  temperature : list float;
  temp_windows : gmap Z (list float);
}.

Definition initial : state :=
  {| time_stamps := []; accel := [[]; []; []]; gyro := [[]; []; []];
     temperature := []; temp_windows := ∅ |}.

Definition accel_append (i : nat) (x : float) (s : state) : state :=
  {| time_stamps := time_stamps s; accel := append_at i x (accel s);
     gyro := gyro s; temperature := temperature s;
     temp_windows := temp_windows s |}.

Definition gyro_append (i : nat) (x : float) (s : state) : state :=
  {| time_stamps := time_stamps s; accel := accel s;
     gyro := append_at i x (gyro s); temperature := temperature s;
     temp_windows := temp_windows s |}.

Definition time_stamps_append (t : float) (s : state) : state :=
  {| time_stamps := time_stamps s ++ [t]; accel := accel s; gyro := gyro s;
     temperature := temperature s; temp_windows := temp_windows s |}.

Definition temp_windows_append (idx : Z) (x : float) (s : state) : state :=
  {| time_stamps := time_stamps s; accel := accel s; gyro := gyro s;
     temperature := temperature s;
     temp_windows := window_append idx x (temp_windows s) |}.

Definition temperature_append (x : float) (s : state) : state :=
  {| time_stamps := time_stamps s; accel := accel s; gyro := gyro s;
     temperature := temperature s ++ [x]; temp_windows := temp_windows s |}.

(** [parts = list(map(float, line.strip().split(',')))] and the length
    check that follows. *)
Definition parse_line (line : str) : outcome (list float) :=
  (parts <~~ map_outcome (fun p => of_option ValueError (py_float p))
               (str_split (str_strip line) (lit ","));
   if Nat.eqb (length parts) 7 then Ok parts else Raise ValueError)%py.

(** The [try] block of the reading loop. *)
Definition try_block (calib : calibration) (line_num : Z) (line : str)
    : M state unit :=
  (parts <-- lift (parse_line line);
   _ <-- for_each [0; 1; 2]%nat (fun i =>
       p <-- lift (py_index parts i);
       b <-- lift (py_index (accel_bias calib) i);
       k <-- lift (py_index (accel_scale calib) i);
       modify (accel_append i ((p - b) * k)%float));
   _ <-- for_each [0; 1; 2]%nat (fun i =>
       p <-- lift (py_index parts (i + 3));
       b <-- lift (py_index (gyro_bias calib) i);
       modify (gyro_append i (p - b)%float));
   t <-- lift (int_mul_float line_num 0.005);
   _ <-- modify (time_stamps_append t);
   window_idx <-- lift (int_of_float (t * 10)%float);
   temp <-- lift (py_index parts 6);
   _ <-- modify (temp_windows_append window_idx temp);
   modify (temperature_append temp))%py.

Definition read_line (calib : calibration) (entry : Z * str) : M state unit :=
  try_except (try_block calib entry.1 entry.2) caught_parse_errors (ret tt).

(** [for line_num, line in enumerate(f): ...] *)
Definition read_lines (calib : calibration) (lines : list str) : M state unit :=
  for_each (enumerate 0 lines) (read_line calib).

(** [sum(values)/len(values)] on floats. *)
Definition mean (values : list float) : outcome float :=
  div_by_len (py_sum values) (Z.of_nat (length values)).

Definition calc_stats (data : list (list float)) (unit : string)
    : outcome stats :=
  (means <~~ map_outcome mean data;
   stds <~~ map_outcome
     (fun chm : list float * float =>
        squares <~~ map_outcome (fun x => py_pow2 (x - chm.2)%float) chm.1;
        v <~~ div_by_len (py_sum squares) (Z.of_nat (length chm.1));
        py_pow_half v)
     (zip data means);
   Ok {| bias := means; std := stds; unit_label := unit |})%py.

(** One averaged point: the centre is computed first, then the average. *)
Definition point (idx : Z) (values : list float) : outcome (float * float) :=
  (c <~~ window_center idx;
   a <~~ mean values;
   Ok (c, a))%py.

Record result : Type := {
  r_accel : stats;
  r_gyro : stats;
  r_temp_raw : list float * list float;
  r_accel_raw : list float * list (list float);
  r_gyro_raw : list float * list (list float);
  r_temp_avg : list float * list float;
}.

(** [process_imu_data], given the calibration record and the lines of the
    input file. *)
Definition process_imu_data (calib : calibration) (lines : list str)
    : outcome result :=
  finish (read_lines calib lines initial) (fun s =>
    (avg <~~ average_windows point (temp_windows s);
     a <~~ calc_stats (accel s) "g";
     g <~~ calc_stats (gyro s) "dps";
     Ok {| r_accel := a; r_gyro := g;
           r_temp_raw := (time_stamps s, temperature s);
           r_accel_raw := (time_stamps s, accel s);
           r_gyro_raw := (time_stamps s, gyro s);
           r_temp_avg := avg |})%py).

(** *** The reading loop in closed form *)

(** The valid lines, each with its line number and its seven numbers. *)
Definition records (start : Z) (lines : list str) : list (Z * list float) :=
  omap (fun e : Z * str =>
          match parse_line e.2 with
          | Ok parts => Some (e.1, parts)
          | Raise _ => None
          end) (enumerate start lines).

(** Everything the [try] block stores for one valid line. *)
Definition store (calib : calibration) (rec : Z * list float) (s : state)
    : state :=
  let parts := rec.2 in
  let t := stamp_of rec.1 in
  let a i := ((nth i parts 0 - nth i (accel_bias calib) 0)
              * nth i (accel_scale calib) 0)%float in
  let g i := (nth (i + 3) parts 0 - nth i (gyro_bias calib) 0)%float in
  temperature_append (nth 6 parts 0%float)
    (temp_windows_append (window_of t) (nth 6 parts 0%float)
       (time_stamps_append t
          (gyro_append 2 (g 2%nat) (gyro_append 1 (g 1%nat) (gyro_append 0 (g 0%nat)
             (accel_append 2 (a 2%nat) (accel_append 1 (a 1%nat)
                (accel_append 0 (a 0%nat) s)))))))).

(** Time stamp and temperature of each valid line, in file order. *)
Definition samples (lines : list str) : list (float * float) :=
  map (fun rec : Z * list float => (stamp_of rec.1, nth 6 rec.2 0%float))
    (records 0 lines).

End WithRuntime.
End ImuDataProcess.

(** ** [imu_calibration/process_imu.py] *)

Module ProcessImu.
Section WithRuntime.
Context `{PyRuntime}.

Record state : Type := {
  time_stamps : list float;
  accel : list (list float);
  gyro : list (list float);
  temperature : list Z;
  accel_filt : list (list float);
  gyro_filt : list (list float);
  temp_filt : list Z;
  temp_windows : gmap Z (list Z);
  valid_line_count : Z;
}.

Definition initial : state :=
  {| time_stamps := []; accel := [[]; []; []]; gyro := [[]; []; []];
     temperature := []; accel_filt := [[]; []; []];
     gyro_filt := [[]; []; []]; temp_filt := []; temp_windows := ∅;
     valid_line_count := 0 |}.

(** [time_stamps.append(t)] followed by [valid_line_count += 1]. *)
Definition stamp (t : float) (s : state) : state :=
  {| time_stamps := time_stamps s ++ [t]; accel := accel s; gyro := gyro s;
     temperature := temperature s; accel_filt := accel_filt s;
     gyro_filt := gyro_filt s; temp_filt := temp_filt s;
     temp_windows := temp_windows s;
     valid_line_count := valid_line_count s + 1 |}.

(** One round of the storing loop: the four appends for axis [i]. *)
Definition store_axis (i : nat) (a g af gf : float) (s : state) : state :=
  {| time_stamps := time_stamps s;
     accel := append_at i a (accel s);
     gyro := append_at i g (gyro s);
     temperature := temperature s;
     accel_filt := append_at i af (accel_filt s);
     gyro_filt := append_at i gf (gyro_filt s);
     temp_filt := temp_filt s; temp_windows := temp_windows s;
     valid_line_count := valid_line_count s |}.

(** [temperature.append(temp)] and [temp_filt.append(temp_filt_raw)]. *)
Definition store_temps (temp temp_f : Z) (s : state) : state :=
  {| time_stamps := time_stamps s; accel := accel s; gyro := gyro s;
     temperature := temperature s ++ [temp]; accel_filt := accel_filt s;
     gyro_filt := gyro_filt s; temp_filt := temp_filt s ++ [temp_f];
     temp_windows := temp_windows s;
     valid_line_count := valid_line_count s |}.

Definition temp_windows_append (idx : Z) (x : Z) (s : state) : state :=
  {| time_stamps := time_stamps s; accel := accel s; gyro := gyro s;
     temperature := temperature s; accel_filt := accel_filt s;
     gyro_filt := gyro_filt s; temp_filt := temp_filt s;
     temp_windows := window_append idx x (temp_windows s);
     valid_line_count := valid_line_count s |}.

(** [list(map(float, parts[i:j]))] *)
Definition floats (parts : list str) (i j : nat) : outcome (list float) :=
  map_outcome (fun p => of_option ValueError (py_float p)) (slice i j parts).

(** The six conversions that open the [try] block. *)
Record fields : Type := {
  accel_raw : list float;
  gyro_raw : list float;
  temp : Z;
  accel_filt_raw : list float;
  gyro_filt_raw : list float;
  temp_filt_raw : Z;
}.

Definition parse_row (parts : list str) : outcome fields :=
  (a <~~ floats parts 0 3;
   g <~~ floats parts 3 6;
   t <~~ int_field parts 6;
   af <~~ floats parts 7 10;
   gf <~~ floats parts 10 13;
   tf <~~ int_field parts 13;
   Ok {| accel_raw := a; gyro_raw := g; temp := t; accel_filt_raw := af;
         gyro_filt_raw := gf; temp_filt_raw := tf |})%py.

(** [[(accel_raw[i] - calib['accel_bias'][i]) * calib['accel_scale'][i]
     for i in range(3)]] *)
Definition calibrate_accel (calib : calibration) (raw : list float)
    : outcome (list float) :=
  map_outcome (fun i =>
    (x <~~ py_index raw i;
     b <~~ py_index (accel_bias calib) i;
     k <~~ py_index (accel_scale calib) i;
     Ok ((x - b) * k)%float)%py) [0; 1; 2]%nat.

(** [[gyro_raw[i] - calib['gyro_bias'][i] for i in range(3)]] *)
Definition calibrate_gyro (calib : calibration) (raw : list float)
    : outcome (list float) :=
  map_outcome (fun i =>
    (x <~~ py_index raw i;
     b <~~ py_index (gyro_bias calib) i;
     Ok (x - b)%float)%py) [0; 1; 2]%nat.

(** The [try] block of the reading loop. *)
Definition try_block (calib : calibration) (parts : list str) : M state unit :=
  (f <-- lift (parse_row parts);
   accel_cal <-- lift (calibrate_accel calib (accel_raw f));
   gyro_cal <-- lift (calibrate_gyro calib (gyro_raw f));
   n <-- gets valid_line_count;
   t <-- lift (int_mul_float n 0.005);
   _ <-- modify (stamp t);
   _ <-- for_each [0; 1; 2]%nat (fun i =>
       a <-- lift (py_index accel_cal i);
       g <-- lift (py_index gyro_cal i);
       af <-- lift (py_index (accel_filt_raw f) i);
       gf <-- lift (py_index (gyro_filt_raw f) i);
       modify (store_axis i a g af gf));
   _ <-- modify (store_temps (temp f) (temp_filt_raw f));
   window_idx <-- lift (int_of_float (t * 10)%float);
   modify (temp_windows_append window_idx (temp f)))%py.

Definition read_row (calib : calibration) (parts : list str) : M state unit :=
  if Nat.eqb (length parts) 14
  then try_except (try_block calib parts) (fun e => exn_eqb e ValueError) (ret tt)
  else ret tt.

Definition calc_stats (data : list (list float)) (unit : string)
    : outcome stats :=
  if forallb (fun ch => Nat.ltb 0 (length ch)) data then
    (means <~~ map_outcome ImuDataProcess.mean data;
     stds <~~ map_outcome
       (fun chm : list float * float =>
          squares <~~ map_outcome (fun x => py_pow2 (x - chm.2)%float) chm.1;
          v <~~ div_by_len (py_sum squares) (Z.of_nat (length chm.1));
          py_pow_half v)
       (zip data means);
     Ok {| bias := means; std := stds; unit_label := unit |})%py
  else Ok {| bias := [0; 0; 0]%float; std := [0; 0; 0]%float;
             unit_label := unit |}.

(** [sum(values)/len(values)] on integer temperatures. *)
Definition mean (values : list Z) : outcome float :=
  int_truediv (sum_int values) (Z.of_nat (length values)).

(** One averaged point: the centre is computed first, then the average. *)
Definition point (idx : Z) (values : list Z) : outcome (float * float) :=
  (c <~~ window_center idx;
   a <~~ mean values;
   Ok (c, a))%py.

Record result : Type := {
  r_accel : stats;
  r_gyro : stats;
  r_temp_raw : list float * list Z;
  r_accel_raw : list float * list (list float);
  r_gyro_raw : list float * list (list float);
  r_accel_filt : list float * list (list float);
  r_gyro_filt : list float * list (list float);
  r_temp_filt : list float * list Z;
  r_temp_avg : list float * list float;
}.

(** [process_imu_data], given the calibration record and the rows
    [csv.reader] yields for the input file.  [next(csv_reader)] takes the
    first row away; on no row at all it raises [StopIteration]. *)
Definition process_imu_data (calib : calibration) (rows : list (list str))
    : outcome result :=
  match rows with
  | [] => Raise StopIteration
  | _header :: rows' =>
      finish (for_each rows' (read_row calib) initial) (fun s =>
        (avg <~~ average_windows point (temp_windows s);
         a <~~ calc_stats (accel s) "g";
         g <~~ calc_stats (gyro s) "dps";
         Ok {| r_accel := a; r_gyro := g;
               r_temp_raw := (time_stamps s, temperature s);
               r_accel_raw := (time_stamps s, accel s);
               r_gyro_raw := (time_stamps s, gyro s);
               r_accel_filt := (time_stamps s, accel_filt s);
               r_gyro_filt := (time_stamps s, gyro_filt s);
               r_temp_filt := (time_stamps s, temp_filt s);
               r_temp_avg := avg |})%py)
  end.

(** *** The reading loop in closed form *)

(** The fields of a row the loop accepts. *)
Definition accept (parts : list str) : option fields :=
  if Nat.eqb (length parts) 14 then
    match parse_row parts with
    | Ok f => Some f
    | Raise _ => None
    end
  else None.

(** The valid rows after the header, numbered from [start] in order. *)
Definition records (start : Z) (rows : list (list str)) : list (Z * fields) :=
  enumerate start (omap accept rows).

(** Everything the [try] block stores for the valid row with number
    [rec.1]. *)
Definition store (calib : calibration) (rec : Z * fields) (s : state) : state :=
  let f := rec.2 in
  let t := stamp_of rec.1 in
  let a i := ((nth i (accel_raw f) 0 - nth i (accel_bias calib) 0)
              * nth i (accel_scale calib) 0)%float in
  let g i := (nth i (gyro_raw f) 0 - nth i (gyro_bias calib) 0)%float in
  let af i := nth i (accel_filt_raw f) 0%float in
  let gf i := nth i (gyro_filt_raw f) 0%float in
  temp_windows_append (window_of t) (temp f)
    (store_temps (temp f) (temp_filt_raw f)
       (store_axis 2 (a 2%nat) (g 2%nat) (af 2%nat) (gf 2%nat)
          (store_axis 1 (a 1%nat) (g 1%nat) (af 1%nat) (gf 1%nat)
             (store_axis 0 (a 0%nat) (g 0%nat) (af 0%nat) (gf 0%nat)
                (stamp t s))))).

(** Time stamp and temperature of each valid row, in file order. *)
Definition samples (rows : list (list str)) : list (float * Z) :=
  map (fun rec : Z * fields => (stamp_of rec.1, temp rec.2))
    (records 0 (tail rows)).

End WithRuntime.
End ProcessImu.

(** ** Sample inputs *)

Module Samples.

(** The bytes of one line of text and its terminator. *)
Definition line_bytes (text : string) : list byte :=
  String.list_byte_of_string text ++ [newline].

(** A well-formed 7-field record, and one whose temperature is not an
    integer. *)
Definition record_line : str := lit "1.5,2,3,4,5,6,25".
Definition fractional_temp_line : str := lit "1.5,2,3,4,5,6,25.5".

Definition record_row : list num :=
  [Float 1.5; Float 2; Float 3; Float 4; Float 5; Float 6; Int 25]%float.

(** A line with exactly six commas that carries the quaternion marker. *)
Definition marked_line : str := lit "Quaternion: w=1=,,,, x=2, y=3, z=4".

(** The calibration of the worked example. *)
Definition example_calibration : calibration :=
  {| accel_bias := [1; 0; 0]%float;
     accel_scale := [2; 1; 1]%float;
     gyro_bias := [0; 0; 0]%float |}.

Definition example_line : str := lit "3,0,0,1,1,1,25".

Definition example_row : list str :=
  map lit ["3"; "0"; "0"; "1"; "1"; "1"; "25";
           "3.5"; "0"; "0"; "1"; "1"; "1"; "26"].

(** The file of the worked example of the windowed aggregation: readings
    10, 12, 14 and 16 on the lines 0, 8, 18 and 22, the other lines
    invalid. *)
Definition window_lines : list str :=
  let gap n := replicate n (lit "-") in
  [lit "0,0,0,0,0,0,10"] ++ gap 7%nat ++ [lit "0,0,0,0,0,0,12"]
  ++ gap 9%nat ++ [lit "0,0,0,0,0,0,14"] ++ gap 3%nat
  ++ [lit "0,0,0,0,0,0,16"].

Definition header_row : list str :=
  map lit ["Accel_X_raw"; "Accel_Y_raw"; "Accel_Z_raw";
           "Gyro_X_raw"; "Gyro_Y_raw"; "Gyro_Z_raw"; "Temp_raw";
           "Accel_X_filt"; "Accel_Y_filt"; "Accel_Z_filt";
           "Gyro_X_filt"; "Gyro_Y_filt"; "Gyro_Z_filt"; "Temp_filt"].

(** Three rows with the temperatures 1, 1 and 2 after the header. *)
Definition window_rows : list (list str) :=
  let row temp :=
    map lit ["0"; "0"; "0"; "0"; "0"; "0"; temp;
             "0"; "0"; "0"; "0"; "0"; "0"; temp] in
  [header_row; row "1"; row "1"; row "2"].

End Samples.

(** ** Loading the calibration

    [load_calibration] of both batch processors: [loaded] is what
    [open(calib_file)] and [json.load] give, a calibration record or an
    exception; the bare [except] turns every exception into the default
    profile. *)
Definition load_calibration (loaded : outcome calibration) : calibration :=
  match loaded with
  | Ok calib => calib
  | Raise _ => default_calibration
  end.

(** ** What the capture loops store *)

(** The store after the decoded lines [lines] have been classified one
    after the other. *)
Definition handle_all {St} (handle : str -> M St unit) (lines : list str)
    (s : St) : St :=
  foldl (fun s line => (handle line s).1) s lines.

(** The line the framing loop makes of a span: decoded and stripped. *)
Definition decoded (span : list byte) : str :=
  match decode_line span with
  | Ok line => line
  | Raise _ => []
  end.

Definition carriage_return : byte := Byte.x0d.

(** The row [accel + gyro + [temp]] the capture loops append: six floats
    and an integer. *)
Definition record_shape (row : list num) : bool :=
  match row with
  | [Float _; Float _; Float _; Float _; Float _; Float _; Int _] => true
  | _ => false
  end.

(** The lines a store accounts for: rows, quaternions and invalid lines. *)
Definition accounted (s : SerialCapture.state) : Z :=
  Z.of_nat (length (SerialCapture.raw_data s))
  + Z.of_nat (length (SerialCapture.quat_data s))
  + SerialCapture.invalid_count s.

Definition accely_accounted (s : SerialCaptureAccely.state) : Z :=
  Z.of_nat (length (SerialCaptureAccely.raw_data s))
  + SerialCaptureAccely.invalid_count s.

(** The shape of what the capture loops have stored. *)
Definition well_formed (s : SerialCapture.state) : Prop :=
  Forall (fun row => record_shape row = true) (SerialCapture.raw_data s)
  /\ SerialCapture.filtered_data s = SerialCapture.raw_data s
  /\ Forall (fun q => length q = 4%nat) (SerialCapture.quat_data s)
  /\ 0 <= SerialCapture.invalid_count s.

Definition accely_well_formed (s : SerialCaptureAccely.state) : Prop :=
  Forall (fun row => record_shape row = true) (SerialCaptureAccely.raw_data s)
  /\ 0 <= SerialCaptureAccely.invalid_count s.

(** A store that holds what another one holds and possibly more after
    it. *)
Definition grows (s s' : SerialCapture.state) : Prop :=
  exists raw_more quat_more invalid_more,
    0 <= invalid_more
    /\ SerialCapture.raw_data s' = SerialCapture.raw_data s ++ raw_more
    /\ SerialCapture.filtered_data s'
       = SerialCapture.filtered_data s ++ raw_more
    /\ SerialCapture.quat_data s' = SerialCapture.quat_data s ++ quat_more
    /\ SerialCapture.invalid_count s'
       = SerialCapture.invalid_count s + invalid_more.

Definition accely_grows (s s' : SerialCaptureAccely.state) : Prop :=
  exists raw_more invalid_more,
    0 <= invalid_more
    /\ SerialCaptureAccely.raw_data s'
       = SerialCaptureAccely.raw_data s ++ raw_more
    /\ SerialCaptureAccely.invalid_count s'
       = SerialCaptureAccely.invalid_count s + invalid_more.

(** The statistics as the plots and the statistics files use them: a unit
    label and, for each of the three axes, a bias and a deviation. *)
Definition three_axes (st : stats) (unit : string) : Prop :=
  unit_label st = unit
  /\ length (bias st) = 3%nat /\ length (std st) = 3%nat.

(** What [process_imu.py] returns when no row is accepted. *)
Definition no_rows_result : ProcessImu.result :=
  let zero unit :=
    {| bias := [0; 0; 0]%float; std := [0; 0; 0]%float; unit_label := unit |} in
  {| ProcessImu.r_accel := zero "g"; ProcessImu.r_gyro := zero "dps";
     ProcessImu.r_temp_raw := ([], []);
     ProcessImu.r_accel_raw := ([], [[]; []; []]);
     ProcessImu.r_gyro_raw := ([], [[]; []; []]);
     ProcessImu.r_accel_filt := ([], [[]; []; []]);
     ProcessImu.r_gyro_filt := ([], [[]; []; []]);
     ProcessImu.r_temp_filt := ([], []);
     ProcessImu.r_temp_avg := ([], []) |}.

(** ** Writing the CSV files

    [save_imu_data] and [save_quaternions] of
    [imu_calibration/serial_capture.py], [save_to_csv] of
    [imudata2/accely/serial_capture.py] and [save_stats] of
    [imu_calibration/process_imu.py].  A file opened with ['w'] starts
    empty; its content is the list of the rows handed to the writer, which
    stay in the file when a later row raises. *)

Module Writers.

(** What [csv.writer] is given for one field: a number, written as
    [str(x)], the string [f"{x:.<digits>f}"] of a number, or another
    string.  Writing a number is taken to succeed: the properties stated
    for arbitrary rows ask for integers within the float range, far below
    the length at which an interpreter may refuse to print an [int]. *)
Inductive cell : Type :=
| Num (x : num)
| Fixed (digits : nat) (x : num)
| Text (s : str).

Definition csv_file : Type := list (list cell).

(** [writer.writerow(row)] *)
Definition writerow (row : list cell) : M csv_file unit :=
  modify (fun file => file ++ [row]).

(** [csv.writer(f).writerows(rows)] *)
Definition writerows (rows : list (list cell)) : M csv_file unit :=
  modify (fun file => file ++ rows).

Definition texts (names : list string) : list cell :=
  map (fun name => Text (lit name)) names.

Definition imu_headers : list cell :=
  texts ["Accel_X_raw"; "Accel_Y_raw"; "Accel_Z_raw";
         "Gyro_X_raw"; "Gyro_Y_raw"; "Gyro_Z_raw";
         "Temp_raw";
         "Accel_X_filt"; "Accel_Y_filt"; "Accel_Z_filt";
         "Gyro_X_filt"; "Gyro_Y_filt"; "Gyro_Z_filt";
         "Temp_filt"].

(** [f"{x:.<digits>f}"] as a cell.  A float is formatted as it is; an
    [int] is converted to a float first, which raises [OverflowError]
    beyond the float range. *)
Definition fixed (digits : nat) (x : num) : outcome cell :=
  match x with
  | Float _ => Ok (Fixed digits x)
  | Int n => (_ <~~ float_of_int n; Ok (Fixed digits x))%py
  end.

(** The numbers that can be formatted: every float, and an [int] within
    the float range. *)
Definition in_float_range (x : num) : bool :=
  match x with
  | Float _ => true
  | Int n => negb (is_infinity (Z2F n))
  end.

(** A row that can be saved: seven entries or more, all within the float
    range. *)
Definition plain_row (row : list num) : Prop :=
  (7 <= length row)%nat /\ Forall (fun x => in_float_range x = true) row.

(** The list display [formatted] of one iteration of [save_imu_data],
    evaluated from left to right: the slices never raise, [raw_data[i][6]]
    raises [IndexError] on a short raw row, then the filtered values are
    formatted, and last comes [filtered_data[i][6]]. *)
Definition formatted_row (raw_i filt_i : list num) : outcome (list cell) :=
  (raw_temp <~~ py_index raw_i 6;
   accel_filt <~~ map_outcome (fixed 2) (slice 0 3 filt_i);
   gyro_filt <~~ map_outcome (fixed 2) (slice 3 6 filt_i);
   filt_temp <~~ py_index filt_i 6;
   Ok (map Num (slice 0 3 raw_i)
       ++ map Num (slice 3 6 raw_i)
       ++ [Num raw_temp]
       ++ accel_filt
       ++ gyro_filt
       ++ [Num filt_temp]))%py.

(** The cells of one saved row: the raw record as it is, the six motion
    values of the filtered record as text with two decimals, and the
    filtered temperature as it is. *)
Definition saved_row (raw_i filt_i : list num) : list cell :=
  map Num (take 7 raw_i)
  ++ map (Fixed 2) (take 6 filt_i)
  ++ map Num (take 1 (drop 6 filt_i)).

Definition save_imu_data (raw_data filtered_data : list (list num))
    : M csv_file unit :=
  (_ <-- writerow imu_headers;
   let min_len := Nat.min (length raw_data) (length filtered_data) in
   for_each (seq 0 min_len) (fun i =>
     raw_i <-- lift (py_index raw_data i);
     filt_i <-- lift (py_index filtered_data i);
     formatted <-- lift (formatted_row raw_i filt_i);
     writerow formatted))%py.

Definition quat_headers : list cell := texts ["w"; "x"; "y"; "z"].

Definition save_quaternions (quat_data : list (list float))
    : M csv_file unit :=
  (_ <-- writerow quat_headers;
   for_each quat_data (fun q =>
     writerow (map (fun v => Fixed 3 (Float v)) q)))%py.

Definition csv_headers : list cell :=
  texts ["Accel_X(g)"; "Accel_Y(g)"; "Accel_Z(g)";
         "Gyro_X(dps)"; "Gyro_Y(dps)"; "Gyro_Z(dps)";
         "Temperature"].

(** The list display [formatted] of one iteration of [save_to_csv],
    evaluated from left to right: each entry is subscripted and then
    formatted before the next one is looked at. *)
Definition formatted_record (row : list num) : outcome (list cell) :=
  (x0 <~~ py_index row 0; c0 <~~ fixed 2 x0;
   x1 <~~ py_index row 1; c1 <~~ fixed 2 x1;
   x2 <~~ py_index row 2; c2 <~~ fixed 2 x2;
   x3 <~~ py_index row 3; c3 <~~ fixed 2 x3;
   x4 <~~ py_index row 4; c4 <~~ fixed 2 x4;
   x5 <~~ py_index row 5; c5 <~~ fixed 2 x5;
   temp <~~ py_index row 6;
   Ok [c0; c1; c2; c3; c4; c5; Num temp])%py.

(** The cells of one row of [save_to_csv]: six values as text with two
    decimals, and the temperature as it is. *)
Definition csv_row (row : list num) : list cell :=
  map (Fixed 2) (take 6 row) ++ map Num (take 1 (drop 6 row)).

Definition save_to_csv (data : list (list num)) : M csv_file unit :=
  (_ <-- writerow csv_headers;
   for_each data (fun row =>
     formatted <-- lift (formatted_record row);
     writerow formatted))%py.

(** [zip("XYZ", stats['bias'], stats['std'])] *)
Fixpoint zip3 {A B C} (xs : list A) (ys : list B) (zs : list C)
    : list (A * B * C) :=
  match xs, ys, zs with
  | x :: xs', y :: ys', z :: zs' => (x, y, z) :: zip3 xs' ys' zs'
  | _, _, _ => []
  end.

Definition stats_headers (st : stats) : list cell :=
  texts ["Axis";
         ("Bias (" ++ unit_label st ++ ")")%string;
         ("Std (" ++ unit_label st ++ ")")%string].

Definition stats_rows (st : stats) : list (list cell) :=
  map (fun '(axis, b, sd) =>
         [Text (lit (String axis EmptyString));
          Fixed 4 (Float b);
          Fixed 4 (Float sd)])
    (zip3 (String.list_ascii_of_string "XYZ") (bias st) (std st)).

Definition save_stats (st : stats) : M csv_file unit :=
  writerows ([stats_headers st] ++ stats_rows st).

(** *** The text of a formatted cell *)

(** The decimal digits of a non-negative integer. *)
Fixpoint decimal_go (fuel : nat) (n : Z) (acc : str) : str :=
  match fuel with
  | O => acc
  | S fuel' =>
      let acc' := Z.to_N (48 + n mod 10) :: acc in
      if n <? 10 then acc' else decimal_go fuel' (n / 10) acc'
  end.

Definition decimal_digits (n : Z) : str :=
  decimal_go (S (Z.to_nat (Z.log2 n))) n [].

(** The integer nearest to [a * 2^e] for [a >= 0], ties to even. *)
Definition nearest_even (a e : Z) : Z :=
  if 0 <=? e then a * 2 ^ e
  else
    let d := 2 ^ (- e) in
    let q := a / d in
    let r := a mod d in
    if 2 * r <? d then q
    else if d <? 2 * r then q + 1
    else if Z.even q then q else q + 1.

(** [n / 10^digits] written with [digits] decimals. *)
Definition with_decimals (digits : nat) (n : Z) : str :=
  let p := 10 ^ Z.of_nat digits in
  let frac := decimal_digits (n mod p) in
  decimal_digits (n / p)
  ++ match digits with
     | O => []
     | _ => lit "." ++ replicate (digits - length frac) 48%N ++ frac
     end.

(** [f"{x:.<digits>f}"] for a float: the exact value of [x] rounded to
    [digits] decimals, ties to even, with the sign of [x]. *)
Definition fixed_text (digits : nat) (x : float) : str :=
  let sign (s : bool) := if s then lit "-" else [] in
  match Prim2SF x with
  | S754_nan => lit "nan"
  | S754_infinity s => sign s ++ lit "inf"
  | S754_zero s => sign s ++ with_decimals digits 0
  | S754_finite s m e =>
      sign s
      ++ with_decimals digits
           (nearest_even (Z.pos m * 10 ^ Z.of_nat digits) e)
  end.

End Writers.

(** * Properties *)

(** ** Facts about rounding

    Rounding a non-negative quantity never yields NaN or a negative number:
    the result is [+0], positive and finite, or [+inf]. *)

Section RoundingFacts.

Lemma shr_1_nonneg r : 0 <= shr_m r -> 0 <= shr_m (shr_1 r).
Proof.
  destruct r as [m rb sb]; simpl.
  destruct m as [|p|p]; [simpl; lia | | lia].
  destruct p; simpl; lia.
Qed.

Lemma iter_pos_invariant {A} (P : A -> Prop) (f : A -> A) :
  (forall x, P x -> P (f x)) -> forall n x, P x -> P (SpecFloat.iter_pos f n x).
Proof.
  intros Hf n. induction n as [n IH|n IH|]; intros x Hx; simpl; auto.
Qed.

Lemma shr_nonneg r e n : 0 <= shr_m r -> 0 <= shr_m (shr r e n).1.
Proof.
  intros Hr. destruct n; simpl; auto.
  apply (iter_pos_invariant (fun r => 0 <= shr_m r)); auto using shr_1_nonneg.
Qed.

Lemma shr_fexp_nonneg m e l :
  0 <= m -> 0 <= shr_m (shr_fexp prec emax m e l).1.
Proof.
  intros Hm. unfold shr_fexp. apply shr_nonneg.
  destruct l as [|[]]; simpl; auto.
Qed.

Lemma round_nearest_even_nonneg m l : 0 <= m -> 0 <= round_nearest_even m l.
Proof.
  intros Hm. destruct l as [|[]]; simpl; try lia.
  destruct (Z.even m); lia.
Qed.

Lemma binary_round_aux_nonneg m e l :
  0 <= m -> sf_nonneg (binary_round_aux prec emax false m e l) = true.
Proof.
  intros Hm. unfold binary_round_aux.
  pose proof (shr_fexp_nonneg m e l Hm) as H1.
  destruct (shr_fexp prec emax m e l) as [mrs' e'] eqn:E1. simpl in H1.
  pose proof (shr_fexp_nonneg _ e' loc_Exact
                (round_nearest_even_nonneg _ (loc_of_shr_record mrs') H1)) as H2.
  destruct (shr_fexp prec emax (round_nearest_even _ _) e' loc_Exact)
    as [mrs'' e''] eqn:E2.
  simpl in H2.
  destruct (shr_m mrs'') as [|p|p]; [reflexivity | | lia].
  destruct (e'' <=? emax - prec); reflexivity.
Qed.

Lemma binary_round_nonneg m e :
  sf_nonneg (binary_round prec emax false m e) = true.
Proof.
  unfold binary_round.
  destruct (shl_align _ _ _) as [mz ez].
  apply binary_round_aux_nonneg. lia.
Qed.

Lemma binary_normalize_nonneg n e :
  0 <= n -> sf_nonneg (binary_normalize prec emax n e false) = true.
Proof.
  intros Hn. destruct n as [|p|p]; simpl; [reflexivity | | lia].
  apply binary_round_nonneg.
Qed.

Lemma SFmul_nonneg x m e :
  sf_nonneg x = true ->
  sf_nonneg (SFmul prec emax x (S754_finite false m e)) = true.
Proof.
  destruct x as [[]|[]| |[] mx ex]; simpl; try discriminate; try reflexivity.
  intros _. apply binary_round_aux_nonneg. lia.
Qed.

Lemma Prim2SF_SF2Prim_nonneg x :
  sf_nonneg x = true -> sf_nonneg (Prim2SF (SF2Prim x)) = true.
Proof.
  destruct x as [[]|[]| |[] m e]; simpl; try discriminate; intros _.
  - reflexivity.
  - reflexivity.
  - unfold Z.ldexp. rewrite ldshiftexp_spec, of_uint63_spec.
    pose proof (Uint63.to_Z_bounded (Uint63Axioms.of_Z (Z.pos m))) as Hb.
    pose proof (binary_normalize_nonneg
                  (Uint63Axioms.to_Z (Uint63Axioms.of_Z (Z.pos m))) 0
                  ltac:(lia)) as Hn.
    destruct (binary_normalize _ _ _ _ _) as [[]|[]| |[] m' e'];
      simpl in *; try discriminate; try reflexivity.
    apply binary_round_nonneg.
Qed.

Lemma Z2F_nonneg n : 0 <= n -> sf_nonneg (Prim2SF (Z2F n)) = true.
Proof.
  intros Hn. apply Prim2SF_SF2Prim_nonneg, binary_normalize_nonneg, Hn.
Qed.

(** Multiplying by a positive finite constant keeps the sign. *)
Lemma mul_nonneg x c m e :
  Prim2SF c = S754_finite false m e ->
  sf_nonneg (Prim2SF x) = true ->
  sf_nonneg (Prim2SF (x * c)%float) = true.
Proof.
  intros Hc Hx. rewrite mul_spec, Hc. apply SFmul_nonneg, Hx.
Qed.

Lemma float_of_int_Ok n f : float_of_int n = Ok f -> f = Z2F n.
Proof.
  unfold float_of_int. destruct (is_infinity (Z2F n)); congruence.
Qed.

Lemma int_mul_float_Ok n x t :
  int_mul_float n x = Ok t -> t = (Z2F n * x)%float.
Proof.
  unfold int_mul_float. destruct (float_of_int n) as [f|e] eqn:E; simpl;
    [|discriminate].
  apply float_of_int_Ok in E. congruence.
Qed.

(** On a non-negative float, [int()] either overflows or is the floor. *)
Lemma int_of_float_nonneg x :
  sf_nonneg (Prim2SF x) = true ->
  int_of_float x = Raise OverflowError \/
  exists idx, int_of_float x = Ok idx /\ float_floor x = Some idx /\ 0 <= idx.
Proof.
  unfold int_of_float, float_floor.
  destruct (Prim2SF x) as [[]|[]| |[] m e]; simpl; try discriminate; intros _.
  - right. exists 0. repeat split; lia.
  - left. reflexivity.
  - right. exists (Z.shiftl (Z.pos m) e). repeat split.
    apply Z.shiftl_nonneg. lia.
Qed.

(** The window index of the sample with counter [n]: never a [ValueError],
    and when it is defined it is the floor of [t * 10]. *)
Lemma window_index_spec n t :
  0 <= n ->
  int_mul_float n 0.005 = Ok t ->
  int_of_float (t * 10)%float = Raise OverflowError \/
  exists idx, int_of_float (t * 10)%float = Ok idx
              /\ float_floor (t * 10)%float = Some idx /\ 0 <= idx.
Proof.
  intros Hn Ht. apply int_mul_float_Ok in Ht. subst t.
  apply int_of_float_nonneg.
  eapply mul_nonneg; [vm_compute; reflexivity|].
  eapply mul_nonneg; [vm_compute; reflexivity|].
  apply Z2F_nonneg, Hn.
Qed.

End RoundingFacts.

(** ** Facts about text *)

Section TextFacts.

Lemma str_split_go_length sep s skip cur :
  length (str_split_go sep s skip cur) = S (str_count_go sep s skip).
Proof.
  revert skip cur. induction s as [|c s IH]; intros skip cur; simpl; [done|].
  destruct skip as [|k]; [|apply IH].
  match goal with |- context [if ?b then _ else _] => destruct b end;
    simpl; [f_equal|]; apply IH.
Qed.

(** [len(s.split(sep)) == s.count(sep) + 1] *)
Lemma str_split_length s sep :
  length (str_split s sep) = S (str_count s sep).
Proof. apply str_split_go_length. Qed.

Lemma seven_fields line :
  str_count line (lit ",") = 6%nat ->
  exists p0 p1 p2 p3 p4 p5 p6,
    str_split line (lit ",") = [p0; p1; p2; p3; p4; p5; p6].
Proof.
  intros Hc. pose proof (str_split_length line (lit ",")) as Hl.
  rewrite Hc in Hl.
  destruct (str_split line (lit ",")) as [|p0 [|p1 [|p2 [|p3 [|p4 [|p5 [|p6 [|? ?]]]]]]]];
    simpl in Hl; try discriminate.
  eauto 10.
Qed.

End TextFacts.

(** ** The Line Framer *)

Section FramerFacts.
Context {St : Type} (h : str -> M St unit).

Lemma drain_unfold buf s :
  drain h buf s =
  match index_of newline buf with
  | Some line_end =>
      match decode_line (take line_end buf) with
      | Raise e => ((s, drop (S line_end) buf), Raise e)
      | Ok line =>
          match h line s with
          | (s', Ok _) => drain h (drop (S line_end) buf) s'
          | (s', Raise e) => ((s', drop (S line_end) buf), Raise e)
          end
      end
  | None => ((s, buf), Ok tt)
  end.
Proof.
  rewrite drain_equation_1. unfold drain_clause_1.
  generalize (inspect (index_of newline buf)).
  intros [[i|] Hi]; simpl; rewrite Hi; reflexivity.
Qed.

Lemma decode_line_total span : exists line, decode_line span = Ok line.
Proof.
  unfold decode_line, decode_utf8, decode_latin1.
  destruct (utf8 (map Byte.to_N span)); simpl; eauto.
Qed.

Lemma index_of_app b buf data i :
  index_of b buf = Some i -> index_of b (buf ++ data) = Some i.
Proof.
  revert i. induction buf as [|x buf IH]; intros i; simpl; [discriminate|].
  destruct (Byte.eqb x b); [done|].
  destruct (index_of b buf) as [j|]; simpl; [|discriminate].
  intros [= <-]. rewrite (IH j eq_refl). done.
Qed.

Lemma terminators_index_Some buf i :
  index_of newline buf = Some i ->
  terminators buf = S (terminators (drop (S i) buf)).
Proof.
  revert i. induction buf as [|x buf IH]; intros i; simpl; [discriminate|].
  destruct (Byte.eqb x newline).
  - intros [= <-]. rewrite drop_0. done.
  - destruct (index_of newline buf) as [j|]; simpl; [|discriminate].
    intros [= <-]. apply (IH j eq_refl).
Qed.

Lemma terminators_index_None buf :
  index_of newline buf = None -> terminators buf = 0%nat.
Proof.
  induction buf as [|x buf IH]; simpl; [done|].
  destruct (Byte.eqb x newline); [discriminate|].
  destruct (index_of newline buf); simpl; [discriminate|auto].
Qed.

Hypothesis h_total : never_raises h.

Lemma handler_step line s : h line s = ((h line s).1, Ok tt).
Proof. specialize (h_total line s). destruct (h line s); simpl in *; congruence. Qed.

(** The framing loop ends normally and leaves no terminator behind. *)
Lemma drain_total buf : forall s,
  exists s' rest,
    drain h buf s = ((s', rest), Ok tt) /\ index_of newline rest = None.
Proof.
  remember (length buf) as n eqn:Hn. revert buf Hn.
  induction n as [n IH] using lt_wf_ind. intros buf -> s.
  rewrite drain_unfold.
  destruct (index_of newline buf) as [i|] eqn:Hi; [|eauto].
  destruct (decode_line_total (take i buf)) as [line ->].
  rewrite handler_step.
  apply (IH (length (drop (S i) buf))); [|done].
  apply index_of_lt in Hi. rewrite length_drop. lia.
Qed.

(** Bytes that arrive later do not change what the loop does with the
    lines already complete. *)
Lemma drain_app data buf : forall s,
  drain h (buf ++ data) s =
  drain h ((drain h buf s).1.2 ++ data) (drain h buf s).1.1.
Proof.
  remember (length buf) as n eqn:Hn. revert buf Hn.
  induction n as [n IH] using lt_wf_ind. intros buf -> s.
  rewrite (drain_unfold buf).
  destruct (index_of newline buf) as [i|] eqn:Hi; [|done].
  rewrite (drain_unfold (buf ++ data)), (index_of_app _ _ data _ Hi).
  pose proof (index_of_lt _ _ _ Hi) as Hlt.
  rewrite take_app_le, drop_app_le by lia.
  destruct (decode_line_total (take i buf)) as [line ->].
  rewrite handler_step.
  apply (IH (length (drop (S i) buf))); [|done].
  rewrite length_drop. lia.
Qed.

Lemma drain_settled buf s :
  index_of newline buf = None -> drain h buf s = ((s, buf), Ok tt).
Proof. intros Hb. rewrite drain_unfold, Hb. done. Qed.

(** Chunk-size invariance of the acquisition loop, from any buffer that
    holds no complete line. *)
Lemma acquire_chunks chunks : forall buf s,
  index_of newline buf = None ->
  acquire h (map Data chunks) buf s =
  match concat chunks with
  | [] => ((s, buf), Ok tt)
  | _ => drain h (buf ++ concat chunks) s
  end.
Proof.
  induction chunks as [|c chunks IH]; intros buf s Hb; simpl; [done|].
  destruct c as [|b c]; simpl; [apply IH, Hb|].
  destruct (drain_total (buf ++ b :: c) s) as (s' & rest & Hd & Hrest).
  rewrite Hd, (IH rest s' Hrest).
  change (b :: c ++ concat chunks) with ((b :: c) ++ concat chunks).
  rewrite (assoc_L (++)), (drain_app (concat chunks) (buf ++ b :: c) s), Hd.
  simpl. destruct (concat chunks); [|done].
  rewrite (right_id_L [] (++)). symmetry. apply drain_settled, Hrest.
Qed.

Lemma acquire_single data buf s :
  acquire h [Data data] buf s =
  match data with
  | [] => ((s, buf), Ok tt)
  | _ => drain h (buf ++ data) s
  end.
Proof.
  simpl. destruct data as [|b data]; [done|].
  destruct (drain h (buf ++ b :: data) s) as [[s' buf'] [[]|e]]; done.
Qed.

Lemma acquire_chunk_invariant chunks s :
  acquire h (map Data chunks) [] s = acquire h [Data (concat chunks)] [] s.
Proof. rewrite acquire_chunks, acquire_single; done. Qed.

(** Reads that deliver data never end the loop abnormally. *)
Lemma acquire_data_total chunks : forall buf s,
  exists s' rest, acquire h (map Data chunks) buf s = ((s', rest), Ok tt).
Proof.
  induction chunks as [|c chunks IH]; intros buf s; simpl; [eauto|].
  destruct c as [|b c]; [apply IH|].
  destruct (drain_total (buf ++ b :: c) s) as (s' & rest & -> & _).
  apply IH.
Qed.

(** A failed read ends the loop with the exception it raised; what the reads
    before it delivered has been processed, what follows is never read. *)
Lemma acquire_fault chunks e after : forall buf s,
  acquire h (map Data chunks ++ Fault e :: after) buf s =
  ((acquire h (map Data chunks) buf s).1, Raise e).
Proof.
  induction chunks as [|c chunks IH]; intros buf s; simpl; [done|].
  destruct c as [|b c]; [apply IH|].
  destruct (drain_total (buf ++ b :: c) s) as (s' & rest & -> & _).
  apply IH.
Qed.

(** A property of the store that every handled line preserves holds
    throughout the acquisition. *)
Lemma drain_invariant (P : St -> Prop) :
  (forall line s, P s -> P (h line s).1) ->
  forall buf s, P s -> P (drain h buf s).1.1.
Proof.
  intros HP buf.
  remember (length buf) as n eqn:Hn. revert buf Hn.
  induction n as [n IH] using lt_wf_ind. intros buf -> s Hs.
  rewrite drain_unfold.
  destruct (index_of newline buf) as [i|] eqn:Hi; [|done].
  destruct (decode_line_total (take i buf)) as [line ->].
  rewrite handler_step.
  apply (IH (length (drop (S i) buf))); [| done | apply HP, Hs].
  apply index_of_lt in Hi. rewrite length_drop. lia.
Qed.

Lemma acquire_invariant (P : St -> Prop) :
  (forall line s, P s -> P (h line s).1) ->
  forall polls buf s, P s -> P (acquire h polls buf s).1.1.
Proof.
  intros HP polls. induction polls as [|[data|e] polls IH]; intros buf s Hs;
    simpl; [done| |done].
  destruct data as [|b data]; [apply IH, Hs|].
  pose proof (drain_invariant P HP (buf ++ b :: data) s Hs) as Hd.
  destruct (drain_total (buf ++ b :: data) s) as (s' & rest & Hdr & _).
  rewrite Hdr in Hd |- *. apply IH, Hd.
Qed.

End FramerFacts.

(** ** The classifiers *)

Section ClassifierFacts.
Context `{PyRuntime}.

Lemma float_field_errors parts i e :
  float_field parts i = Raise e -> caught_parse_errors e = true.
Proof.
  unfold float_field, py_index.
  destruct (parts !! i) as [p|]; simpl; [|by intros [= <-]].
  destruct (py_float p); simpl; [discriminate|by intros [= <-]].
Qed.

Lemma int_field_errors parts i e :
  int_field parts i = Raise e -> caught_parse_errors e = true.
Proof.
  unfold int_field, py_index.
  destruct (parts !! i) as [p|]; simpl; [|by intros [= <-]].
  destruct (py_int p); simpl; [discriminate|by intros [= <-]].
Qed.

Lemma parse_record_errors line e :
  parse_record line = Raise e -> caught_parse_errors e = true.
Proof.
  unfold parse_record.
  repeat match goal with
  | |- context [obind (float_field ?ps ?i) _] =>
      let E := fresh "E" in
      destruct (float_field ps i) eqn:E; simpl;
        [|intros [= <-]; eapply float_field_errors, E]
  end.
  destruct (int_field _ 6) eqn:E6; simpl; [discriminate|].
  intros [= <-]. eapply int_field_errors, E6.
Qed.

Lemma collect_never_raises : never_raises collect.
Proof. intros line s. reflexivity. Qed.

Lemma handle_line_never_raises : never_raises SerialCapture.handle_line.
Proof.
  intros line s. unfold SerialCapture.handle_line.
  destruct (str_startswith line _).
  - unfold try_except, bind, lift, modify.
    destruct (SerialCapture.parse_quaternion line); reflexivity.
  - destruct (Nat.eqb _ 6); [|reflexivity].
    unfold try_except, bind, lift, modify.
    destruct (parse_record line) as [row|e] eqn:E; [reflexivity|].
    rewrite (parse_record_errors _ _ E). reflexivity.
Qed.

Lemma accely_handle_line_never_raises :
  never_raises SerialCaptureAccely.handle_line.
Proof.
  intros line s. unfold SerialCaptureAccely.handle_line.
  destruct (Nat.eqb _ 6); [|reflexivity].
  unfold try_except, bind, lift, modify.
  destruct (parse_record line) as [row|e] eqn:E; [reflexivity|].
  rewrite (parse_record_errors _ _ E). reflexivity.
Qed.

(** Every handled line leaves the two lists of the quaternion-capable
    variant equal. *)
Lemma handle_line_keeps_duplicate line s :
  SerialCapture.filtered_data s = SerialCapture.raw_data s ->
  SerialCapture.filtered_data (SerialCapture.handle_line line s).1
  = SerialCapture.raw_data (SerialCapture.handle_line line s).1.
Proof.
  intros Hs. unfold SerialCapture.handle_line.
  destruct (str_startswith line _).
  - unfold try_except, bind, lift, modify.
    destruct (SerialCapture.parse_quaternion line); simpl; exact Hs.
  - destruct (Nat.eqb _ 6); [|exact Hs].
    unfold try_except, bind, lift, modify.
    destruct (parse_record line) as [row|e] eqn:E; simpl.
    + by rewrite Hs.
    + rewrite (parse_record_errors _ _ E). exact Hs.
Qed.

End ClassifierFacts.

Lemma drain_collect_length buf : forall lines,
  length (drain collect buf lines).1.1 = (length lines + terminators buf)%nat.
Proof.
  remember (length buf) as n eqn:Hn. revert buf Hn.
  induction n as [n IH] using lt_wf_ind. intros buf -> lines.
  rewrite drain_unfold.
  destruct (index_of newline buf) as [i|] eqn:Hi.
  - destruct (decode_line_total (take i buf)) as [line ->].
    unfold collect at 1, modify.
    rewrite (IH (length (drop (S i) buf))), (terminators_index_Some _ _ Hi);
      [rewrite length_app; simpl; lia | | done].
    apply index_of_lt in Hi. rewrite length_drop. lia.
  - rewrite (terminators_index_None _ Hi). simpl. lia.
Qed.

(** C4. Chunk-size invariance: feeding a byte sequence to the Line Framer in
    any chunks, in particular one byte at a time, gives the same decoded
    lines as feeding it as one chunk; the two capture loops, which run the
    framer, return the same data either way. *)
Theorem chunk_size_invariance `{PyRuntime}
    (chunks : list (list byte)) (bytes : list byte) :
  framed_lines (map Data chunks) = framed_lines [Data (concat chunks)]
  /\ framed_lines (map (fun b => Data [b]) bytes) = framed_lines [Data bytes]
  /\ SerialCapture.capture_serial_data true (map Data chunks)
     = SerialCapture.capture_serial_data true [Data (concat chunks)]
  /\ SerialCaptureAccely.capture_serial_data true (map Data chunks)
     = SerialCaptureAccely.capture_serial_data true [Data (concat chunks)].
Proof.
  repeat split.
  - unfold framed_lines.
    by rewrite (acquire_chunk_invariant _ collect_never_raises).
  - unfold framed_lines.
    replace (map (fun b => Data [b]) bytes)
      with (map Data (map (fun b => [b]) bytes)) by (by rewrite map_map).
    rewrite (acquire_chunk_invariant _ collect_never_raises).
    replace (concat (map (fun b => [b]) bytes)) with bytes; [done|].
    induction bytes as [|b bytes IH]; simpl; congruence.
  - unfold SerialCapture.capture_serial_data, guarded.
    by rewrite (acquire_chunk_invariant _ handle_line_never_raises).
  - unfold SerialCaptureAccely.capture_serial_data, guarded.
    by rewrite (acquire_chunk_invariant _ accely_handle_line_never_raises).
Qed.

(** C7. Decoding always produces text: when UTF-8 decoding of a span fails,
    the same span is decoded as ISO-8859-1, which succeeds on every byte
    sequence; so the framing loop over any reads ends normally, with one
    decoded line per terminator received. *)
Theorem decoding_never_fails (span : list byte) (chunks : list (list byte)) :
  (exists line,
      decode_line span = Ok line
      /\ (forall text, decode_utf8 span = Ok text -> line = str_strip text)
      /\ (decode_utf8 span = Raise UnicodeDecodeError ->
          decode_latin1 span = Ok (map Byte.to_N span)
          /\ line = str_strip (map Byte.to_N span)))
  /\ (forall bs, exists text, decode_latin1 bs = Ok text)
  /\ (exists rest,
        acquire collect (map Data chunks) [] []
        = ((framed_lines (map Data chunks), rest), Ok tt))
  /\ length (framed_lines (map Data chunks)) = terminators (concat chunks).
Proof.
  repeat split.
  - unfold decode_line, decode_utf8, decode_latin1.
    destruct (utf8 (map Byte.to_N span)) as [text|]; simpl.
    + exists (str_strip text). repeat split; [congruence|discriminate..].
    + exists (str_strip (map Byte.to_N span)). repeat split. discriminate.
  - intros bs. eexists. reflexivity.
  - unfold framed_lines.
    destruct (acquire_data_total _ collect_never_raises chunks [] [])
      as (lines & rest & ->).
    by exists rest.
  - unfold framed_lines.
    rewrite (acquire_chunks _ collect_never_raises) by done.
    destruct (concat chunks) as [|b bs] eqn:E; [done|].
    rewrite drain_collect_length. done.
Qed.

Lemma capture_witness_run :
  SerialCapture.capture_serial_data true
    [Data (Samples.line_bytes "1.5,2,3,4,5,6,25"); Fault SerialException]
  = (Raise (SystemExit 1), Closed).
Proof. vm_compute. reflexivity. Qed.

(** C8, as the code has it. When a read fails, the loop stops at once (the
    reads after the failure play no part) and the function does not return:
    a [serial.SerialException] is turned into [sys.exit(1)], any other
    exception of the read, such as an [OSError], leaves the function as it
    is, since [except serial.SerialException] does not catch it.  Either
    way the port that had been opened is closed, and the rows and the count
    gathered so far are in the loop's variables at that point but are not
    returned.  When opening the port fails there is nothing to close. *)
Theorem transport_failure_never_returns `{PyRuntime}
    (chunks : list (list byte)) (e : exn) (after polls : list poll) :
  let leaves :=
    match e with
    | SerialException => SystemExit 1
    | _ => e
    end in
  SerialCapture.capture_serial_data true (map Data chunks ++ Fault e :: after)
  = (Raise leaves, Closed)
  /\ SerialCaptureAccely.capture_serial_data true
       (map Data chunks ++ Fault e :: after)
     = (Raise leaves, Closed)
  /\ acquire SerialCapture.handle_line (map Data chunks ++ Fault e :: after)
       [] SerialCapture.initial
     = ((acquire SerialCapture.handle_line (map Data chunks)
           [] SerialCapture.initial).1,
        Raise e)
  /\ SerialCapture.capture_serial_data false polls
     = (Raise (SystemExit 1), Unopened)
  /\ SerialCaptureAccely.capture_serial_data false polls
     = (Raise (SystemExit 1), Unopened).
Proof.
  intros leaves. split_and!; [| |apply (acquire_fault _ handle_line_never_raises)
                             |reflexivity..].
  - unfold SerialCapture.capture_serial_data, guarded.
    rewrite (acquire_fault _ handle_line_never_raises).
    destruct (acquire _ (map Data chunks) [] _) as [[s buf] o].
    unfold leaves. by destruct e.
  - unfold SerialCaptureAccely.capture_serial_data, guarded.
    rewrite (acquire_fault _ accely_handle_line_never_raises).
    destruct (acquire _ (map Data chunks) [] _) as [[s buf] o].
    unfold leaves. by destruct e.
Qed.

(** C8, counterexample. One valid record arrives, then the transport
    fails: with a [SerialException] the caller gets [SystemExit(1)], with
    an [OSError] the [OSError] itself, and no data in either case, although
    the same read followed by the deadline returns the record. *)
Lemma transport_failure_discards_data :
  SerialCapture.capture_serial_data true
    [Data (Samples.line_bytes "1.5,2,3,4,5,6,25"); Fault SerialException]
  = (Raise (SystemExit 1), Closed)
  /\ SerialCapture.capture_serial_data true
       [Data (Samples.line_bytes "1.5,2,3,4,5,6,25"); Fault OSError]
     = (Raise OSError, Closed)
  /\ SerialCapture.capture_serial_data true
       [Data (Samples.line_bytes "1.5,2,3,4,5,6,25")]
     = (Ok ([Samples.record_row], [Samples.record_row], [], 0), Closed)
  /\ SerialCaptureAccely.capture_serial_data true
       [Data (Samples.line_bytes "1.5,2,3,4,5,6,25"); Fault SerialException]
     = (Raise (SystemExit 1), Closed)
  /\ SerialCaptureAccely.capture_serial_data true
       [Data (Samples.line_bytes "1.5,2,3,4,5,6,25"); Fault OSError]
     = (Raise OSError, Closed)
  /\ SerialCaptureAccely.capture_serial_data true
       [Data (Samples.line_bytes "1.5,2,3,4,5,6,25")]
     = (Ok ([Samples.record_row], 0), Closed).
Proof. repeat split; vm_compute; reflexivity. Qed.

(** ** Field parsing *)

Section FieldFacts.

Lemma str_startswith_nil s : str_startswith s [] = true.
Proof. by destruct s. Qed.

Lemma str_count_single (s : list N) c :
  str_count s [c] = length (filter (fun x => x = c) s).
Proof.
  unfold str_count. induction s as [|a s IH]; [done|].
  rewrite filter_cons. cbn [str_count_go str_startswith length Nat.sub].
  rewrite str_startswith_nil.
  destruct (N.eqb_spec c a) as [->|Hne]; simpl.
  - rewrite decide_True by done. simpl. by rewrite IH.
  - rewrite decide_False by congruence. apply IH.
Qed.

Lemma filter_drop_while_space c (s : list N) :
  is_space c = false ->
  filter (fun x => x = c) (drop_while is_space s) = filter (fun x => x = c) s.
Proof.
  intros Hc. induction s as [|a s IH]; [done|]. simpl.
  destruct (is_space a) eqn:Ha; [|done].
  rewrite filter_cons, decide_False; [apply IH|congruence].
Qed.

Lemma length_filter_rev {A} (P : A -> Prop) `{forall x, Decision (P x)} l :
  length (filter P (rev l)) = length (filter P l).
Proof.
  induction l as [|a l IH]; [done|]. simpl.
  rewrite filter_app, length_app, IH, !filter_cons, filter_nil.
  destruct (decide (P a)); simpl; lia.
Qed.

(** Stripping whitespace leaves the number of commas unchanged. *)
Lemma str_count_strip line :
  str_count (str_strip line) (lit ",") = str_count line (lit ",").
Proof.
  change (lit ",") with [44%N]. rewrite !str_count_single. unfold str_strip.
  rewrite length_filter_rev, filter_drop_while_space by done.
  rewrite length_filter_rev, filter_drop_while_space by done.
  done.
Qed.

End FieldFacts.

(** C6, as the code has it. For a line with exactly six commas: both
    capture classifiers convert fields 0-5 with [float] and field 6 with
    [int], store the row when all seven conversions succeed and count the
    line as invalid otherwise (the quaternion-capable one does so when the
    line does not carry the quaternion marker, which it tests first); the
    7-field batch reader converts all seven fields with [float]. *)
Theorem seven_field_parsing `{PyRuntime} (line : str) :
  str_count line (lit ",") = 6%nat ->
  (exists p0 p1 p2 p3 p4 p5 p6,
      str_split line (lit ",") = [p0; p1; p2; p3; p4; p5; p6]
      /\ let row :=
           a0 ← py_float p0; a1 ← py_float p1; a2 ← py_float p2;
           g0 ← py_float p3; g1 ← py_float p4; g2 ← py_float p5;
           temp ← py_int p6;
           Some [Float a0; Float a1; Float a2; Float g0; Float g1; Float g2;
                 Int temp] in
         (forall s,
             SerialCaptureAccely.handle_line line s
             = (match row with
                | Some r => SerialCaptureAccely.append_raw r s
                | None => SerialCaptureAccely.count_invalid s
                end, Ok tt))
         /\ (str_startswith line (lit "Quaternion:") = false ->
             forall s,
               SerialCapture.handle_line line s
               = (match row with
                  | Some r =>
                      SerialCapture.append_filtered r
                        (SerialCapture.append_raw r s)
                  | None => SerialCapture.count_invalid s
                  end, Ok tt)))
  /\ (exists q0 q1 q2 q3 q4 q5 q6,
        str_split (str_strip line) (lit ",") = [q0; q1; q2; q3; q4; q5; q6]
        /\ ImuDataProcess.parse_line line
           = match
               a0 ← py_float q0; a1 ← py_float q1; a2 ← py_float q2;
               g0 ← py_float q3; g1 ← py_float q4; g2 ← py_float q5;
               temp ← py_float q6;
               Some [a0; a1; a2; g0; g1; g2; temp]
             with
             | Some parts => Ok parts
             | None => Raise ValueError
             end).
Proof.
  intros Hc. split.
  - destruct (seven_fields line Hc) as (p0 & p1 & p2 & p3 & p4 & p5 & p6 & Hs).
    exists p0, p1, p2, p3, p4, p5, p6. split; [exact Hs|].
    cbv zeta. split; [|intros Hq]; intros s.
    + unfold SerialCaptureAccely.handle_line, parse_record.
      rewrite Hc, Hs. cbn [Nat.eqb].
      unfold float_field, int_field, py_index, try_except, bind, lift, modify.
      cbn [lookup list_lookup of_option obind].
      destruct (py_float p0), (py_float p1), (py_float p2), (py_float p3),
        (py_float p4), (py_float p5), (py_int p6); reflexivity.
    + unfold SerialCapture.handle_line, parse_record.
      rewrite Hq, Hc, Hs. cbn [Nat.eqb].
      unfold float_field, int_field, py_index, try_except, bind, lift, modify.
      cbn [lookup list_lookup of_option obind].
      destruct (py_float p0), (py_float p1), (py_float p2), (py_float p3),
        (py_float p4), (py_float p5), (py_int p6); reflexivity.
  - rewrite <- str_count_strip in Hc.
    destruct (seven_fields _ Hc) as (q0 & q1 & q2 & q3 & q4 & q5 & q6 & Hs).
    exists q0, q1, q2, q3, q4, q5, q6. split; [exact Hs|].
    unfold ImuDataProcess.parse_line. rewrite Hs.
    cbn [map_outcome].
    destruct (py_float q0), (py_float q1), (py_float q2), (py_float q3),
      (py_float q4), (py_float q5), (py_float q6); reflexivity.
Qed.

Lemma seven_field_parsing_witness :
  SerialCapture.handle_line Samples.fractional_temp_line SerialCapture.initial
  = (SerialCapture.count_invalid SerialCapture.initial, Ok tt)
  /\ ImuDataProcess.parse_line Samples.fractional_temp_line
     = Ok [1.5; 2; 3; 4; 5; 6; 25.5]%float.
Proof.
  destruct (seven_field_parsing Samples.fractional_temp_line)
    as [(p0 & p1 & p2 & p3 & p4 & p5 & p6 & Hs & _ & Hq)
        (q0 & q1 & q2 & q3 & q4 & q5 & q6 & Hs' & Hp)];
    [vm_compute; reflexivity|].
  vm_compute in Hs. injection Hs as <- <- <- <- <- <- <-.
  vm_compute in Hs'. injection Hs' as <- <- <- <- <- <- <-.
  split.
  - rewrite Hq by (vm_compute; reflexivity). vm_compute. reflexivity.
  - rewrite Hp. vm_compute. reflexivity.
Defined.

(** C6, counterexample. The 7-field batch reader accepts a record whose
    temperature is "25.5" (the capture classifiers count it as invalid); and
    a line with six commas that carries the quaternion marker is stored as a
    quaternion, not parsed as a 7-field record. *)
Lemma fractional_temperature_accepted :
  ImuDataProcess.parse_line Samples.fractional_temp_line
  = Ok [1.5; 2; 3; 4; 5; 6; 25.5]%float
  /\ match ImuDataProcess.process_imu_data default_calibration
             [Samples.fractional_temp_line] with
     | Ok r => (ImuDataProcess.r_temp_raw r).2 = [25.5%float]
     | Raise _ => False
     end
  /\ SerialCapture.handle_line Samples.fractional_temp_line SerialCapture.initial
     = (SerialCapture.count_invalid SerialCapture.initial, Ok tt)
  /\ str_count Samples.marked_line (lit ",") = 6%nat
  /\ SerialCapture.handle_line Samples.marked_line SerialCapture.initial
     = (SerialCapture.append_quat [1; 2; 3; 4]%float SerialCapture.initial,
        Ok tt).
Proof. repeat split; vm_compute; reflexivity. Qed.

(** ** The batch processors on degenerate inputs *)

(** C9. The 14-field processor takes the first row away before it looks at
    any row: the result does not depend on that row, a valid record in
    first place is lost, and on an input without rows [next] raises
    [StopIteration], which nothing catches. *)
Theorem first_row_is_discarded `{PyRuntime} (calib : calibration)
    (first other : list str) (rows : list (list str)) :
  ProcessImu.process_imu_data calib (first :: rows)
  = ProcessImu.process_imu_data calib (other :: rows)
  /\ ProcessImu.process_imu_data calib [] = Raise StopIteration
  /\ length Samples.example_row = 14%nat
  /\ match ProcessImu.process_imu_data (H := Reference.runtime)
             Samples.example_calibration [Samples.example_row] with
     | Ok r => ProcessImu.r_temp_raw r = ([], [])
     | Raise _ => False
     end
  /\ match ProcessImu.process_imu_data (H := Reference.runtime)
             Samples.example_calibration
             [Samples.header_row; Samples.example_row] with
     | Ok r => ProcessImu.r_temp_raw r = ([0%float], [25])
     | Raise _ => False
     end.
Proof. repeat split; vm_compute; reflexivity. Qed.

(** The guard of [calc_stats] in [process_imu.py]: an empty channel gives
    the zero statistics with the unit label. *)
Lemma calc_stats_guard `{PyRuntime} data unit :
  Exists (fun ch => ch = []) data ->
  ProcessImu.calc_stats data unit
  = Ok {| bias := [0; 0; 0]%float; std := [0; 0; 0]%float;
          unit_label := unit |}.
Proof.
  intros Hex. unfold ProcessImu.calc_stats.
  replace (forallb _ data) with false; [done|].
  symmetry. induction Hex as [ch data ->|ch data _ IH]; simpl; [done|].
  rewrite IH. apply andb_false_r.
Qed.

(** C2, the failing run. On an input file without any line,
    [imu_data_process.py] reaches [sum(ch)/len(ch)] with an empty channel
    and ends in [ZeroDivisionError]; [calc_stats] of [process_imu.py]
    returns the zero statistics on the same channels. *)
Theorem empty_channel_division `{PyRuntime} (calib : calibration)
    (unit : string) :
  ImuDataProcess.process_imu_data calib [] = Raise ZeroDivisionError
  /\ ImuDataProcess.calc_stats [[]; []; []] unit = Raise ZeroDivisionError
  /\ ProcessImu.calc_stats [[]; []; []] unit
     = Ok {| bias := [0; 0; 0]%float; std := [0; 0; 0]%float;
             unit_label := unit |}.
Proof.
  split; [|split; reflexivity].
  unfold ImuDataProcess.process_imu_data, ImuDataProcess.read_lines.
  simpl.
  replace (average_windows _ ∅) with (Ok ([] : list float, [] : list float))
    by (vm_compute; reflexivity).
  reflexivity.
Qed.

(** C1, the failing run. In [imu_data_process.py] the time stamp is the line
    number times 0.005: the same valid record is stamped 0 when it is the
    first line and 0.005 when an invalid line stands before it. *)
Theorem invalid_line_shifts_timestamp :
  match ImuDataProcess.process_imu_data Samples.example_calibration
          [Samples.example_line] with
  | Ok r => (ImuDataProcess.r_temp_raw r).1 = [0%float]
  | Raise _ => False
  end
  /\ match ImuDataProcess.process_imu_data Samples.example_calibration
            [lit "Accel_X(g),Accel_Y(g)"; Samples.example_line] with
     | Ok r => (ImuDataProcess.r_temp_raw r).1 = [0.005%float]
     | Raise _ => False
     end.
Proof. split; vm_compute; reflexivity. Qed.

(** ** Laws of the state-and-exception monad *)

Section MonadFacts.
Context {St : Type}.

Lemma for_each_nil {X} (body : X -> M St unit) s :
  for_each [] body s = (s, Ok tt).
Proof. reflexivity. Qed.

Lemma for_each_cons {X} (x : X) xs (body : X -> M St unit) s :
  for_each (x :: xs) body s = bind (body x) (fun _ => for_each xs body) s.
Proof. reflexivity. Qed.

Lemma bind_ret {A B} (a : A) (k : A -> M St B) s : bind (ret a) k s = k a s.
Proof. reflexivity. Qed.

Lemma bind_lift_Ok {A B} (a : A) (k : A -> M St B) s :
  bind (lift (Ok a)) k s = k a s.
Proof. reflexivity. Qed.

Lemma bind_lift_Raise {A B} e (k : A -> M St B) s :
  bind (lift (Raise e)) k s = (s, Raise e).
Proof. reflexivity. Qed.

Lemma bind_modify {B} (f : St -> St) (k : unit -> M St B) s :
  bind (modify f) k s = k tt (f s).
Proof. reflexivity. Qed.

Lemma bind_gets {A B} (f : St -> A) (k : A -> M St B) s :
  bind (gets f) k s = k (f s) s.
Proof. reflexivity. Qed.

Lemma bind_assoc {A B C} (m : M St A) (f : A -> M St B) (g : B -> M St C) s :
  bind (bind m f) g s = bind m (fun x => bind (f x) g) s.
Proof. unfold bind. destruct (m s) as [s' [a|e]]; reflexivity. Qed.

Lemma modify_run (f : St -> St) s : modify f s = (f s, Ok tt).
Proof. reflexivity. Qed.

Lemma lift_run {A} (x : outcome A) (s : St) : lift x s = (s, x).
Proof. reflexivity. Qed.

Lemma ret_run {A} (a : A) (s : St) : ret a s = (s, Ok a).
Proof. reflexivity. Qed.

End MonadFacts.

Create Rewrite HintDb py.
#[local] Hint Rewrite @for_each_nil @for_each_cons @bind_ret @bind_lift_Ok
  @bind_lift_Raise @bind_modify @bind_gets @bind_assoc @modify_run @lift_run
  @ret_run : py.

(** ** Temperature windows *)

Section WindowFacts.
Context {T : Type}.
Implicit Types (w : gmap Z (list T)) (entries : list (Z * T)).

Lemma sorted_keys_elem w idx : idx ∈ sorted_keys w <-> is_Some (w !! idx).
Proof.
  unfold sorted_keys. rewrite merge_sort_Permutation, list_elem_of_fmap.
  split.
  - intros ([j v] & -> & Hin). apply elem_of_map_to_list in Hin. by exists v.
  - intros [v Hv]. exists (idx, v). split; [done|].
    by apply elem_of_map_to_list.
Qed.

Lemma strictly_ascending (l : list Z) :
  StronglySorted Z.le l -> NoDup l -> StronglySorted Z.lt l.
Proof.
  induction 1 as [|x l Hs IH Hall]; intros Hnd; [constructor|].
  apply NoDup_cons in Hnd as [Hx Hnd].
  constructor; [by apply IH|].
  rewrite Forall_forall in Hall |- *. intros y Hy.
  specialize (Hall y Hy). assert (x <> y) by (intros ->; done). lia.
Qed.

Lemma sorted_keys_ascending w : StronglySorted Z.lt (sorted_keys w).
Proof.
  apply strictly_ascending.
  - apply (StronglySorted_merge_sort Z.le).
  - unfold sorted_keys. rewrite merge_sort_Permutation.
    apply NoDup_fst_map_to_list.
Qed.

Lemma window_append_lookup idx x w j :
  default [] (window_append idx x w !! j)
  = default [] (w !! j) ++ (if decide (idx = j) then [x] else []).
Proof.
  unfold window_append. destruct (decide (idx = j)) as [->|Hne].
  - by rewrite lookup_insert_eq.
  - rewrite lookup_insert_ne by done. by rewrite (right_id_L [] (++)).
Qed.

Lemma fill_lookup entries : forall w j,
  default [] (fill entries w !! j)
  = default [] (w !! j) ++ (filter (fun e => e.1 = j) entries).*2.
Proof.
  induction entries as [|[idx x] entries IH]; intros w j; simpl.
  - by rewrite (right_id_L [] (++)).
  - unfold fill in IH |- *. simpl. rewrite IH, window_append_lookup.
    rewrite filter_cons. simpl.
    destruct (decide (idx = j)); simpl; [|by rewrite (right_id_L [] (++))].
    by rewrite <- (assoc_L (++)).
Qed.

Lemma fill_nonempty entries : forall w,
  (forall j v, w !! j = Some v -> v <> []) ->
  forall j v, fill entries w !! j = Some v -> v <> [].
Proof.
  induction entries as [|[idx x] entries IH]; intros w Hw; [exact Hw|].
  apply IH. intros j v. unfold window_append. simpl.
  destruct (decide (idx = j)) as [->|Hne].
  - rewrite lookup_insert_eq. intros [= <-]. by destruct (default [] (w !! j)).
  - rewrite lookup_insert_ne by done. apply Hw.
Qed.

Lemma fill_empty_lookup entries j :
  fill entries ∅ !! j
  = match (filter (fun e => e.1 = j) entries).*2 with
    | [] => None
    | v => Some v
    end.
Proof.
  pose proof (fill_lookup entries ∅ j) as Hl.
  pose proof (fill_nonempty entries ∅ ltac:(by intros ???; simplify_map_eq)
                j) as Hn.
  rewrite lookup_empty in Hl. simpl in Hl. rewrite <- Hl.
  destruct (fill entries ∅ !! j) as [v|]; simpl; [|done].
  specialize (Hn v eq_refl). by destruct v.
Qed.

(** The averaging loop visits the keys in order and appends one point for
    each key whose window is not empty. *)
Lemma average_loop (point : Z -> list T -> outcome (float * float)) w keys :
  forall acc acc',
  Forall (fun idx => default [] (w !! idx) <> []) keys ->
  for_each keys (fun idx =>
      match default [] (w !! idx) with
      | [] => ret tt
      | _ =>
          (p <-- lift (point idx (default [] (w !! idx)));
           modify (fun acc : list float * list float =>
                     (acc.1 ++ [p.1], acc.2 ++ [p.2])))%py
      end) acc = (acc', Ok tt) ->
  exists points,
    Forall2 (fun idx p => point idx (default [] (w !! idx)) = Ok p) keys points
    /\ acc' = (acc.1 ++ points.*1, acc.2 ++ points.*2).
Proof.
  induction keys as [|idx keys IH]; intros acc acc' Hne Hloop.
  - injection Hloop as <-. exists []. split; [constructor|].
    destruct acc; simpl. by rewrite !(right_id_L [] (++)).
  - apply Forall_cons in Hne as [Hidx Hne].
    rewrite for_each_cons in Hloop. cbn beta in Hloop.
    destruct (default [] (w !! idx)) as [|x values] eqn:Hv; [done|].
    rewrite bind_assoc in Hloop.
    destruct (point idx (x :: values)) as [p|e] eqn:Hp;
      autorewrite with py in Hloop; [|discriminate].
    destruct (IH _ _ Hne Hloop) as (points & Hall & ->).
    exists (p :: points). split; [constructor; [by rewrite Hv|done]|].
    simpl. by rewrite <- !(assoc_L (++)).
Qed.

Lemma average_windows_spec (point : Z -> list T -> outcome (float * float))
    w report :
  (forall j v, w !! j = Some v -> v <> []) ->
  average_windows point w = Ok report ->
  exists points,
    Forall2 (fun idx p => point idx (default [] (w !! idx)) = Ok p)
      (sorted_keys w) points
    /\ report = (points.*1, points.*2).
Proof.
  intros Hw. unfold average_windows.
  destruct (for_each _ _ _) as [acc [[]|e]] eqn:Hloop; [|done].
  intros [= <-].
  eapply average_loop in Hloop as (points & Hall & ->); [by exists points|].
  apply Forall_forall. intros idx Hin.
  apply sorted_keys_elem in Hin as [v Hv]. rewrite Hv. simpl. eauto.
Qed.

(** The entries the loops store, read as stamped readings. *)
Lemma bucket_entries {R} (time : R -> float) (temp : R -> T) recs j :
  Forall (fun r => is_Some (float_floor (time r * 10)%float)) recs ->
  (filter (fun e : Z * T => e.1 = j)
     (map (fun r => (window_of (time r), temp r)) recs)).*2
  = bucket j (map (fun r => (time r, temp r)) recs).
Proof.
  unfold bucket. induction 1 as [|r recs [i Hi] _ IH]; [done|].
  assert (window_of (time r) = i) as Hw by (unfold window_of; by rewrite Hi).
  simpl. rewrite !filter_cons. simpl.
  destruct (decide (window_of (time r) = j)) as [Hd|Hd],
    (decide (float_floor (time r * 10)%float = Some j)) as [He|He];
    simpl; [f_equal; exact IH | exfalso; congruence.. | exact IH].
Qed.

Lemma windows_of_samples {R} (time : R -> float) (temp : R -> T) recs idx :
  Forall (fun r => is_Some (float_floor (time r * 10)%float)) recs ->
  fill (map (fun r => (window_of (time r), temp r)) recs) ∅ !! idx
  = match bucket idx (map (fun r => (time r, temp r)) recs) with
    | [] => None
    | v => Some v
    end.
Proof. intros Hall. by rewrite fill_empty_lookup, bucket_entries. Qed.

Lemma window_center_Ok idx c :
  window_center idx = Ok c -> c = (Z2F idx * 0.1 + 0.05)%float.
Proof.
  unfold window_center.
  destruct (int_mul_float idx 0.1) as [x|e] eqn:Hx; simpl; [|done].
  apply int_mul_float_Ok in Hx. congruence.
Qed.

(** From the windows to the report of the averaging loop. *)
Lemma aggregated_intro (average : list T -> float)
    (point : Z -> list T -> outcome (float * float)) w samples report :
  (forall idx values p,
      point idx values = Ok p ->
      p.1 = (Z2F idx * 0.1 + 0.05)%float /\ p.2 = average values) ->
  (forall idx, w !! idx = match bucket idx samples with
                          | [] => None
                          | v => Some v
                          end) ->
  average_windows point w = Ok report ->
  aggregated average samples report.
Proof.
  intros Hpoint Hw Havg.
  apply average_windows_spec in Havg as (points & Hall & ->).
  2:{ intros j v. rewrite Hw. by destruct (bucket j samples); intros [= <-]. }
  exists (sorted_keys w). split; [apply sorted_keys_ascending|].
  split.
  { intros idx. rewrite sorted_keys_elem, Hw.
    unfold is_Some. destruct (bucket idx samples); split;
      [by intros [? [=]] | intros Hne; by destruct Hne | done | by eauto]. }
  assert (Forall2 (fun idx p =>
            p.1 = (Z2F idx * 0.1 + 0.05)%float
            /\ p.2 = average (bucket idx samples)) (sorted_keys w) points)
    as Hall'.
  { eapply Forall2_impl; [exact Hall|]. intros idx p Hp.
    apply Hpoint in Hp. rewrite Hw in Hp.
    by destruct (bucket idx samples) eqn:Hb. }
  clear Hall. simpl. induction Hall' as [|idx p keys points [Hc Hm] _ [IH1 IH2]].
  - done.
  - split; simpl; f_equal; done.
Qed.

End WindowFacts.

(** ** Conversions and loops *)

Section OutcomeFacts.

Lemma map_outcome_length {A B} (f : A -> outcome B) xs : forall ys,
  map_outcome f xs = Ok ys -> length ys = length xs.
Proof.
  induction xs as [|x xs IH]; intros ys; simpl; [by intros [= <-]|].
  destruct (f x) as [y|e]; simpl; [|done].
  destruct (map_outcome f xs) as [ys'|e]; simpl; [|done].
  intros [= <-]. simpl. by rewrite (IH ys').
Qed.

Lemma map_outcome_error {A B} (f : A -> outcome B) (P : exn -> Prop) xs e :
  (forall x e, f x = Raise e -> P e) -> map_outcome f xs = Raise e -> P e.
Proof.
  intros Hf. induction xs as [|x xs IH]; simpl; [done|].
  destruct (f x) as [y|e'] eqn:Hx; simpl; [|intros [= <-]; eauto].
  destruct (map_outcome f xs) as [ys'|e']; simpl; [done|].
  intros [= <-]. by apply IH.
Qed.

Lemma int_mul_float_error n x e :
  int_mul_float n x = Raise e -> e = OverflowError.
Proof.
  unfold int_mul_float, float_of_int. cbv zeta.
  destruct (is_infinity (Z2F n)); simpl; intros [=]; congruence.
Qed.

Lemma bind_run_Ok {St A B} (m : M St A) (k : A -> M St B) s s1 a :
  m s = (s1, Ok a) -> bind m k s = k a s1.
Proof. unfold bind. by intros ->. Qed.

Lemma bind_run_Raise {St A B} (m : M St A) (k : A -> M St B) s s1 e :
  m s = (s1, Raise e) -> bind m k s = (s1, Raise e).
Proof. unfold bind. by intros ->. Qed.

End OutcomeFacts.

(** ** The 7-field batch processor *)

Section ImuDataProcessFacts.
Context `{PyRuntime}.
Import ImuDataProcess.

Lemma parse_line_length line parts :
  parse_line line = Ok parts -> length parts = 7%nat.
Proof.
  unfold parse_line.
  destruct (map_outcome _ _) as [ps|e]; simpl; [|done].
  destruct (Nat.eqb_spec (length ps) 7); congruence.
Qed.

Lemma parse_line_error line e : parse_line line = Raise e -> e = ValueError.
Proof.
  unfold parse_line.
  destruct (map_outcome _ _) as [ps|e'] eqn:Hm; simpl.
  - destruct (Nat.eqb (length ps) 7); congruence.
  - intros [= <-].
    eapply (map_outcome_error _ (fun e => e = ValueError)); [|exact Hm].
    intros p e. simpl. destruct (py_float p); simpl; congruence.
Qed.

Lemma try_block_spec calib n line parts s :
  complete calib -> 0 <= n -> parse_line line = Ok parts ->
  (exists s1, try_block calib n line s = (s1, Raise OverflowError))
  \/ (try_block calib n line s = (store calib (n, parts) s, Ok tt)
      /\ is_Some (float_floor (stamp_of n * 10)%float)).
Proof.
  intros (Ha & Hk & Hg) Hn Hp.
  pose proof (parse_line_length _ _ Hp) as Hlen.
  destruct parts as [|p0 [|p1 [|p2 [|p3 [|p4 [|p5 [|p6 [|? ?]]]]]]]];
    try discriminate.
  destruct calib as [ab ak gb]. simpl in Ha, Hk, Hg.
  destruct ab as [|b0 [|b1 [|b2 ab]]]; try (simpl in Ha; lia).
  destruct ak as [|k0 [|k1 [|k2 ak]]]; try (simpl in Hk; lia).
  destruct gb as [|c0 [|c1 [|c2 gb]]]; try (simpl in Hg; lia).
  unfold try_block. rewrite Hp.
  cbn [for_each bind lift modify ret py_index of_option lookup list_lookup
       Nat.add accel_bias accel_scale gyro_bias].
  destruct (int_mul_float n 0.005) as [t|e] eqn:Ht.
  - pose proof (int_mul_float_Ok _ _ _ Ht) as Ht'.
    destruct (window_index_spec n t Hn Ht) as [Hov|(idx & Hi & Hf & _)].
    + left. rewrite Hov. eexists. reflexivity.
    + right. rewrite Hi. unfold store, window_of, stamp_of. cbn [fst snd].
      rewrite <- Ht', Hf. split; [reflexivity|eauto].
  - left. rewrite (int_mul_float_error _ _ _ Ht). eexists. reflexivity.
Qed.

Lemma read_line_spec calib n line s s' :
  complete calib -> 0 <= n ->
  read_line calib (n, line) s = (s', Ok tt) ->
  match parse_line line with
  | Ok parts =>
      s' = store calib (n, parts) s
      /\ is_Some (float_floor (stamp_of n * 10)%float)
  | Raise _ => s' = s
  end.
Proof.
  intros Hc Hn. unfold read_line, try_except. cbn [fst snd].
  destruct (parse_line line) as [parts|e] eqn:Hp.
  - destruct (try_block_spec calib n line parts s Hc Hn Hp)
      as [[s1 ->]|[-> Hf]]; [done|].
    by intros [= <-].
  - unfold try_block. rewrite Hp, bind_lift_Raise.
    rewrite (parse_line_error _ _ Hp). by intros [= <-].
Qed.

Lemma records_cons start line lines :
  records start (line :: lines)
  = match parse_line line with
    | Ok parts => (start, parts) :: records (start + 1) lines
    | Raise _ => records (start + 1) lines
    end.
Proof. unfold records. simpl. by destruct (parse_line line). Qed.

Lemma read_lines_spec calib : complete calib -> forall lines start s s',
  0 <= start ->
  for_each (enumerate start lines) (read_line calib) s = (s', Ok tt) ->
  s' = foldl (fun s rec => store calib rec s) s (records start lines)
  /\ Forall (fun rec : Z * list float =>
               is_Some (float_floor (stamp_of rec.1 * 10)%float))
       (records start lines).
Proof.
  intros Hc lines. induction lines as [|line lines IH]; intros start s s' Hs.
  - simpl. by intros [= <-].
  - cbn [enumerate]. rewrite for_each_cons, records_cons.
    destruct (read_line calib (start, line) s) as [s1 [[]|e]] eqn:Hl.
    + rewrite (bind_run_Ok _ _ _ _ _ Hl). intros Hrest.
      apply IH in Hrest as [-> Hall]; [|lia].
      apply read_line_spec in Hl; [|done..].
      destruct (parse_line line) as [parts|e].
      * destruct Hl as [-> Hf]. split; [done|by constructor].
      * by subst s1.
    + by rewrite (bind_run_Raise _ _ _ _ _ Hl).
Qed.

End ImuDataProcessFacts.

Section ImuDataProcessRun.
Context `{PyRuntime}.
Import ImuDataProcess.
Implicit Types (recs : list (Z * list float)) (s : state).

Lemma run_time_stamps calib recs : forall s,
  time_stamps (foldl (fun s rec => store calib rec s) s recs)
  = time_stamps s ++ map (fun rec => stamp_of rec.1) recs.
Proof.
  induction recs as [|rec recs IH]; intros s; simpl.
  - by rewrite (right_id_L [] (++)).
  - rewrite IH. simpl. by rewrite <- (assoc_L (++)).
Qed.

Lemma run_temperature calib recs : forall s,
  temperature (foldl (fun s rec => store calib rec s) s recs)
  = temperature s ++ map (fun rec => nth 6 rec.2 0%float) recs.
Proof.
  induction recs as [|rec recs IH]; intros s; simpl.
  - by rewrite (right_id_L [] (++)).
  - rewrite IH. simpl. by rewrite <- (assoc_L (++)).
Qed.

Lemma run_temp_windows calib recs : forall s,
  temp_windows (foldl (fun s rec => store calib rec s) s recs)
  = fill (map (fun rec => (window_of (stamp_of rec.1), nth 6 rec.2 0%float))
            recs) (temp_windows s).
Proof.
  induction recs as [|rec recs IH]; intros s; simpl; [done|].
  by rewrite IH.
Qed.

Lemma run_accel calib recs : forall s c0 c1 c2,
  accel s = [c0; c1; c2] ->
  accel (foldl (fun s rec => store calib rec s) s recs)
  = map (fun i =>
           nth i [c0; c1; c2] []
           ++ map (fun rec =>
                     ((nth i rec.2 0 - nth i (accel_bias calib) 0)
                      * nth i (accel_scale calib) 0)%float) recs)
      [0; 1; 2]%nat.
Proof.
  induction recs as [|rec recs IH]; intros s c0 c1 c2 Hs; simpl.
  - by rewrite !(right_id_L [] (++)).
  - erewrite IH; [|simpl; rewrite Hs; reflexivity].
    simpl. by rewrite <- !(assoc_L (++)).
Qed.

Lemma run_gyro calib recs : forall s c0 c1 c2,
  gyro s = [c0; c1; c2] ->
  gyro (foldl (fun s rec => store calib rec s) s recs)
  = map (fun i =>
           nth i [c0; c1; c2] []
           ++ map (fun rec =>
                     (nth (i + 3) rec.2 0 - nth i (gyro_bias calib) 0)%float)
                recs)
      [0; 1; 2]%nat.
Proof.
  induction recs as [|rec recs IH]; intros s c0 c1 c2 Hs; simpl.
  - by rewrite !(right_id_L [] (++)).
  - erewrite IH; [|simpl; rewrite Hs; reflexivity].
    simpl. by rewrite <- !(assoc_L (++)).
Qed.

(** What [mean] returns is the average of the specification. *)
Lemma mean_average values a : mean values = Ok a -> a = float_average values.
Proof.
  unfold mean, py_sum, div_by_len, float_average, float_of_int.
  destruct values as [|v values]; [done|].
  destruct (Z.of_nat (length (v :: values)) =? 0); [done|].
  destruct (is_infinity _); simpl; [done|]. by intros [= <-].
Qed.

Lemma point_spec idx values p :
  point idx values = Ok p ->
  p.1 = (Z2F idx * 0.1 + 0.05)%float /\ p.2 = float_average values.
Proof.
  unfold point. destruct (window_center idx) as [c|e] eqn:Hc; simpl; [|done].
  destruct (mean values) as [a|e] eqn:Ha; simpl; [|done].
  intros [= <-]. split; [by apply window_center_Ok|by apply mean_average].
Qed.

(** What a run that returns has computed. *)
Lemma process_returns calib lines r :
  complete calib ->
  process_imu_data calib lines = Ok r ->
  let s := foldl (fun s rec => store calib rec s) initial (records 0 lines) in
  read_lines calib lines initial = (s, Ok tt)
  /\ Forall (fun rec : Z * list float =>
               is_Some (float_floor (stamp_of rec.1 * 10)%float))
       (records 0 lines)
  /\ average_windows point (temp_windows s) = Ok (r_temp_avg r)
  /\ r_temp_raw r = (time_stamps s, temperature s)
  /\ r_accel_raw r = (time_stamps s, accel s)
  /\ r_gyro_raw r = (time_stamps s, gyro s).
Proof.
  intros Hc. unfold process_imu_data, finish, read_lines.
  destruct (for_each _ _ initial) as [s [[]|e]] eqn:Hl; [|done].
  apply (read_lines_spec calib Hc) in Hl as [-> Hall]; [|done].
  destruct (average_windows _ _) as [avg|e]; simpl; [|done].
  destruct (calc_stats _ "g") as [a|e]; simpl; [|done].
  destruct (calc_stats _ "dps") as [g|e]; simpl; [|done].
  by intros [= <-].
Qed.

End ImuDataProcessRun.

(** ** The 14-field batch processor *)

Section ProcessImuFacts.
Context `{PyRuntime}.
Import ProcessImu.
Implicit Types (recs : list (Z * fields)) (s : state).

(** Splits the next conversion of a row; a failed one ends the case. *)
Ltac next_field :=
  match goal with
  | |- context [py_float ?p] =>
      destruct (py_float p); cbn [of_option obind map_outcome];
      [|try (intros [=]; subst; done); try done]
  | |- context [py_int ?p] =>
      destruct (py_int p); cbn [of_option obind map_outcome];
      [|try (intros [=]; subst; done); try done]
  end.

Lemma fourteen (parts : list str) :
  length parts = 14%nat ->
  exists p0 p1 p2 p3 p4 p5 p6 p7 p8 p9 p10 p11 p12 p13,
    parts = [p0; p1; p2; p3; p4; p5; p6; p7; p8; p9; p10; p11; p12; p13].
Proof.
  intros Hl.
  do 14 (destruct parts as [|? parts]; [discriminate|]).
  destruct parts; [|discriminate]. eauto 20.
Qed.

Lemma parse_row_shape parts f :
  length parts = 14%nat -> parse_row parts = Ok f ->
  length (accel_raw f) = 3%nat /\ length (gyro_raw f) = 3%nat
  /\ length (accel_filt_raw f) = 3%nat /\ length (gyro_filt_raw f) = 3%nat.
Proof.
  intros Hl.
  destruct (fourteen parts Hl)
    as (p0&p1&p2&p3&p4&p5&p6&p7&p8&p9&p10&p11&p12&p13&->).
  unfold parse_row, floats, int_field, py_index, slice.
  cbn [take drop Nat.sub map_outcome lookup list_lookup of_option obind].
  repeat next_field; try done.
  by intros [= <-].
Qed.

Lemma parse_row_error parts e :
  length parts = 14%nat -> parse_row parts = Raise e -> e = ValueError.
Proof.
  intros Hl.
  destruct (fourteen parts Hl)
    as (p0&p1&p2&p3&p4&p5&p6&p7&p8&p9&p10&p11&p12&p13&->).
  unfold parse_row, floats, int_field, py_index, slice.
  cbn [take drop Nat.sub map_outcome lookup list_lookup of_option obind].
  repeat next_field; try done; by intros [= <-].
Qed.

Lemma try_block_spec14 calib parts f s :
  complete calib -> length parts = 14%nat -> parse_row parts = Ok f ->
  0 <= valid_line_count s ->
  (exists s1, try_block calib parts s = (s1, Raise OverflowError))
  \/ (try_block calib parts s = (store calib (valid_line_count s, f) s, Ok tt)
      /\ is_Some (float_floor (stamp_of (valid_line_count s) * 10)%float)).
Proof.
  intros (Ha & Hk & Hg) Hl Hp Hn.
  destruct (parse_row_shape _ _ Hl Hp) as (Hfa & Hfg & Hfaf & Hfgf).
  destruct f as [fa fg ft faf fgf ftf]. simpl in Hfa, Hfg, Hfaf, Hfgf.
  destruct fa as [|a0 [|a1 [|a2 [|? ?]]]]; try discriminate.
  destruct fg as [|g0 [|g1 [|g2 [|? ?]]]]; try discriminate.
  destruct faf as [|af0 [|af1 [|af2 [|? ?]]]]; try discriminate.
  destruct fgf as [|gf0 [|gf1 [|gf2 [|? ?]]]]; try discriminate.
  destruct calib as [ab ak gb]. simpl in Ha, Hk, Hg.
  destruct ab as [|b0 [|b1 [|b2 ab]]]; try (simpl in Ha; lia).
  destruct ak as [|k0 [|k1 [|k2 ak]]]; try (simpl in Hk; lia).
  destruct gb as [|c0 [|c1 [|c2 gb]]]; try (simpl in Hg; lia).
  unfold try_block. rewrite Hp.
  unfold calibrate_accel, calibrate_gyro.
  cbn [for_each bind lift modify gets ret py_index of_option obind map_outcome
       lookup list_lookup accel_bias accel_scale gyro_bias accel_raw gyro_raw
       accel_filt_raw gyro_filt_raw temp temp_filt_raw].
  destruct (int_mul_float (valid_line_count s) 0.005) as [t|e] eqn:Ht.
  - pose proof (int_mul_float_Ok _ _ _ Ht) as Ht'.
    destruct (window_index_spec _ t Hn Ht) as [Hov|(idx & Hi & Hf & _)].
    + left. rewrite Hov. eexists. reflexivity.
    + right. rewrite Hi. unfold store, window_of, stamp_of. cbn [fst snd].
      rewrite <- Ht', Hf. split; [reflexivity|eauto].
  - left. rewrite (int_mul_float_error _ _ _ Ht). eexists. reflexivity.
Qed.

Lemma read_row_spec calib parts s s' :
  complete calib -> 0 <= valid_line_count s ->
  read_row calib parts s = (s', Ok tt) ->
  match accept parts with
  | Some f =>
      s' = store calib (valid_line_count s, f) s
      /\ is_Some (float_floor (stamp_of (valid_line_count s) * 10)%float)
  | None => s' = s
  end.
Proof.
  intros Hc Hn. unfold read_row, accept.
  destruct (Nat.eqb_spec (length parts) 14) as [Hl|Hl]; [|by intros [= <-]].
  unfold try_except.
  destruct (parse_row parts) as [f|e] eqn:Hp.
  - destruct (try_block_spec14 calib parts f s Hc Hl Hp Hn)
      as [[s1 ->]|[-> Hf]]; [done|].
    by intros [= <-].
  - unfold try_block. rewrite Hp, bind_lift_Raise.
    rewrite (parse_row_error _ _ Hl Hp). by intros [= <-].
Qed.

Lemma read_rows_spec calib : complete calib -> forall rows s s',
  0 <= valid_line_count s ->
  for_each rows (read_row calib) s = (s', Ok tt) ->
  s' = foldl (fun s rec => store calib rec s) s
         (records (valid_line_count s) rows)
  /\ Forall (fun rec : Z * fields =>
               is_Some (float_floor (stamp_of rec.1 * 10)%float))
       (records (valid_line_count s) rows).
Proof.
  intros Hc rows. induction rows as [|parts rows IH]; intros s s' Hs.
  - simpl. by intros [= <-].
  - rewrite for_each_cons. unfold records. cbn [omap list_omap].
    destruct (read_row calib parts s) as [s1 [[]|e]] eqn:Hl.
    + rewrite (bind_run_Ok _ _ _ _ _ Hl). intros Hrest.
      apply read_row_spec in Hl; [|done..].
      destruct (accept parts) as [f|].
      * destruct Hl as [-> Hf].
        apply IH in Hrest as [-> Hall]; [|simpl; lia].
        split; [done|by constructor].
      * subst s1. by apply IH.
    + by rewrite (bind_run_Raise _ _ _ _ _ Hl).
Qed.

Lemma run_time_stamps14 calib recs : forall s,
  time_stamps (foldl (fun s rec => store calib rec s) s recs)
  = time_stamps s ++ map (fun rec => stamp_of rec.1) recs.
Proof.
  induction recs as [|rec recs IH]; intros s; simpl.
  - by rewrite (right_id_L [] (++)).
  - rewrite IH. simpl. by rewrite <- (assoc_L (++)).
Qed.

Lemma run_temperature14 calib recs : forall s,
  temperature (foldl (fun s rec => store calib rec s) s recs)
  = temperature s ++ map (fun rec => temp rec.2) recs.
Proof.
  induction recs as [|rec recs IH]; intros s; simpl.
  - by rewrite (right_id_L [] (++)).
  - rewrite IH. simpl. by rewrite <- (assoc_L (++)).
Qed.

Lemma run_temp_filt14 calib recs : forall s,
  temp_filt (foldl (fun s rec => store calib rec s) s recs)
  = temp_filt s ++ map (fun rec => temp_filt_raw rec.2) recs.
Proof.
  induction recs as [|rec recs IH]; intros s; simpl.
  - by rewrite (right_id_L [] (++)).
  - rewrite IH. simpl. by rewrite <- (assoc_L (++)).
Qed.

Lemma run_temp_windows14 calib recs : forall s,
  temp_windows (foldl (fun s rec => store calib rec s) s recs)
  = fill (map (fun rec => (window_of (stamp_of rec.1), temp rec.2)) recs)
      (temp_windows s).
Proof.
  induction recs as [|rec recs IH]; intros s; simpl; [done|].
  by rewrite IH.
Qed.

(** One channel list of the store after the run, for any of the four
    per-axis lists: [get] reads the list, [value i] is what the loop
    appends to channel [i]. *)
Lemma run_channels14 calib (get : state -> list (list float))
    (value : nat -> Z * fields -> float) recs :
  (forall rec s c0 c1 c2,
      get s = [c0; c1; c2] ->
      get (store calib rec s)
      = [c0 ++ [value 0%nat rec]; c1 ++ [value 1%nat rec];
         c2 ++ [value 2%nat rec]]) ->
  forall s c0 c1 c2,
  get s = [c0; c1; c2] ->
  get (foldl (fun s rec => store calib rec s) s recs)
  = map (fun i => nth i [c0; c1; c2] [] ++ map (value i) recs) [0; 1; 2]%nat.
Proof.
  intros Hget. induction recs as [|rec recs IH]; intros s c0 c1 c2 Hs; simpl.
  - by rewrite !(right_id_L [] (++)).
  - erewrite IH; [|by apply Hget].
    simpl. by rewrite <- !(assoc_L (++)).
Qed.

Lemma sum_int_fold values : forall a,
  foldl Z.add a values = a + fold_right Z.add 0 values.
Proof.
  induction values as [|v values IH]; intros a; simpl; [lia|].
  rewrite IH. lia.
Qed.

(** What [mean] returns is the average of the specification. *)
Lemma mean_average14 values a : mean values = Ok a -> a = int_average values.
Proof.
  unfold mean, int_truediv, int_average, sum_int.
  rewrite sum_int_fold, Z.add_0_l.
  destruct (Z.of_nat (length values) =? 0); [done|].
  destruct (is_infinity _); [done|]. by intros [= <-].
Qed.

Lemma point_spec14 idx values p :
  point idx values = Ok p ->
  p.1 = (Z2F idx * 0.1 + 0.05)%float /\ p.2 = int_average values.
Proof.
  unfold point. destruct (window_center idx) as [c|e] eqn:Hc; simpl; [|done].
  destruct (mean values) as [a|e] eqn:Ha; simpl; [|done].
  intros [= <-]. split; [by apply window_center_Ok|by apply mean_average14].
Qed.

(** What a run that returns has computed. *)
Lemma process_returns14 calib rows r :
  complete calib ->
  process_imu_data calib rows = Ok r ->
  let s := foldl (fun s rec => store calib rec s) initial
             (records 0 (tail rows)) in
  Forall (fun rec : Z * fields =>
            is_Some (float_floor (stamp_of rec.1 * 10)%float))
    (records 0 (tail rows))
  /\ average_windows point (temp_windows s) = Ok (r_temp_avg r)
  /\ r_temp_raw r = (time_stamps s, temperature s)
  /\ r_accel_raw r = (time_stamps s, accel s)
  /\ r_gyro_raw r = (time_stamps s, gyro s)
  /\ r_accel_filt r = (time_stamps s, accel_filt s)
  /\ r_gyro_filt r = (time_stamps s, gyro_filt s)
  /\ r_temp_filt r = (time_stamps s, temp_filt s).
Proof.
  intros Hc. unfold process_imu_data, finish.
  destruct rows as [|header rows]; [done|]. cbn [tail].
  destruct (for_each _ _ initial) as [s [[]|e]] eqn:Hl; [|done].
  apply (read_rows_spec calib Hc) in Hl as [-> Hall]; [|done].
  change (valid_line_count initial) with 0 in *.
  destruct (average_windows _ _) as [avg|e]; simpl; [|done].
  destruct (calc_stats _ "g") as [a|e]; simpl; [|done].
  destruct (calc_stats _ "dps") as [g|e]; simpl; [|done].
  by intros [= <-].
Qed.

End ProcessImuFacts.

(** ** Calibration, time stamps and windows of the batch processors *)

Lemma complete_example : complete Samples.example_calibration.
Proof. repeat split; simpl; lia. Qed.

Lemma enumerate_fst {A} (xs : list A) : forall start,
  map fst (enumerate start xs)
  = map (fun k => start + Z.of_nat k) (seq 0 (length xs)).
Proof.
  induction xs as [|x xs IH]; intros start; [done|].
  cbn [enumerate map length seq fst]. rewrite IH, <- seq_shift, map_map.
  f_equal; [lia|]. apply map_ext. intros k. lia.
Qed.

(** X5. In [process_imu.py] the time stamps count the valid rows: the n-th
    valid row (from 0) is stamped [n * 0.005], and a row the loop rejects
    changes no time stamp. *)
Lemma valid_rows_are_counted `{PyRuntime} calib rows r :
  complete calib ->
  ProcessImu.process_imu_data calib rows = Ok r ->
  (ProcessImu.r_temp_raw r).1
  = map (fun n => stamp_of (Z.of_nat n))
      (seq 0 (length (omap ProcessImu.accept (tail rows)))).
Proof.
  intros Hc Hr.
  destruct (process_returns14 calib rows r Hc Hr) as (_ & _ & -> & _).
  simpl. rewrite run_time_stamps14. simpl. unfold ProcessImu.records.
  rewrite <- (map_map fst stamp_of), enumerate_fst, map_map.
  apply map_ext. intros n. f_equal.
Qed.

Lemma rejected_row_is_skipped `{PyRuntime} (before after : list (list str)) bad :
  ProcessImu.accept bad = None ->
  ProcessImu.records 0 (before ++ bad :: after)
  = ProcessImu.records 0 (before ++ after).
Proof.
  intros Hbad. unfold ProcessImu.records.
  rewrite !omap_app. cbn [omap list_omap]. by rewrite Hbad.
Qed.

(** C3. Every valid record is calibrated as stated: in both batch
    processors accelerometer channel [i] holds [(raw - accel_bias[i]) *
    accel_scale[i]] and gyroscope channel [i] holds [raw - gyro_bias[i]]
    (no scale factor) for the valid records in file order, and the
    temperature is stored as read; the 14-field processor stores the
    filtered fields unchanged.  With the calibration and the record of the
    example the output is accel (4,0,0), gyro (1,1,1), temp 25. *)
Theorem calibration_applied `{PyRuntime} (calib : calibration)
    (lines : list str) (rows : list (list str)) :
  complete calib ->
  (forall r, ImuDataProcess.process_imu_data calib lines = Ok r ->
     (ImuDataProcess.r_accel_raw r).2
     = map (fun i =>
              map (fun rec : Z * list float =>
                     ((nth i rec.2 0 - nth i (accel_bias calib) 0)
                      * nth i (accel_scale calib) 0)%float)
                (ImuDataProcess.records 0 lines)) [0; 1; 2]%nat
     /\ (ImuDataProcess.r_gyro_raw r).2
        = map (fun i =>
                 map (fun rec : Z * list float =>
                        (nth (i + 3) rec.2 0 - nth i (gyro_bias calib) 0)%float)
                   (ImuDataProcess.records 0 lines)) [0; 1; 2]%nat
     /\ (ImuDataProcess.r_temp_raw r).2
        = map (fun rec : Z * list float => nth 6 rec.2 0%float)
            (ImuDataProcess.records 0 lines))
  /\ (forall r, ProcessImu.process_imu_data calib rows = Ok r ->
        (ProcessImu.r_accel_raw r).2
        = map (fun i =>
                 map (fun rec : Z * ProcessImu.fields =>
                        ((nth i (ProcessImu.accel_raw rec.2) 0
                          - nth i (accel_bias calib) 0)
                         * nth i (accel_scale calib) 0)%float)
                   (ProcessImu.records 0 (tail rows))) [0; 1; 2]%nat
        /\ (ProcessImu.r_gyro_raw r).2
           = map (fun i =>
                    map (fun rec : Z * ProcessImu.fields =>
                           (nth i (ProcessImu.gyro_raw rec.2) 0
                            - nth i (gyro_bias calib) 0)%float)
                      (ProcessImu.records 0 (tail rows))) [0; 1; 2]%nat
        /\ (ProcessImu.r_temp_raw r).2
           = map (fun rec : Z * ProcessImu.fields => ProcessImu.temp rec.2)
               (ProcessImu.records 0 (tail rows))
        /\ (ProcessImu.r_accel_filt r).2
           = map (fun i =>
                    map (fun rec : Z * ProcessImu.fields =>
                           nth i (ProcessImu.accel_filt_raw rec.2) 0%float)
                      (ProcessImu.records 0 (tail rows))) [0; 1; 2]%nat
        /\ (ProcessImu.r_gyro_filt r).2
           = map (fun i =>
                    map (fun rec : Z * ProcessImu.fields =>
                           nth i (ProcessImu.gyro_filt_raw rec.2) 0%float)
                      (ProcessImu.records 0 (tail rows))) [0; 1; 2]%nat)
  /\ match ImuDataProcess.process_imu_data (H := Reference.runtime)
             Samples.example_calibration [Samples.example_line] with
     | Ok r =>
         (ImuDataProcess.r_accel_raw r).2 = [[4]; [0]; [0]]%float
         /\ (ImuDataProcess.r_gyro_raw r).2 = [[1]; [1]; [1]]%float
         /\ (ImuDataProcess.r_temp_raw r).2 = [25%float]
     | Raise _ => False
     end
  /\ match ProcessImu.process_imu_data (H := Reference.runtime)
             Samples.example_calibration
             [Samples.header_row; Samples.example_row] with
     | Ok r =>
         (ProcessImu.r_accel_raw r).2 = [[4]; [0]; [0]]%float
         /\ (ProcessImu.r_gyro_raw r).2 = [[1]; [1]; [1]]%float
         /\ (ProcessImu.r_temp_raw r).2 = [25]
     | Raise _ => False
     end.
Proof.
  intros Hc. split; [|split; [|split; vm_compute; by split_and!]].
  - intros r Hr.
    destruct (process_returns calib lines r Hc Hr)
      as (_ & _ & _ & -> & -> & ->).
    cbn [snd]. rewrite run_temperature.
    rewrite (run_accel calib _ _ [] [] []) by done.
    rewrite (run_gyro calib _ _ [] [] []) by done.
    done.
  - intros r Hr.
    destruct (process_returns14 calib rows r Hc Hr)
      as (_ & _ & -> & -> & -> & -> & -> & _).
    cbn [snd]. rewrite run_temperature14.
    rewrite (run_channels14 calib ProcessImu.accel
               (fun i rec => ((nth i (ProcessImu.accel_raw rec.2) 0
                               - nth i (accel_bias calib) 0)
                              * nth i (accel_scale calib) 0)%float)
               _ ltac:(intros ????? Hs; simpl; by rewrite Hs) _ [] [] []) by done.
    rewrite (run_channels14 calib ProcessImu.gyro
               (fun i rec => (nth i (ProcessImu.gyro_raw rec.2) 0
                              - nth i (gyro_bias calib) 0)%float)
               _ ltac:(intros ????? Hs; simpl; by rewrite Hs) _ [] [] []) by done.
    rewrite (run_channels14 calib ProcessImu.accel_filt
               (fun i rec => nth i (ProcessImu.accel_filt_raw rec.2) 0%float)
               _ ltac:(intros ????? Hs; simpl; by rewrite Hs) _ [] [] []) by done.
    rewrite (run_channels14 calib ProcessImu.gyro_filt
               (fun i rec => nth i (ProcessImu.gyro_filt_raw rec.2) 0%float)
               _ ltac:(intros ????? Hs; simpl; by rewrite Hs) _ [] [] []) by done.
    done.
Qed.

Lemma calibration_applied_witness :
  match ImuDataProcess.process_imu_data Samples.example_calibration
          [Samples.example_line] with
  | Ok r =>
      (ImuDataProcess.r_accel_raw r).2
      = map (fun i =>
               map (fun rec : Z * list float =>
                      ((nth i rec.2 0
                        - nth i (accel_bias Samples.example_calibration) 0)
                       * nth i (accel_scale Samples.example_calibration) 0)%float)
                 (ImuDataProcess.records 0 [Samples.example_line]))
          [0; 1; 2]%nat
  | Raise _ => False
  end.
Proof.
  pose proof (calibration_applied (H := Reference.runtime)
                Samples.example_calibration [Samples.example_line] []
                complete_example) as [Hseven _].
  destruct (ImuDataProcess.process_imu_data Samples.example_calibration
              [Samples.example_line]) as [r|e] eqn:Hr.
  - exact (proj1 (Hseven r eq_refl)).
  - vm_compute in Hr. discriminate Hr.
Defined.

(** C5. Every sample's temperature goes, in arrival order, to the window
    [floor(timestamp * 10)]: after the reading loop the window with index
    [idx] holds exactly the bucket of [idx].  The run then reports one point
    per non-empty window, windows in ascending order, each at the centre
    [idx*0.1 + 0.05] with the average of its bucket, the sum of the
    bucket's readings divided by their number; an index without a sample
    yields no point.  Readings 10, 12, 14 and 16 at the time stamps 0.00,
    0.04, 0.09 and 0.11 give the points (0.05, 12) and (0.15, 16); the
    integer readings 1, 1 and 2 of three consecutive rows give the point
    (0.05, 4/3). *)
Theorem temperature_windows `{PyRuntime} (calib : calibration)
    (lines : list str) (rows : list (list str)) :
  complete calib ->
  (forall s,
      ImuDataProcess.read_lines calib lines ImuDataProcess.initial = (s, Ok tt) ->
      forall idx,
        default [] (ImuDataProcess.temp_windows s !! idx)
        = bucket idx (ImuDataProcess.samples lines))
  /\ (forall r, ImuDataProcess.process_imu_data calib lines = Ok r ->
        Forall (fun smp : float * float =>
                  is_Some (float_floor (smp.1 * 10)%float))
          (ImuDataProcess.samples lines)
        /\ aggregated float_average (ImuDataProcess.samples lines)
             (ImuDataProcess.r_temp_avg r))
  /\ (forall s,
        for_each (tail rows) (ProcessImu.read_row calib) ProcessImu.initial
        = (s, Ok tt) ->
        forall idx,
          default [] (ProcessImu.temp_windows s !! idx)
          = bucket idx (ProcessImu.samples rows))
  /\ (forall r, ProcessImu.process_imu_data calib rows = Ok r ->
        Forall (fun smp : float * Z =>
                  is_Some (float_floor (smp.1 * 10)%float))
          (ProcessImu.samples rows)
        /\ aggregated int_average (ProcessImu.samples rows)
             (ProcessImu.r_temp_avg r))
  /\ match ImuDataProcess.process_imu_data (H := Reference.runtime)
             default_calibration Samples.window_lines with
     | Ok r =>
         ImuDataProcess.r_temp_avg r
         = ([0.05; 0.1 + 0.05]%float, [12; 16]%float)
     | Raise _ => False
     end
  /\ match ProcessImu.process_imu_data (H := Reference.runtime)
             default_calibration Samples.window_rows with
     | Ok r =>
         ProcessImu.r_temp_avg r = ([0.05]%float, [1.3333333333333333]%float)
     | Raise _ => False
     end.
Proof.
  intros Hc. split; [|split; [|split; [|split; [|by split; vm_compute]]]].
  - intros s Hl idx.
    apply (read_lines_spec calib Hc) in Hl as [-> Hall]; [|done].
    rewrite run_temp_windows. unfold ImuDataProcess.samples.
    change (ImuDataProcess.temp_windows ImuDataProcess.initial) with (∅ : gmap Z (list float)).
    rewrite (windows_of_samples (fun rec : Z * list float => stamp_of rec.1)
               (fun rec => nth 6 rec.2 0%float) _ idx Hall).
    by destruct (bucket idx _).
  - intros r Hr.
    destruct (process_returns calib lines r Hc Hr) as (_ & Hall & Havg & _).
    split.
    + unfold ImuDataProcess.samples. apply Forall_map. exact Hall.
    + eapply aggregated_intro; [apply point_spec| |exact Havg].
      intros idx. rewrite run_temp_windows.
      change (ImuDataProcess.temp_windows ImuDataProcess.initial) with (∅ : gmap Z (list float)).
      apply (windows_of_samples (fun rec : Z * list float => stamp_of rec.1)
               (fun rec => nth 6 rec.2 0%float) _ idx Hall).
  - intros s Hl idx.
    apply (read_rows_spec calib Hc) in Hl as [-> Hall]; [|done].
    rewrite run_temp_windows14. unfold ProcessImu.samples.
    change (ProcessImu.temp_windows ProcessImu.initial) with (∅ : gmap Z (list Z)).
    rewrite (windows_of_samples
               (fun rec : Z * ProcessImu.fields => stamp_of rec.1)
               (fun rec => ProcessImu.temp rec.2) _ idx Hall).
    by destruct (bucket idx _).
  - intros r Hr.
    destruct (process_returns14 calib rows r Hc Hr) as (Hall & Havg & _).
    split.
    + unfold ProcessImu.samples. apply Forall_map. exact Hall.
    + eapply aggregated_intro; [apply point_spec14| |exact Havg].
      intros idx. rewrite run_temp_windows14.
      change (ProcessImu.temp_windows ProcessImu.initial) with (∅ : gmap Z (list Z)).
      apply (windows_of_samples
               (fun rec : Z * ProcessImu.fields => stamp_of rec.1)
               (fun rec => ProcessImu.temp rec.2) _ idx Hall).
Qed.

Lemma temperature_windows_witness :
  match ImuDataProcess.process_imu_data Samples.example_calibration
          [Samples.example_line] with
  | Ok r =>
      aggregated float_average
        (ImuDataProcess.samples [Samples.example_line])
        (ImuDataProcess.r_temp_avg r)
  | Raise _ => False
  end.
Proof.
  pose proof (temperature_windows (H := Reference.runtime)
                Samples.example_calibration [Samples.example_line] []
                complete_example) as (_ & Hreport & _).
  destruct (ImuDataProcess.process_imu_data Samples.example_calibration
              [Samples.example_line]) as [r|e] eqn:Hr.
  - exact (proj2 (Hreport r eq_refl)).
  - vm_compute in Hr. discriminate Hr.
Defined.

(** The worked example of the windowed aggregation: readings 10, 12, 14 and
    16 at the time stamps 0.00, 0.04, 0.09 and 0.11 (lines 0, 8, 18 and 22 of
    a file whose other lines are invalid) give the windows 0 and 1 with the
    averages 12 and 16. *)
Example window_example :
  let gap n := replicate n (lit "-") in
  match ImuDataProcess.process_imu_data default_calibration
          ([lit "0,0,0,0,0,0,10"] ++ gap 7%nat ++ [lit "0,0,0,0,0,0,12"]
           ++ gap 9%nat ++ [lit "0,0,0,0,0,0,14"] ++ gap 3%nat
           ++ [lit "0,0,0,0,0,0,16"]) with
  | Ok r =>
      (ImuDataProcess.r_temp_raw r).1 = [0; 0.04; 0.09; 0.11]%float
      /\ ImuDataProcess.r_temp_avg r
         = ([0.05; 0.1 + 0.05]%float, [12; 16]%float)
  | Raise _ => False
  end.
Proof. vm_compute. split; reflexivity. Qed.

(** * Further properties of the scripts *)

(** ** The batch processors: rejected input *)

Section LoopFacts.
Context {St X : Type}.

Lemma for_each_app (xs ys : list X) (body : X -> M St unit) s :
  for_each (xs ++ ys) body s
  = bind (for_each xs body) (fun _ => for_each ys body) s.
Proof.
  revert s. induction xs as [|x xs IH]; intros s.
  - reflexivity.
  - change ((x :: xs) ++ ys) with (x :: (xs ++ ys)).
    cbn [for_each]. rewrite bind_assoc. unfold bind at 1 2.
    destruct (body x s) as [s1 [[]|e]]; [apply IH|reflexivity].
Qed.

(** Entries the body passes over leave a loop's outcome as it is. *)
Lemma for_each_skip (xs : list X) (body : X -> M St unit) s :
  Forall (fun x => forall s, body x s = (s, Ok tt)) xs ->
  for_each xs body s = (s, Ok tt).
Proof.
  induction 1 as [|x xs Hx _ IH]; [reflexivity|].
  rewrite for_each_cons. unfold bind. by rewrite Hx.
Qed.

End LoopFacts.

Section RejectedInput.
Context `{PyRuntime}.

Lemma read_row_rejected calib parts s :
  ProcessImu.accept parts = None ->
  ProcessImu.read_row calib parts s = (s, Ok tt).
Proof.
  unfold ProcessImu.accept, ProcessImu.read_row.
  destruct (Nat.eqb_spec (length parts) 14) as [Hl|Hl]; [|done].
  destruct (ProcessImu.parse_row parts) as [f|e] eqn:Hp; [done|]. intros _.
  unfold try_except, ProcessImu.try_block. rewrite Hp, bind_lift_Raise.
  by rewrite (parse_row_error _ _ Hl Hp).
Qed.

Lemma read_line_rejected calib n line e s :
  ImuDataProcess.parse_line line = Raise e ->
  ImuDataProcess.read_line calib (n, line) s = (s, Ok tt).
Proof.
  intros Hp. unfold ImuDataProcess.read_line, try_except,
    ImuDataProcess.try_block. cbn [fst snd].
  rewrite Hp, bind_lift_Raise. by rewrite (parse_line_error _ _ Hp).
Qed.

(** X1. A row that [process_imu.py] rejects (wrong column count or a field
    that does not convert) changes nothing: the function returns what it
    returns on the file without that row. *)
Theorem rejected_row_changes_nothing (calib : calibration)
    (header bad : list str) (before after : list (list str)) :
  ProcessImu.accept bad = None ->
  ProcessImu.process_imu_data calib (header :: before ++ bad :: after)
  = ProcessImu.process_imu_data calib (header :: before ++ after).
Proof.
  intros Hbad. unfold ProcessImu.process_imu_data. f_equal.
  rewrite !for_each_app. unfold bind.
  destruct (for_each before _ _) as [s1 [[]|e]]; [|done].
  rewrite for_each_cons. unfold bind.
  by rewrite (read_row_rejected calib bad s1 Hbad).
Qed.

(** X3. When no line of the input converts, [imu_data_process.py] keeps all
    its lists empty and ends in [ZeroDivisionError], whatever the
    calibration. *)
Theorem no_valid_line_raises (calib : calibration) (lines : list str) :
  Forall (fun line => exists e, ImuDataProcess.parse_line line = Raise e)
    lines ->
  ImuDataProcess.read_lines calib lines ImuDataProcess.initial
  = (ImuDataProcess.initial, Ok tt)
  /\ ImuDataProcess.process_imu_data calib lines = Raise ZeroDivisionError.
Proof.
  intros Hall.
  assert (ImuDataProcess.read_lines calib lines ImuDataProcess.initial
          = (ImuDataProcess.initial, Ok tt)) as Hrun.
  { unfold ImuDataProcess.read_lines. apply for_each_skip.
    generalize 0. induction Hall as [|line lines [e He] _ IH]; intros n.
    - constructor.
    - cbn [enumerate]. constructor; [|apply IH].
      intros s. by eapply read_line_rejected. }
  split; [exact Hrun|].
  unfold ImuDataProcess.process_imu_data. rewrite Hrun. unfold finish.
  cbn [ImuDataProcess.temp_windows ImuDataProcess.initial
       ImuDataProcess.accel].
  replace (average_windows ImuDataProcess.point ∅)
    with (Ok ([] : list float, [] : list float)) by (vm_compute; reflexivity).
  reflexivity.
Qed.

(** X2. When [process_imu.py] accepts no row after the header it still
    returns: empty series, no averaged window, and the zero statistics of
    the guard in [calc_stats]. *)
Theorem no_valid_row_returns (calib : calibration) (header : list str)
    (rows : list (list str)) :
  Forall (fun parts => ProcessImu.accept parts = None) rows ->
  ProcessImu.process_imu_data calib (header :: rows) = Ok no_rows_result.
Proof.
  intros Hall. unfold ProcessImu.process_imu_data.
  rewrite for_each_skip.
  - unfold finish.
    cbn [ProcessImu.temp_windows ProcessImu.initial ProcessImu.accel
         ProcessImu.gyro].
    replace (average_windows ProcessImu.point ∅)
      with (Ok ([] : list float, [] : list float)) by (vm_compute; reflexivity).
    reflexivity.
  - eapply Forall_impl; [exact Hall|].
    intros parts Hp s. by apply read_row_rejected.
Qed.

End RejectedInput.

Lemma rejected_row_changes_nothing_witness :
  ProcessImu.process_imu_data Samples.example_calibration
    (Samples.header_row :: [Samples.example_row] ++ [lit "x"] :: [Samples.example_row])
  = ProcessImu.process_imu_data Samples.example_calibration
      (Samples.header_row :: [Samples.example_row] ++ [Samples.example_row]).
Proof.
  apply (rejected_row_changes_nothing (H := Reference.runtime)).
  vm_compute. reflexivity.
Defined.

Lemma no_valid_line_raises_witness :
  ImuDataProcess.process_imu_data default_calibration
    [lit "Accel_X(g),Accel_Y(g)"; lit ""]
  = Raise ZeroDivisionError.
Proof.
  apply (no_valid_line_raises (H := Reference.runtime)).
  repeat constructor; exists ValueError; vm_compute; reflexivity.
Defined.

Lemma no_valid_row_returns_witness :
  ProcessImu.process_imu_data default_calibration
    [Samples.header_row; [lit "1"; lit "2"]; Samples.header_row]
  = Ok no_rows_result.
Proof.
  apply (no_valid_row_returns (H := Reference.runtime)).
  repeat constructor; vm_compute; reflexivity.
Defined.

(** ** The batch processors: what a run returns *)

Section ReturnedSeries.
Context `{PyRuntime}.

Lemma records_time_stamps start lines :
  map (fun rec : Z * list float => stamp_of rec.1)
    (ImuDataProcess.records start lines)
  = omap (fun e : Z * str =>
            match ImuDataProcess.parse_line e.2 with
            | Ok _ => Some (stamp_of e.1)
            | Raise _ => None
            end) (enumerate start lines).
Proof.
  revert start. induction lines as [|line lines IH]; intros start; [done|].
  rewrite records_cons. cbn [enumerate omap list_omap snd fst].
  destruct (ImuDataProcess.parse_line line); cbn [map fst]; by rewrite IH.
Qed.

(** X4. In [imu_data_process.py] a valid line is stamped with its own line
    number (counted from 0 over all lines, valid or not) times 0.005, and
    the temperature series has one entry per time stamp. *)
Theorem line_numbers_stamp (calib : calibration) (lines : list str)
    (r : ImuDataProcess.result) :
  complete calib ->
  ImuDataProcess.process_imu_data calib lines = Ok r ->
  (ImuDataProcess.r_temp_raw r).1
  = omap (fun e : Z * str =>
            match ImuDataProcess.parse_line e.2 with
            | Ok _ => Some (stamp_of e.1)
            | Raise _ => None
            end) (enumerate 0 lines).
Proof.
  intros Hc Hr.
  destruct (process_returns calib lines r Hc Hr) as (_ & _ & _ & -> & _).
  cbn [fst]. rewrite run_time_stamps. apply records_time_stamps.
Qed.

Lemma series_lengths7 calib lines r :
  complete calib ->
  ImuDataProcess.process_imu_data calib lines = Ok r ->
  let n := length (ImuDataProcess.r_temp_raw r).1 in
  length (ImuDataProcess.r_temp_raw r).2 = n
  /\ (ImuDataProcess.r_accel_raw r).1 = (ImuDataProcess.r_temp_raw r).1
  /\ (ImuDataProcess.r_gyro_raw r).1 = (ImuDataProcess.r_temp_raw r).1
  /\ map length (ImuDataProcess.r_accel_raw r).2 = [n; n; n]
  /\ map length (ImuDataProcess.r_gyro_raw r).2 = [n; n; n].
Proof.
  intros Hc Hr.
  destruct (process_returns calib lines r Hc Hr)
    as (_ & _ & _ & -> & -> & ->).
  cbn [fst snd]. rewrite run_time_stamps, run_temperature.
  rewrite (run_accel calib _ _ [] [] []) by done.
  rewrite (run_gyro calib _ _ [] [] []) by done.
  cbn [map nth app ImuDataProcess.time_stamps ImuDataProcess.temperature
       ImuDataProcess.initial].
  by rewrite !length_map.
Qed.

Lemma series_lengths14 calib rows r :
  complete calib ->
  ProcessImu.process_imu_data calib rows = Ok r ->
  let n := length (ProcessImu.r_temp_raw r).1 in
  length (ProcessImu.r_temp_raw r).2 = n
  /\ length (ProcessImu.r_temp_filt r).2 = n
  /\ map length (ProcessImu.r_accel_raw r).2 = [n; n; n]
  /\ map length (ProcessImu.r_gyro_raw r).2 = [n; n; n]
  /\ map length (ProcessImu.r_accel_filt r).2 = [n; n; n]
  /\ map length (ProcessImu.r_gyro_filt r).2 = [n; n; n].
Proof.
  intros Hc Hr.
  destruct (process_returns14 calib rows r Hc Hr)
    as (_ & _ & -> & -> & -> & -> & -> & ->).
  cbn [fst snd].
  rewrite run_time_stamps14, run_temperature14, run_temp_filt14.
  rewrite (run_channels14 calib ProcessImu.accel
             (fun i rec => ((nth i (ProcessImu.accel_raw rec.2) 0
                             - nth i (accel_bias calib) 0)
                            * nth i (accel_scale calib) 0)%float)
             _ ltac:(intros ????? Hs; simpl; by rewrite Hs) _ [] [] [])
    by done.
  rewrite (run_channels14 calib ProcessImu.gyro
             (fun i rec => (nth i (ProcessImu.gyro_raw rec.2) 0
                            - nth i (gyro_bias calib) 0)%float)
             _ ltac:(intros ????? Hs; simpl; by rewrite Hs) _ [] [] [])
    by done.
  rewrite (run_channels14 calib ProcessImu.accel_filt
             (fun i rec => nth i (ProcessImu.accel_filt_raw rec.2) 0%float)
             _ ltac:(intros ????? Hs; simpl; by rewrite Hs) _ [] [] [])
    by done.
  rewrite (run_channels14 calib ProcessImu.gyro_filt
             (fun i rec => nth i (ProcessImu.gyro_filt_raw rec.2) 0%float)
             _ ltac:(intros ????? Hs; simpl; by rewrite Hs) _ [] [] [])
    by done.
  cbn [map nth app ProcessImu.time_stamps ProcessImu.temperature
       ProcessImu.temp_filt ProcessImu.initial].
  by rewrite !length_map.
Qed.

(** X6. Every series a run returns is as long as the list of time stamps it
    is plotted against: three accelerometer and three gyroscope channels and
    the temperatures, in both processors, and the filtered series of the
    14-field one. *)
Theorem series_lengths_agree (calib : calibration) (lines : list str)
    (rows : list (list str)) :
  complete calib ->
  (forall r, ImuDataProcess.process_imu_data calib lines = Ok r ->
     let n := length (ImuDataProcess.r_temp_raw r).1 in
     length (ImuDataProcess.r_temp_raw r).2 = n
     /\ (ImuDataProcess.r_accel_raw r).1 = (ImuDataProcess.r_temp_raw r).1
     /\ (ImuDataProcess.r_gyro_raw r).1 = (ImuDataProcess.r_temp_raw r).1
     /\ map length (ImuDataProcess.r_accel_raw r).2 = [n; n; n]
     /\ map length (ImuDataProcess.r_gyro_raw r).2 = [n; n; n])
  /\ (forall r, ProcessImu.process_imu_data calib rows = Ok r ->
        let n := length (ProcessImu.r_temp_raw r).1 in
        length (ProcessImu.r_temp_raw r).2 = n
        /\ length (ProcessImu.r_temp_filt r).2 = n
        /\ map length (ProcessImu.r_accel_raw r).2 = [n; n; n]
        /\ map length (ProcessImu.r_gyro_raw r).2 = [n; n; n]
        /\ map length (ProcessImu.r_accel_filt r).2 = [n; n; n]
        /\ map length (ProcessImu.r_gyro_filt r).2 = [n; n; n]).
Proof.
  intros Hc. split; intros r Hr;
    [by apply (series_lengths7 calib lines)
    |by apply (series_lengths14 calib rows)].
Qed.

Lemma calc_stats_shape7 data unit st :
  ImuDataProcess.calc_stats data unit = Ok st ->
  unit_label st = unit
  /\ length (bias st) = length data /\ length (std st) = length data.
Proof.
  unfold ImuDataProcess.calc_stats.
  destruct (map_outcome ImuDataProcess.mean data) as [means|e] eqn:Hm;
    simpl; [|done].
  destruct (map_outcome _ (zip data means)) as [stds|e] eqn:Hs;
    simpl; [|done].
  intros [= <-]. simpl.
  apply map_outcome_length in Hm, Hs.
  rewrite length_zip in Hs. split; [done|]. lia.
Qed.

Lemma calc_stats_shape14 data unit st :
  length data = 3%nat ->
  ProcessImu.calc_stats data unit = Ok st ->
  unit_label st = unit
  /\ length (bias st) = 3%nat /\ length (std st) = 3%nat.
Proof.
  intros Hl Hst. unfold ProcessImu.calc_stats in Hst.
  destruct (forallb _ data).
  - apply calc_stats_shape7 in Hst. by rewrite Hl in Hst.
  - by injection Hst as <-.
Qed.

Lemma returned_stats7 calib lines r :
  ImuDataProcess.process_imu_data calib lines = Ok r ->
  ImuDataProcess.calc_stats (ImuDataProcess.r_accel_raw r).2 "g"
  = Ok (ImuDataProcess.r_accel r)
  /\ ImuDataProcess.calc_stats (ImuDataProcess.r_gyro_raw r).2 "dps"
     = Ok (ImuDataProcess.r_gyro r).
Proof.
  unfold ImuDataProcess.process_imu_data, finish.
  destruct (ImuDataProcess.read_lines _ _ _) as [s [[]|e]]; [|done].
  destruct (average_windows _ _) as [avg|e]; simpl; [|done].
  destruct (ImuDataProcess.calc_stats _ "g") as [a|e] eqn:Ha; simpl; [|done].
  destruct (ImuDataProcess.calc_stats _ "dps") as [g|e] eqn:Hg; simpl; [|done].
  by intros [= <-].
Qed.

Lemma returned_stats14 calib rows r :
  ProcessImu.process_imu_data calib rows = Ok r ->
  ProcessImu.calc_stats (ProcessImu.r_accel_raw r).2 "g"
  = Ok (ProcessImu.r_accel r)
  /\ ProcessImu.calc_stats (ProcessImu.r_gyro_raw r).2 "dps"
     = Ok (ProcessImu.r_gyro r).
Proof.
  unfold ProcessImu.process_imu_data, finish.
  destruct rows as [|header rows]; [done|].
  destruct (for_each _ _ _) as [s [[]|e]]; [|done].
  destruct (average_windows _ _) as [avg|e]; simpl; [|done].
  destruct (ProcessImu.calc_stats _ "g") as [a|e] eqn:Ha; simpl; [|done].
  destruct (ProcessImu.calc_stats _ "dps") as [g|e] eqn:Hg; simpl; [|done].
  by intros [= <-].
Qed.

Lemma three_channels {A} (channels : list (list A)) n :
  map length channels = [n; n; n] -> length channels = 3%nat.
Proof. intros Hl. by rewrite <- (length_map length), Hl. Qed.

Lemma stats_of_run7 calib lines r :
  complete calib ->
  ImuDataProcess.process_imu_data calib lines = Ok r ->
  three_axes (ImuDataProcess.r_accel r) "g"
  /\ three_axes (ImuDataProcess.r_gyro r) "dps".
Proof.
  intros Hc Hr.
  destruct (series_lengths7 calib lines r Hc Hr) as (_ & _ & _ & Ha & Hg).
  destruct (returned_stats7 calib lines r Hr) as [Hsa Hsg].
  apply calc_stats_shape7 in Hsa, Hsg.
  rewrite (three_channels _ _ Ha) in Hsa.
  rewrite (three_channels _ _ Hg) in Hsg. done.
Qed.

Lemma stats_of_run14 calib rows r :
  complete calib ->
  ProcessImu.process_imu_data calib rows = Ok r ->
  three_axes (ProcessImu.r_accel r) "g"
  /\ three_axes (ProcessImu.r_gyro r) "dps".
Proof.
  intros Hc Hr.
  destruct (series_lengths14 calib rows r Hc Hr) as (_ & _ & Ha & Hg & _).
  destruct (returned_stats14 calib rows r Hr) as [Hsa Hsg].
  split.
  - exact (calc_stats_shape14 _ _ _ (three_channels _ _ Ha) Hsa).
  - exact (calc_stats_shape14 _ _ _ (three_channels _ _ Hg) Hsg).
Qed.

(** X7. The statistics a run returns are computed from the very channels it
    returns, carry the unit labels [g] and [dps], and hold one bias and one
    standard deviation for each of the three axes. *)
Theorem statistics_cover_three_axes (calib : calibration)
    (lines : list str) (rows : list (list str)) :
  complete calib ->
  (forall r, ImuDataProcess.process_imu_data calib lines = Ok r ->
     ImuDataProcess.calc_stats (ImuDataProcess.r_accel_raw r).2 "g"
     = Ok (ImuDataProcess.r_accel r)
     /\ ImuDataProcess.calc_stats (ImuDataProcess.r_gyro_raw r).2 "dps"
        = Ok (ImuDataProcess.r_gyro r)
     /\ three_axes (ImuDataProcess.r_accel r) "g"
     /\ three_axes (ImuDataProcess.r_gyro r) "dps")
  /\ (forall r, ProcessImu.process_imu_data calib rows = Ok r ->
        ProcessImu.calc_stats (ProcessImu.r_accel_raw r).2 "g"
        = Ok (ProcessImu.r_accel r)
        /\ ProcessImu.calc_stats (ProcessImu.r_gyro_raw r).2 "dps"
           = Ok (ProcessImu.r_gyro r)
        /\ three_axes (ProcessImu.r_accel r) "g"
        /\ three_axes (ProcessImu.r_gyro r) "dps").
Proof.
  intros Hc. split; intros r Hr.
  - destruct (returned_stats7 calib lines r Hr) as [Hsa Hsg].
    destruct (stats_of_run7 calib lines r Hc Hr) as [Ha Hg]. done.
  - destruct (returned_stats14 calib rows r Hr) as [Hsa Hsg].
    destruct (stats_of_run14 calib rows r Hc Hr) as [Ha Hg]. done.
Qed.

End ReturnedSeries.

Lemma valid_rows_are_counted_witness :
  match ProcessImu.process_imu_data Samples.example_calibration
          [Samples.header_row; Samples.example_row; [lit "x"];
           Samples.example_row] with
  | Ok r => (ProcessImu.r_temp_raw r).1 = [stamp_of 0; stamp_of 1]
  | Raise _ => False
  end.
Proof.
  pose proof (valid_rows_are_counted (H := Reference.runtime)
                Samples.example_calibration
                [Samples.header_row; Samples.example_row; [lit "x"];
                 Samples.example_row]) as Hcount.
  destruct (ProcessImu.process_imu_data Samples.example_calibration _)
    as [r|e] eqn:Hr.
  - rewrite (Hcount r complete_example eq_refl). vm_compute. reflexivity.
  - vm_compute in Hr. discriminate Hr.
Defined.

Lemma line_numbers_stamp_witness :
  match ImuDataProcess.process_imu_data Samples.example_calibration
          [lit "header"; Samples.example_line; lit ""; Samples.example_line]
  with
  | Ok r => (ImuDataProcess.r_temp_raw r).1 = [stamp_of 1; stamp_of 3]
  | Raise _ => False
  end.
Proof.
  pose proof (line_numbers_stamp (H := Reference.runtime)
                Samples.example_calibration
                [lit "header"; Samples.example_line; lit "";
                 Samples.example_line]) as Hstamp.
  destruct (ImuDataProcess.process_imu_data Samples.example_calibration _)
    as [r|e] eqn:Hr.
  - rewrite (Hstamp r complete_example eq_refl). vm_compute. reflexivity.
  - vm_compute in Hr. discriminate Hr.
Defined.

Lemma series_lengths_agree_witness :
  match ProcessImu.process_imu_data Samples.example_calibration
          [Samples.header_row; Samples.example_row; Samples.example_row] with
  | Ok r =>
      map length (ProcessImu.r_accel_filt r).2
      = replicate 3 (length (ProcessImu.r_temp_raw r).1)
  | Raise _ => False
  end.
Proof.
  pose proof (series_lengths_agree (H := Reference.runtime)
                Samples.example_calibration []
                [Samples.header_row; Samples.example_row; Samples.example_row]
                complete_example) as [_ Hlen].
  destruct (ProcessImu.process_imu_data Samples.example_calibration _)
    as [r|e] eqn:Hr.
  - destruct (Hlen r eq_refl) as (_ & _ & _ & _ & Hfilt & _). exact Hfilt.
  - vm_compute in Hr. discriminate Hr.
Defined.

Lemma statistics_cover_three_axes_witness :
  match ProcessImu.process_imu_data Samples.example_calibration
          [Samples.header_row; Samples.example_row; Samples.example_row] with
  | Ok r =>
      three_axes (ProcessImu.r_accel r) "g"
      /\ three_axes (ProcessImu.r_gyro r) "dps"
  | Raise _ => False
  end.
Proof.
  pose proof (statistics_cover_three_axes (H := Reference.runtime)
                Samples.example_calibration []
                [Samples.header_row; Samples.example_row; Samples.example_row]
                complete_example) as [_ Hstats].
  destruct (ProcessImu.process_imu_data Samples.example_calibration _)
    as [r|e] eqn:Hr.
  - exact (proj2 (proj2 (Hstats r eq_refl))).
  - vm_compute in Hr. discriminate Hr.
Defined.

(** ** The capture loops: which lines reach the classifier *)

Section FramedLines.
Context {St : Type} (h : str -> M St unit).
Hypothesis h_total : never_raises h.

Lemma index_of_app_None b buf data :
  index_of b buf = None -> index_of b data = None ->
  index_of b (buf ++ data) = None.
Proof.
  intros Hb Hd. induction buf as [|x buf IH]; simpl in *; [done|].
  destruct (Byte.eqb x b); [done|].
  destruct (index_of b buf); simpl in *; [done|]. by rewrite IH.
Qed.

(** The framing loop hands the handler the lines the framer decodes, in
    order. *)
Lemma drain_lines buf :
  exists found,
    (forall lines, (drain collect buf lines).1.1 = lines ++ found)
    /\ (forall s, (drain h buf s).1.1 = handle_all h found s).
Proof.
  remember (length buf) as n eqn:Hn. revert buf Hn.
  induction n as [n IH] using lt_wf_ind. intros buf ->.
  destruct (index_of newline buf) as [i|] eqn:Hi.
  - destruct (decode_line_total (take i buf)) as [line Hline].
    destruct (IH (length (drop (S i) buf))) with (buf := drop (S i) buf)
      as (found & Hc & Hh); [|done|].
    { apply index_of_lt in Hi. rewrite length_drop. lia. }
    exists (line :: found). split.
    + intros lines. rewrite drain_unfold, Hi, Hline.
      unfold collect at 1, modify. rewrite Hc.
      by rewrite <- (assoc_L (++)).
    + intros s. rewrite drain_unfold, Hi, Hline, (handler_step h h_total).
      apply Hh.
  - exists []. split; intros ?; rewrite drain_unfold, Hi; simpl;
      [by rewrite (right_id_L [] (++))|done].
Qed.

Lemma acquire_handle_all chunks s :
  exists rest,
    acquire h (map Data chunks) [] s
    = ((handle_all h (framed_lines (map Data chunks)) s, rest), Ok tt).
Proof.
  unfold framed_lines.
  rewrite (acquire_chunks h h_total) by done.
  rewrite (acquire_chunks collect collect_never_raises) by done.
  destruct (concat chunks) as [|b bs]; [by exists []|].
  change ([] ++ b :: bs) with (b :: bs).
  destruct (drain_lines (b :: bs)) as (found & Hc & Hh).
  destruct (drain_total h h_total (b :: bs) s) as (s' & rest & Hd & _).
  exists rest. rewrite (Hc []). simpl. rewrite <- Hh, Hd. done.
Qed.

End FramedLines.

Lemma framed_lines_length chunks :
  length (framed_lines (map Data chunks)) = terminators (concat chunks).
Proof.
  unfold framed_lines.
  rewrite (acquire_chunks _ collect_never_raises) by done.
  destruct (concat chunks) as [|b bs] eqn:E; [done|].
  rewrite drain_collect_length. done.
Qed.

(** Bytes after the last terminator add no line. *)
Lemma framed_lines_tail chunks tail :
  index_of newline tail = None ->
  framed_lines (map Data (chunks ++ [tail])) = framed_lines (map Data chunks).
Proof.
  intros Htail. unfold framed_lines.
  rewrite !(acquire_chunks _ collect_never_raises) by done.
  rewrite concat_app. simpl. rewrite (right_id_L [] (++)).
  destruct (drain_total collect collect_never_raises (concat chunks) [])
    as (found & rest & Hd & Hrest).
  assert ((drain collect (concat chunks ++ tail) []).1.1 = found) as Hfound.
  { rewrite (drain_app collect collect_never_raises), Hd. simpl.
    rewrite (drain_settled collect); [done|].
    by apply index_of_app_None. }
  destruct (concat chunks ++ tail) as [|b bs] eqn:E.
  - apply app_eq_nil in E as [-> _]. done.
  - simpl in Hfound |- *. rewrite Hfound.
    destruct (concat chunks) as [|c cs] eqn:Ec.
    + rewrite drain_settled in Hd by done. by injection Hd as <- _.
    + simpl. by rewrite Hd.
Qed.

Section CaptureRuns.
Context `{PyRuntime}.

Lemma capture_run chunks :
  SerialCapture.capture_serial_data true (map Data chunks)
  = (Ok (SerialCapture.returned
           (handle_all SerialCapture.handle_line
              (framed_lines (map Data chunks)) SerialCapture.initial)),
     Closed).
Proof.
  unfold SerialCapture.capture_serial_data, guarded.
  destruct (acquire_handle_all _ handle_line_never_raises chunks
              SerialCapture.initial) as [rest ->].
  reflexivity.
Qed.

Lemma accely_capture_run chunks :
  SerialCaptureAccely.capture_serial_data true (map Data chunks)
  = (Ok (SerialCaptureAccely.returned
           (handle_all SerialCaptureAccely.handle_line
              (framed_lines (map Data chunks)) SerialCaptureAccely.initial)),
     Closed).
Proof.
  unfold SerialCaptureAccely.capture_serial_data, guarded.
  destruct (acquire_handle_all _ accely_handle_line_never_raises chunks
              SerialCaptureAccely.initial) as [rest ->].
  reflexivity.
Qed.

(** X8. When no read fails, both capture functions return, with the port
    closed, what classifying the framed lines one after the other in
    arrival order leaves in the lists and the counter. *)
Theorem lines_classified_in_order (chunks : list (list byte)) :
  SerialCapture.capture_serial_data true (map Data chunks)
  = (Ok (SerialCapture.returned
           (handle_all SerialCapture.handle_line
              (framed_lines (map Data chunks)) SerialCapture.initial)),
     Closed)
  /\ SerialCaptureAccely.capture_serial_data true (map Data chunks)
     = (Ok (SerialCaptureAccely.returned
              (handle_all SerialCaptureAccely.handle_line
                 (framed_lines (map Data chunks))
                 SerialCaptureAccely.initial)),
        Closed).
Proof. split; [apply capture_run|apply accely_capture_run]. Qed.

Lemma handle_line_accounts line s :
  accounted (SerialCapture.handle_line line s).1 = accounted s + 1.
Proof.
  unfold SerialCapture.handle_line, accounted.
  destruct (str_startswith line _).
  - unfold try_except, bind, lift, modify.
    destruct (SerialCapture.parse_quaternion line); simpl;
      rewrite ?length_app; simpl; lia.
  - destruct (Nat.eqb _ 6); [|simpl; lia].
    unfold try_except, bind, lift, modify.
    destruct (parse_record line) as [row|e] eqn:E; simpl.
    + rewrite length_app. simpl. lia.
    + rewrite (parse_record_errors _ _ E). simpl. lia.
Qed.

Lemma accely_handle_line_accounts line s :
  accely_accounted (SerialCaptureAccely.handle_line line s).1
  = accely_accounted s + 1.
Proof.
  unfold SerialCaptureAccely.handle_line, accely_accounted.
  destruct (Nat.eqb _ 6); [|simpl; lia].
  unfold try_except, bind, lift, modify.
  destruct (parse_record line) as [row|e] eqn:E; simpl.
  - rewrite length_app. simpl. lia.
  - rewrite (parse_record_errors _ _ E). simpl. lia.
Qed.

Lemma handle_all_measure {St} (h : str -> M St unit) (measure : St -> Z) :
  (forall line s, measure (h line s).1 = measure s + 1) ->
  forall lines s,
    measure (handle_all h lines s) = measure s + Z.of_nat (length lines).
Proof.
  intros Hstep lines. induction lines as [|line lines IH]; intros s.
  - simpl. lia.
  - unfold handle_all in *. cbn [foldl length]. rewrite IH, Hstep. lia.
Qed.

(** X9. Every terminated line is accounted for exactly once.  When no read
    fails the capture returns, and the rows, the quaternions and the
    invalid-line count it returns add up to the number of line terminators
    received; in the variant without quaternions the rows and the count
    do. *)
Theorem every_line_is_accounted (chunks : list (list byte)) :
  (exists raw filtered quat invalid,
      SerialCapture.capture_serial_data true (map Data chunks)
      = (Ok (raw, filtered, quat, invalid), Closed)
      /\ Z.of_nat (length raw) + Z.of_nat (length quat) + invalid
         = Z.of_nat (terminators (concat chunks)))
  /\ (exists raw invalid,
        SerialCaptureAccely.capture_serial_data true (map Data chunks)
        = (Ok (raw, invalid), Closed)
        /\ Z.of_nat (length raw) + invalid
           = Z.of_nat (terminators (concat chunks))).
Proof.
  split.
  - rewrite capture_run. unfold SerialCapture.returned.
    do 4 eexists. split; [reflexivity|].
    rewrite <- framed_lines_length.
    exact (handle_all_measure _ accounted handle_line_accounts _ _).
  - rewrite accely_capture_run. unfold SerialCaptureAccely.returned.
    do 2 eexists. split; [reflexivity|].
    rewrite <- framed_lines_length.
    exact (handle_all_measure _ accely_accounted
             accely_handle_line_accounts _ _).
Qed.

(** X10. Bytes received after the last line terminator are never classified:
    a capture whose last read ends in an unterminated line returns what it
    would return without those bytes, however well-formed they are. *)
Theorem unterminated_tail_is_dropped (chunks : list (list byte))
    (tail : list byte) :
  index_of newline tail = None ->
  SerialCapture.capture_serial_data true (map Data (chunks ++ [tail]))
  = SerialCapture.capture_serial_data true (map Data chunks)
  /\ SerialCaptureAccely.capture_serial_data true (map Data (chunks ++ [tail]))
     = SerialCaptureAccely.capture_serial_data true (map Data chunks).
Proof.
  intros Htail.
  rewrite !capture_run, !accely_capture_run, (framed_lines_tail _ _ Htail).
  done.
Qed.

Lemma parse_record_shape line row :
  parse_record line = Ok row -> record_shape row = true.
Proof.
  unfold parse_record.
  repeat match goal with
  | |- context [obind (float_field ?ps ?i) _] =>
      destruct (float_field ps i); simpl; [|discriminate]
  end.
  destruct (int_field _ 6); simpl; [|discriminate].
  by intros [= <-].
Qed.

Lemma parse_quaternion_length line q :
  SerialCapture.parse_quaternion line = Ok q -> length q = 4%nat.
Proof.
  unfold SerialCapture.parse_quaternion.
  repeat match goal with
  | |- context [obind (SerialCapture.quat_field ?ps ?i) _] =>
      destruct (SerialCapture.quat_field ps i); simpl; [|discriminate]
  end.
  by intros [= <-].
Qed.

Lemma handle_line_well_formed line s :
  well_formed s -> well_formed (SerialCapture.handle_line line s).1.
Proof.
  intros (Hraw & Hdup & Hquat & Hinv). unfold SerialCapture.handle_line.
  destruct (str_startswith line _).
  - unfold try_except, bind, lift, modify.
    destruct (SerialCapture.parse_quaternion line) as [q|e] eqn:E; simpl.
    + split_and!; [done..| |done].
      apply Forall_app. split; [done|].
      constructor; [|done]. eapply parse_quaternion_length, E.
    + split_and!; [done..|]. simpl. lia.
  - destruct (Nat.eqb _ 6); [|split_and!; [done..|simpl; lia]].
    unfold try_except, bind, lift, modify.
    destruct (parse_record line) as [row|e] eqn:E; simpl.
    + split_and!; [|simpl; by rewrite Hdup|done..].
      apply Forall_app. split; [done|].
      constructor; [|done]. eapply parse_record_shape, E.
    + rewrite (parse_record_errors _ _ E).
      split_and!; [done..|]. simpl. lia.
Qed.

Lemma accely_handle_line_well_formed line s :
  accely_well_formed s ->
  accely_well_formed (SerialCaptureAccely.handle_line line s).1.
Proof.
  intros (Hraw & Hinv). unfold SerialCaptureAccely.handle_line.
  destruct (Nat.eqb _ 6); [|split; [done|simpl; lia]].
  unfold try_except, bind, lift, modify.
  destruct (parse_record line) as [row|e] eqn:E; simpl.
  - split; [|done].
    apply Forall_app. split; [done|].
    constructor; [|done]. eapply parse_record_shape, E.
  - rewrite (parse_record_errors _ _ E). split; [done|simpl; lia].
Qed.

Lemma capture_well_formed opened polls raw filtered quat invalid ser :
  SerialCapture.capture_serial_data opened polls
  = (Ok (raw, filtered, quat, invalid), ser) ->
  Forall (fun row => record_shape row = true) raw
  /\ filtered = raw
  /\ Forall (fun q => length q = 4%nat) quat
  /\ 0 <= invalid.
Proof.
  unfold SerialCapture.capture_serial_data, guarded.
  destruct opened; [|discriminate].
  pose proof (acquire_invariant _ handle_line_never_raises well_formed
                handle_line_well_formed polls [] SerialCapture.initial)
    as Hinv.
  destruct (acquire _ polls [] _) as [[s buf] [[]|e]]; simpl in *.
  - intros [= <- <- <- <- _]. apply Hinv.
    split_and!; [constructor|done|constructor|done].
  - destruct e; discriminate.
Qed.

Lemma accely_capture_well_formed opened polls raw invalid ser :
  SerialCaptureAccely.capture_serial_data opened polls
  = (Ok (raw, invalid), ser) ->
  Forall (fun row => record_shape row = true) raw /\ 0 <= invalid.
Proof.
  unfold SerialCaptureAccely.capture_serial_data, guarded.
  destruct opened; [|discriminate].
  pose proof (acquire_invariant _ accely_handle_line_never_raises
                accely_well_formed accely_handle_line_well_formed polls []
                SerialCaptureAccely.initial) as Hinv.
  destruct (acquire _ polls [] _) as [[s buf] [[]|e]]; simpl in *.
  - intros [= <- <- _]. apply Hinv. split; [constructor|done].
  - destruct e; discriminate.
Qed.

(** X11. Whatever a capture returns is well formed: every row is six floats
    followed by an integer temperature, every quaternion has four
    components, and the invalid-line count is not negative. *)
Theorem captured_rows_are_well_formed (opened : bool) (polls : list poll) :
  (forall raw filtered quat invalid ser,
      SerialCapture.capture_serial_data opened polls
      = (Ok (raw, filtered, quat, invalid), ser) ->
      Forall (fun row => record_shape row = true) raw
      /\ Forall (fun row => record_shape row = true) filtered
      /\ Forall (fun q => length q = 4%nat) quat
      /\ 0 <= invalid)
  /\ (forall raw invalid ser,
        SerialCaptureAccely.capture_serial_data opened polls
        = (Ok (raw, invalid), ser) ->
        Forall (fun row => record_shape row = true) raw /\ 0 <= invalid).
Proof.
  split.
  - intros raw filtered quat invalid ser Hrun.
    apply capture_well_formed in Hrun as (Hraw & -> & Hquat & Hinv). done.
  - intros raw invalid ser. apply accely_capture_well_formed.
Qed.

End CaptureRuns.

Lemma unterminated_tail_is_dropped_witness :
  SerialCaptureAccely.capture_serial_data true
    (map Data [Samples.line_bytes "1.5,2,3,4,5,6,25";
               String.list_byte_of_string "1.5,2,3,4,5,6,26"])
  = SerialCaptureAccely.capture_serial_data true
      (map Data [Samples.line_bytes "1.5,2,3,4,5,6,25"]).
Proof.
  apply (unterminated_tail_is_dropped (H := Reference.runtime)
           [Samples.line_bytes "1.5,2,3,4,5,6,25"]
           (String.list_byte_of_string "1.5,2,3,4,5,6,26")).
  vm_compute. reflexivity.
Defined.

Lemma captured_rows_are_well_formed_witness :
  match
    (SerialCapture.capture_serial_data true
       [Data (Samples.line_bytes "1.5,2,3,4,5,6,25"
              ++ Samples.line_bytes "Quaternion: w=1, x=0, y=0, z=0");
        Data (Samples.line_bytes "1.5,2,3")]).1
  with
  | Ok (raw, _, quat, invalid) =>
      Forall (fun row => record_shape row = true) raw
      /\ Forall (fun q => length q = 4%nat) quat
      /\ 0 <= invalid
  | Raise _ => False
  end.
Proof.
  pose proof (captured_rows_are_well_formed (H := Reference.runtime) true
                [Data (Samples.line_bytes "1.5,2,3,4,5,6,25"
                       ++ Samples.line_bytes "Quaternion: w=1, x=0, y=0, z=0");
                 Data (Samples.line_bytes "1.5,2,3")]) as [Hshape _].
  destruct (SerialCapture.capture_serial_data true _)
    as [[[[[raw filtered] quat] invalid]|e] ser] eqn:Hrun; cbn [fst].
  - destruct (Hshape raw filtered quat invalid ser eq_refl)
      as (Hraw & _ & Hquat & Hinv).
    exact (conj Hraw (conj Hquat Hinv)).
  - vm_compute in Hrun. discriminate Hrun.
Defined.

(** ** Writing the CSV files *)

Section WriterFacts.
Import Writers.

Lemma for_each_seq {St A} (xs : list A) (body : nat -> M St unit)
    (body' : A -> M St unit) : forall k,
  (forall i x s, xs !! i = Some x -> body (k + i)%nat s = body' x s) ->
  forall s, for_each (seq k (length xs)) body s = for_each xs body' s.
Proof.
  induction xs as [|x xs IH]; intros k Hbody s; [done|].
  cbn [length seq]. rewrite !for_each_cons. unfold bind.
  rewrite <- (Hbody 0%nat x s eq_refl), Nat.add_0_r.
  destruct (body k s) as [s1 [[]|e]]; [|done].
  apply IH. intros i y s' Hy. rewrite <- (Hbody (S i) y s' Hy).
  f_equal. lia.
Qed.

(** A loop that formats a row and writes it: all rows are written when
    every one can be formatted. *)
Lemma write_all {X} (f : X -> outcome (list cell)) xs rows :
  map_outcome f xs = Ok rows ->
  forall file,
    for_each xs (fun x => bind (lift (f x)) writerow) file
    = (file ++ rows, Ok tt).
Proof.
  revert rows. induction xs as [|x xs IH]; intros rows; simpl.
  - intros [= <-] file. by rewrite (right_id_L [] (++)).
  - destruct (f x) as [row|e] eqn:Hx; simpl; [|done].
    destruct (map_outcome f xs) as [rows'|e]; simpl; [|done].
    intros [= <-] file. unfold bind at 1 2, lift, writerow at 1, modify.
    rewrite (IH rows' eq_refl). by rewrite <- (assoc_L (++)).
Qed.

(** The first row that cannot be formatted ends the loop; the rows before
    it have been written. *)
Lemma write_until {X} (f : X -> outcome (list cell)) before x after rows e :
  map_outcome f before = Ok rows ->
  f x = Raise e ->
  forall file,
    for_each (before ++ x :: after) (fun x => bind (lift (f x)) writerow) file
    = (file ++ rows, Raise e).
Proof.
  intros Hrows Hx file.
  rewrite for_each_app. unfold bind at 1.
  rewrite (write_all f before rows Hrows).
  rewrite for_each_cons. unfold bind, lift. by rewrite Hx.
Qed.

Lemma map_outcome_Forall {X Y} (f : X -> outcome Y) (g : X -> Y) xs :
  Forall (fun x => f x = Ok (g x)) xs -> map_outcome f xs = Ok (map g xs).
Proof.
  induction 1 as [|x xs Hx _ IH]; simpl; [done|]. by rewrite Hx, IH.
Qed.

Lemma fixed_Ok digits x :
  in_float_range x = true -> fixed digits x = Ok (Fixed digits x).
Proof.
  destruct x as [n|f]; [|done]. unfold fixed, in_float_range, float_of_int.
  by destruct (is_infinity (Z2F n)).
Qed.

Lemma fixed_all_Ok digits xs :
  Forall (fun x => in_float_range x = true) xs ->
  map_outcome (fixed digits) xs = Ok (map (Fixed digits) xs).
Proof.
  intros Hall. apply map_outcome_Forall.
  eapply Forall_impl; [exact Hall|]. intros x. apply fixed_Ok.
Qed.

Lemma formatted_row_Ok raw_i filt_i :
  (7 <= length raw_i)%nat -> (7 <= length filt_i)%nat ->
  Forall (fun x => in_float_range x = true) (take 6 filt_i) ->
  formatted_row raw_i filt_i = Ok (saved_row raw_i filt_i).
Proof.
  intros Hr Hf Hrange.
  destruct raw_i as [|r0 [|r1 [|r2 [|r3 [|r4 [|r5 [|r6 raw_i]]]]]]];
    simpl in Hr; try lia.
  destruct filt_i as [|f0 [|f1 [|f2 [|f3 [|f4 [|f5 [|f6 filt_i]]]]]]];
    simpl in Hf; try lia.
  unfold formatted_row, saved_row, slice, py_index.
  cbn [take drop Nat.sub lookup list_lookup of_option obind] in Hrange |- *.
  rewrite (fixed_all_Ok 2 [f0; f1; f2]), (fixed_all_Ok 2 [f3; f4; f5]);
    [reflexivity|..].
  all: repeat (apply Forall_cons in Hrange as [? Hrange]);
    by repeat constructor.
Qed.

Lemma formatted_row_short raw_i filt_i :
  (length raw_i < 7)%nat
  \/ ((length filt_i < 7)%nat
      /\ Forall (fun x => in_float_range x = true) filt_i) ->
  formatted_row raw_i filt_i = Raise IndexError.
Proof.
  unfold formatted_row, py_index. intros Hshort.
  destruct (raw_i !! 6%nat) as [x|] eqn:Hx; simpl; [|done].
  apply lookup_lt_Some in Hx.
  destruct Hshort as [Hraw|[Hfilt Hrange]]; [lia|].
  rewrite !fixed_all_Ok; simpl.
  - destruct (filt_i !! 6%nat) as [y|] eqn:Hy; simpl; [|done].
    apply lookup_lt_Some in Hy. lia.
  - unfold slice. by apply Forall_take, Forall_drop.
  - unfold slice. by apply Forall_take, Forall_drop.
Qed.

Lemma save_imu_data_zip raw filtered file :
  save_imu_data raw filtered file
  = for_each (zip raw filtered)
      (fun p => bind (lift (formatted_row p.1 p.2)) writerow)
      (file ++ [imu_headers]).
Proof.
  unfold save_imu_data, writerow at 1. rewrite bind_modify.
  rewrite <- (length_zip raw filtered).
  apply for_each_seq. intros i [r f] s Hi.
  apply lookup_zip_with_Some in Hi as (r' & f' & [= <- <-] & Hr & Hf).
  unfold bind, lift, py_index. rewrite Nat.add_0_l, Hr, Hf. reflexivity.
Qed.

Lemma zip_with_zip {A B C} (f : A -> B -> C) xs ys :
  zip_with f xs ys = map (fun p => f p.1 p.2) (zip xs ys).
Proof.
  revert ys. induction xs as [|x xs IH]; intros [|y ys]; simpl; try done.
  by rewrite IH.
Qed.

Lemma saved_row_length raw_i filt_i :
  (7 <= length raw_i)%nat -> (7 <= length filt_i)%nat ->
  length (saved_row raw_i filt_i) = 14%nat.
Proof.
  intros Hr Hf. unfold saved_row.
  rewrite !length_app, !length_map, !length_take, length_drop. lia.
Qed.

Lemma save_imu_data_Ok raw filtered :
  Forall (fun p : list num * list num =>
            (7 <= length p.1)%nat /\ (7 <= length p.2)%nat
            /\ Forall (fun x => in_float_range x = true) (take 6 p.2))
    (zip raw filtered) ->
  save_imu_data raw filtered []
  = (imu_headers :: zip_with saved_row raw filtered, Ok tt)
  /\ Forall (fun row => length row = 14%nat)
       (zip_with saved_row raw filtered).
Proof.
  intros Hall. rewrite (zip_with_zip saved_row). split.
  - rewrite save_imu_data_zip.
    erewrite write_all; [reflexivity|].
    apply map_outcome_Forall. eapply Forall_impl; [exact Hall|].
    intros [r f] (Hr & Hf & Hrange). by apply formatted_row_Ok.
  - apply Forall_map. eapply Forall_impl; [exact Hall|].
    intros [r f] (Hr & Hf & _). by apply saved_row_length.
Qed.

Lemma plain_pair (p : list num * list num) :
  plain_row p.1 /\ plain_row p.2 ->
  (7 <= length p.1)%nat /\ (7 <= length p.2)%nat
  /\ Forall (fun x => in_float_range x = true) (take 6 p.2).
Proof.
  intros [[Hr _] [Hf Hrange]]. split_and!; [done..|]. by apply Forall_take.
Qed.

(** X13. [save_imu_data] pairs the two lists by position up to the shorter
    one.  When the paired rows have at least seven entries each, all within
    the float range, it never raises, and the file holds the header and one
    row of fourteen cells for each pair; rows beyond the shorter list are
    not looked at. *)
Theorem save_imu_data_rows (raw filtered : list (list num)) :
  Forall (fun p : list num * list num => plain_row p.1 /\ plain_row p.2)
    (zip raw filtered) ->
  exists rows,
    save_imu_data raw filtered []
    = (imu_headers :: rows, Ok tt)
    /\ rows = zip_with saved_row raw filtered
    /\ length rows = Nat.min (length raw) (length filtered)
    /\ Forall (fun row => length row = 14%nat) rows.
Proof.
  intros Hall.
  destruct (save_imu_data_Ok raw filtered) as [Hrun Hlen].
  { eapply Forall_impl; [exact Hall|]. apply plain_pair. }
  eexists. split_and!; [exact Hrun|reflexivity|apply length_zip_with|exact Hlen].
Qed.

(** X14. When the pairs before the [i]-th can be saved and the [i]-th pair
    has a raw row of fewer than seven entries, or a filtered row of fewer
    than seven entries that are all within the float range,
    [save_imu_data] raises [IndexError]; the header and the rows of the
    pairs before it are in the file by then. *)
Theorem save_imu_data_short_row (raw filtered : list (list num))
    (i : nat) (raw_i filt_i : list num) :
  raw !! i = Some raw_i ->
  filtered !! i = Some filt_i ->
  Forall (fun p : list num * list num => plain_row p.1 /\ plain_row p.2)
    (take i (zip raw filtered)) ->
  (length raw_i < 7)%nat
  \/ ((length filt_i < 7)%nat
      /\ Forall (fun x => in_float_range x = true) filt_i) ->
  save_imu_data raw filtered []
  = (imu_headers :: take i (zip_with saved_row raw filtered),
     Raise IndexError).
Proof.
  intros Hr Hf Hall Hshort. rewrite save_imu_data_zip.
  assert (zip raw filtered !! i = Some (raw_i, filt_i)) as Hi.
  { apply lookup_zip_with_Some. eauto. }
  rewrite <- (take_drop_middle _ _ _ Hi).
  erewrite write_until; [reflexivity| |by apply formatted_row_short].
  rewrite (zip_with_zip saved_row), firstn_map.
  apply map_outcome_Forall. eapply Forall_impl; [exact Hall|].
  intros [r f] Hp. destruct (plain_pair _ Hp) as (Hr' & Hf' & Hrange).
  by apply formatted_row_Ok.
Qed.

(** An integer beyond the float range among the values to format ends
    either writer in [OverflowError], also where a later subscript would
    have raised [IndexError]. *)
Example format_overflow :
  save_to_csv [[Int (10 ^ 400)]] [] = ([csv_headers], Raise OverflowError)
  /\ save_imu_data [Samples.record_row] [[Int (10 ^ 400)]] []
     = ([imu_headers], Raise OverflowError)
  /\ save_imu_data [[Int (10 ^ 400)]] [Samples.record_row] []
     = ([imu_headers], Raise IndexError).
Proof. split_and!; vm_compute; reflexivity. Qed.

Lemma record_shape_length row : record_shape row = true -> length row = 7%nat.
Proof.
  destruct row as [|[] [|[] [|[] [|[] [|[] [|[] [|[] [|]]]]]]]]; done.
Qed.

Lemma record_shape_formats row :
  record_shape row = true ->
  (7 <= length row)%nat
  /\ Forall (fun x => in_float_range x = true) (take 6 row).
Proof.
  destruct row as [|[] [|[] [|[] [|[] [|[] [|[] [|[] [|]]]]]]]]; try done.
  intros _. split; [simpl; lia|repeat constructor].
Qed.

Lemma Forall_zip_diag {A} (P : A * A -> Prop) (xs : list A) :
  Forall (fun x => P (x, x)) xs -> Forall P (zip xs xs).
Proof. induction 1; simpl; by constructor. Qed.

Lemma write_plain {X} (g : X -> list cell) xs : forall file,
  for_each xs (fun x => writerow (g x)) file = (file ++ map g xs, Ok tt).
Proof.
  induction xs as [|x xs IH]; intros file; simpl.
  - by rewrite (right_id_L [] (++)).
  - unfold bind, writerow at 1, modify. rewrite IH.
    by rewrite <- (assoc_L (++)).
Qed.

Lemma save_quaternions_run quat :
  save_quaternions quat []
  = (quat_headers
     :: map (map (fun v => Fixed 3 (Float v))) quat, Ok tt).
Proof.
  unfold save_quaternions, writerow at 1. rewrite bind_modify.
  by rewrite write_plain.
Qed.

(** X15. What the quaternion-capable capture returns can always be saved:
    [save_imu_data] and [save_quaternions] do not raise on it, the sensor
    file gets the header and one row of fourteen cells for every captured
    row, whose filtered half renders the same record as its raw half, and
    the quaternion file gets the header and one row of four cells for every
    quaternion. *)
Theorem captured_data_is_saved `{PyRuntime} (opened : bool)
    (polls : list poll) raw filtered quat invalid ser :
  SerialCapture.capture_serial_data opened polls
  = (Ok (raw, filtered, quat, invalid), ser) ->
  exists rows qrows,
    save_imu_data raw filtered [] = (imu_headers :: rows, Ok tt)
    /\ rows = map (fun row => saved_row row row) raw
    /\ Forall (fun row => length row = 14%nat) rows
    /\ save_quaternions quat [] = (quat_headers :: qrows, Ok tt)
    /\ length qrows = length quat
    /\ Forall (fun row => length row = 4%nat) qrows.
Proof.
  intros Hrun.
  apply capture_well_formed in Hrun as (Hraw & -> & Hquat & _).
  destruct (save_imu_data_Ok raw raw) as [Hsave Hlen].
  { apply Forall_zip_diag. eapply Forall_impl; [exact Hraw|].
    intros row Hrow. simpl.
    destruct (record_shape_formats _ Hrow) as [Hlen Hrange]. done. }
  do 2 eexists. split_and!.
  - exact Hsave.
  - rewrite (zip_with_zip saved_row). clear. induction raw; simpl; congruence.
  - exact Hlen.
  - apply save_quaternions_run.
  - apply length_map.
  - apply Forall_map. eapply Forall_impl; [exact Hquat|].
    intros q Hq. simpl. by rewrite length_map.
Qed.

(** C10, as the code has it.  In the quaternion-capable capture the list of
    filtered rows always equals the list of raw rows.  In the dataset that
    [save_imu_data] emits from them, the raw half of a row holds the seven
    numbers of the record as they are, and the filtered half holds the six
    motion values of the same record formatted to two decimals, followed by
    the temperature as it is: only the temperature column is duplicated
    exactly. *)
Theorem filtered_repeats_raw `{PyRuntime} (opened : bool)
    (polls : list poll) raw filtered quat invalid ser :
  SerialCapture.capture_serial_data opened polls
  = (Ok (raw, filtered, quat, invalid), ser) ->
  filtered = raw
  /\ exists rows,
       save_imu_data raw filtered [] = (imu_headers :: rows, Ok tt)
       /\ Forall2 (fun record cells =>
                     exists a0 a1 a2 g0 g1 g2 t,
                       record = [Float a0; Float a1; Float a2;
                                 Float g0; Float g1; Float g2; Int t]
                       /\ cells = [Num (Float a0); Num (Float a1);
                                   Num (Float a2); Num (Float g0);
                                   Num (Float g1); Num (Float g2);
                                   Num (Int t);
                                   Fixed 2 (Float a0); Fixed 2 (Float a1);
                                   Fixed 2 (Float a2); Fixed 2 (Float g0);
                                   Fixed 2 (Float g1); Fixed 2 (Float g2);
                                   Num (Int t)])
            raw rows.
Proof.
  intros Hrun.
  apply capture_well_formed in Hrun as (Hraw & -> & _ & _).
  split; [done|].
  destruct (save_imu_data_Ok raw raw) as [Hsave _].
  { apply Forall_zip_diag. eapply Forall_impl; [exact Hraw|].
    intros row Hrow. simpl.
    destruct (record_shape_formats _ Hrow) as [Hlen Hrange]. done. }
  eexists. split; [exact Hsave|].
  clear Hsave. induction Hraw as [|row raw Hrow _ IH]; simpl; constructor;
    [|exact IH].
  destruct row as [|[|a0] [|[|a1] [|[|a2] [|[|g0] [|[|g1] [|[|g2] [|[t|] [|]]]]]]]];
    try done.
  by exists a0, a1, a2, g0, g1, g2, t.
Qed.

(** C10, counterexample.  The record 1.234,2,3,4,5,6,25 is captured into
    both lists alike, but in the emitted row the raw column holds the number
    1.234 and the filtered column the text of [f"{1.234:.2f}"], which is
    1.23 and reads back as another number. *)
Lemma filtered_column_is_rounded :
  let record :=
    [Float 1.234; Float 2; Float 3; Float 4; Float 5; Float 6; Int 25]%float in
  SerialCapture.capture_serial_data (H := Reference.runtime) true
    [Data (Samples.line_bytes "1.234,2,3,4,5,6,25")]
  = (Ok ([record], [record], [], 0), Closed)
  /\ save_imu_data [record] [record] []
     = ([imu_headers;
         [Num (Float 1.234); Num (Float 2); Num (Float 3); Num (Float 4);
          Num (Float 5); Num (Float 6); Num (Int 25);
          Fixed 2 (Float 1.234); Fixed 2 (Float 2); Fixed 2 (Float 3);
          Fixed 2 (Float 4); Fixed 2 (Float 5); Fixed 2 (Float 6);
          Num (Int 25)]%float], Ok tt)
  /\ fixed_text 2 1.234 = lit "1.23"
  /\ Reference.float_of_str (lit "1.23") = Some 1.23%float
  /\ (1.23 =? 1.234)%float = false.
Proof. split_and!; vm_compute; reflexivity. Qed.

(** The formatting on some values: halves go to the even neighbour of the
    exact binary value, the sign is kept, and the non-finite values are
    spelled out. *)
Example fixed_text_examples :
  map (fixed_text 2)
    [1.5; 0.125; 2.675; -0.001; 0.005; 1e22; 25; -0; infinity; neg_infinity;
     nan]%float
  = map lit ["1.50"; "0.12"; "2.67"; "-0.00"; "0.01";
             "10000000000000000000000.00"; "25.00"; "-0.00"; "inf"; "-inf";
             "nan"]
  /\ map (fixed_text 3) [12345.678; 0.0004]%float
     = map lit ["12345.678"; "0.000"]
  /\ fixed_text 4 0.00005 = lit "0.0001"
  /\ fixed_text 0 2.5 = lit "2".
Proof. split_and!; vm_compute; reflexivity. Qed.

(** The cells of one row of [save_to_csv]: six values as text with two
    decimals and the temperature as it is. *)
Lemma formatted_record_Ok row :
  (7 <= length row)%nat ->
  Forall (fun x => in_float_range x = true) (take 6 row) ->
  formatted_record row = Ok (csv_row row).
Proof.
  intros Hr Hrange.
  destruct row as [|r0 [|r1 [|r2 [|r3 [|r4 [|r5 [|r6 row]]]]]]];
    simpl in Hr; try lia.
  cbn [take] in Hrange.
  repeat (apply Forall_cons in Hrange as [? Hrange]).
  unfold formatted_record, py_index.
  cbn [lookup list_lookup of_option obind].
  by rewrite !fixed_Ok.
Qed.

Lemma formatted_record_short row :
  (length row < 7)%nat ->
  Forall (fun x => in_float_range x = true) row ->
  formatted_record row = Raise IndexError.
Proof.
  intros Hr Hrange.
  destruct row as [|r0 [|r1 [|r2 [|r3 [|r4 [|r5 [|r6 row]]]]]]];
    simpl in Hr; try lia;
    repeat (apply Forall_cons in Hrange as [? Hrange]);
    unfold formatted_record, py_index;
    cbn [lookup list_lookup of_option obind];
    by rewrite ?fixed_Ok.
Qed.

Lemma save_to_csv_Ok data :
  Forall (fun row : list num =>
            (7 <= length row)%nat
            /\ Forall (fun x => in_float_range x = true) (take 6 row))
    data ->
  save_to_csv data []
  = (csv_headers :: map csv_row data, Ok tt).
Proof.
  intros Hall. unfold save_to_csv, writerow at 1. rewrite bind_modify.
  erewrite write_all; [reflexivity|].
  apply map_outcome_Forall. eapply Forall_impl; [exact Hall|].
  intros row [Hrow Hrange]. by apply formatted_record_Ok.
Qed.

Lemma plain_row_formats row :
  plain_row row ->
  (7 <= length row)%nat
  /\ Forall (fun x => in_float_range x = true) (take 6 row).
Proof. intros [Hlen Hrange]. split; [done|by apply Forall_take]. Qed.

(** X16. [save_to_csv] writes the header and then one row of seven cells for
    every record of seven entries or more, all within the float range; the
    first record with fewer than seven entries, these within the float
    range, makes it raise [IndexError], with the header and the rows before
    that record in the file. *)
Theorem save_to_csv_rows (before after : list (list num)) (row : list num) :
  Forall plain_row before ->
  (length row < 7)%nat ->
  Forall (fun x => in_float_range x = true) row ->
  save_to_csv before []
  = (csv_headers :: map csv_row before, Ok tt)
  /\ Forall (fun cells => length cells = 7%nat)
       (map csv_row before)
  /\ save_to_csv (before ++ row :: after) []
     = (csv_headers :: map csv_row before, Raise IndexError).
Proof.
  intros Hall Hrow Hrange.
  assert (Forall (fun row : list num =>
                    (7 <= length row)%nat
                    /\ Forall (fun x => in_float_range x = true) (take 6 row))
            before) as Hall'.
  { eapply Forall_impl; [exact Hall|]. apply plain_row_formats. }
  split_and!.
  - by apply save_to_csv_Ok.
  - apply Forall_map. eapply Forall_impl; [exact Hall'|].
    intros r [Hr _]. simpl. unfold csv_row.
    rewrite length_app, !length_map, !length_take, length_drop. lia.
  - unfold save_to_csv, writerow at 1. rewrite bind_modify.
    erewrite write_until; [reflexivity| |by apply formatted_record_short].
    apply map_outcome_Forall. eapply Forall_impl; [exact Hall'|].
    intros r [Hr Hrg]. by apply formatted_record_Ok.
Qed.

(** X17. What the capture without quaternions returns can always be saved:
    [save_to_csv] does not raise on it and writes the header and one row of
    seven cells for every captured row: the six motion values formatted
    with two decimals, then the integer temperature as captured. *)
Theorem captured_rows_are_saved `{PyRuntime} (opened : bool)
    (polls : list poll) raw invalid ser :
  SerialCaptureAccely.capture_serial_data opened polls
  = (Ok (raw, invalid), ser) ->
  save_to_csv raw [] = (csv_headers :: map csv_row raw, Ok tt)
  /\ Forall (fun row =>
               exists t,
                 last row = Some (Int t)
                 /\ csv_row row = map (Fixed 2) (take 6 row) ++ [Num (Int t)]
                 /\ length (csv_row row) = 7%nat)
       raw.
Proof.
  intros Hrun. apply accely_capture_well_formed in Hrun as [Hraw _]. split.
  - apply save_to_csv_Ok. eapply Forall_impl; [exact Hraw|].
    intros row Hrow. by apply record_shape_formats.
  - eapply Forall_impl; [exact Hraw|]. intros row Hrow.
    destruct row as [|[|a0] [|[|a1] [|[|a2] [|[|g0] [|[|g1] [|[|g2] [|[t|] [|]]]]]]]];
      try done.
    exists t. split_and!; reflexivity.
Qed.

Lemma zip3_length {A B C} (xs : list A) (ys : list B) (zs : list C) n :
  length xs = n -> length ys = n -> length zs = n ->
  length (zip3 xs ys zs) = n.
Proof.
  revert ys zs n. induction xs as [|x xs IH]; intros [|y ys] [|z zs] n;
    simpl; intros <-; try done.
  intros [= Hy] [= Hz]. f_equal. by apply IH.
Qed.

(** X18. For a run of [process_imu.py] that returns, [save_stats] writes four
    rows to each statistics file: the header with the unit in it, then one
    row for each of the axes X, Y and Z with the bias and the deviation to
    four decimals; [zip] cuts nothing off. *)
Theorem save_stats_rows `{PyRuntime} (calib : calibration)
    (rows : list (list str)) (r : ProcessImu.result) (st : stats) :
  complete calib ->
  ProcessImu.process_imu_data calib rows = Ok r ->
  st = ProcessImu.r_accel r \/ st = ProcessImu.r_gyro r ->
  exists bx by_ bz sx sy sz,
    bias st = [bx; by_; bz] /\ std st = [sx; sy; sz]
    /\ save_stats st []
       = ([stats_headers st;
           [Text (lit "X"); Fixed 4 (Float bx); Fixed 4 (Float sx)];
           [Text (lit "Y"); Fixed 4 (Float by_); Fixed 4 (Float sy)];
           [Text (lit "Z"); Fixed 4 (Float bz); Fixed 4 (Float sz)]],
          Ok tt).
Proof.
  intros Hc Hr Hst.
  destruct (stats_of_run14 calib rows r Hc Hr) as [Ha Hg].
  assert (exists unit, three_axes st unit) as [unit (_ & Hb & Hs)].
  { destruct Hst as [-> | ->]; eauto. }
  destruct st as [b s u]. simpl in Hb, Hs.
  destruct b as [|bx [|by_ [|bz [|]]]]; try discriminate.
  destruct s as [|sx [|sy [|sz [|]]]]; try discriminate.
  exists bx, by_, bz, sx, sy, sz. split_and!; reflexivity.
Qed.

End WriterFacts.

Lemma filtered_repeats_raw_witness :
  match
    (SerialCapture.capture_serial_data true
       [Data (Samples.line_bytes "1.5,2,3,4,5,6,25");
        Data (Samples.line_bytes "junk"
              ++ Samples.line_bytes "1.5,2,3,4,5,6,25")]).1
  with
  | Ok (raw, filtered, _, _) =>
      raw = [Samples.record_row; Samples.record_row] /\ filtered = raw
  | Raise _ => False
  end.
Proof.
  destruct (SerialCapture.capture_serial_data true _)
    as [[[[[raw filtered] quat] invalid]|e] ser] eqn:Hrun; cbn [fst].
  - split.
    + vm_compute in Hrun. by injection Hrun as <- _ _ _ _.
    + exact (proj1 (filtered_repeats_raw (H := Reference.runtime)
                      _ _ _ _ _ _ _ Hrun)).
  - vm_compute in Hrun. discriminate Hrun.
Defined.

Lemma save_imu_data_rows_witness :
  exists rows,
    Writers.save_imu_data [Samples.record_row; Samples.record_row]
      [Samples.record_row] []
    = (Writers.imu_headers :: rows, Ok tt)
    /\ rows = zip_with Writers.saved_row
                [Samples.record_row; Samples.record_row] [Samples.record_row]
    /\ length rows = 1%nat
    /\ Forall (fun row => length row = 14%nat) rows.
Proof.
  apply (save_imu_data_rows [Samples.record_row; Samples.record_row]
           [Samples.record_row]).
  repeat constructor; simpl; lia.
Defined.

Lemma save_imu_data_short_row_witness :
  Writers.save_imu_data
    [Samples.record_row; [Int 1; Int 2]; Samples.record_row]
    [Samples.record_row; Samples.record_row; Samples.record_row] []
  = ([Writers.imu_headers;
      Writers.saved_row Samples.record_row Samples.record_row],
     Raise IndexError).
Proof.
  apply (save_imu_data_short_row
           [Samples.record_row; [Int 1; Int 2]; Samples.record_row]
           [Samples.record_row; Samples.record_row; Samples.record_row]
           1 [Int 1; Int 2] Samples.record_row).
  - reflexivity.
  - reflexivity.
  - repeat constructor; simpl; lia.
  - left. simpl. lia.
Defined.

Lemma save_to_csv_rows_witness :
  Writers.save_to_csv [Samples.record_row] []
  = (Writers.csv_headers :: map Writers.csv_row [Samples.record_row], Ok tt)
  /\ Forall (fun cells => length cells = 7%nat)
       (map Writers.csv_row [Samples.record_row])
  /\ Writers.save_to_csv ([Samples.record_row] ++ [Float 1] :: []) []
     = (Writers.csv_headers :: map Writers.csv_row [Samples.record_row],
        Raise IndexError).
Proof.
  apply (save_to_csv_rows [Samples.record_row] [] [Float 1]).
  - repeat constructor; simpl; lia.
  - simpl. lia.
  - repeat constructor.
Defined.

Lemma captured_data_is_saved_witness :
  exists rows qrows,
    Writers.save_imu_data [Samples.record_row] [Samples.record_row] []
    = (Writers.imu_headers :: rows, Ok tt)
    /\ rows = map (fun row => Writers.saved_row row row) [Samples.record_row]
    /\ Forall (fun row => length row = 14%nat) rows
    /\ Writers.save_quaternions [[1; 0; 0; 0]%float] []
       = (Writers.quat_headers :: qrows, Ok tt)
    /\ length qrows = 1%nat
    /\ Forall (fun row => length row = 4%nat) qrows.
Proof.
  apply (captured_data_is_saved (H := Reference.runtime) true
           [Data (Samples.line_bytes "1.5,2,3,4,5,6,25"
                  ++ Samples.line_bytes "Quaternion: w=1, x=0, y=0, z=0");
            Data (Samples.line_bytes "1.5,2,3")]
           [Samples.record_row] [Samples.record_row] [[1; 0; 0; 0]%float]
           1 Closed).
  vm_compute. reflexivity.
Defined.

Lemma captured_rows_are_saved_witness :
  Writers.save_to_csv [Samples.record_row] []
  = (Writers.csv_headers :: map Writers.csv_row [Samples.record_row], Ok tt)
  /\ Forall (fun row =>
               exists t,
                 last row = Some (Int t)
                 /\ Writers.csv_row row
                    = map (Writers.Fixed 2) (take 6 row) ++ [Writers.Num (Int t)]
                 /\ length (Writers.csv_row row) = 7%nat)
       [Samples.record_row].
Proof.
  apply (captured_rows_are_saved (H := Reference.runtime) true
           [Data (Samples.line_bytes "1.5,2,3,4,5,6,25"
                  ++ Samples.line_bytes "junk")]
           [Samples.record_row] 1 Closed).
  vm_compute. reflexivity.
Defined.

Lemma save_stats_rows_witness :
  match ProcessImu.process_imu_data Samples.example_calibration
          [Samples.header_row; Samples.example_row; Samples.example_row] with
  | Ok r => length (Writers.save_stats (ProcessImu.r_gyro r) []).1 = 4%nat
  | Raise _ => False
  end.
Proof.
  pose proof (save_stats_rows (H := Reference.runtime)
                Samples.example_calibration
                [Samples.header_row; Samples.example_row; Samples.example_row])
    as Hrows.
  destruct (ProcessImu.process_imu_data Samples.example_calibration _)
    as [r|e] eqn:Hr.
  - destruct (Hrows r (ProcessImu.r_gyro r) complete_example eq_refl
                (or_intror eq_refl))
      as (bx & by_ & bz & sx & sy & sz & _ & _ & ->).
    reflexivity.
  - vm_compute in Hr. discriminate Hr.
Defined.

(** ** The batch processors with a short calibration record *)

Section LoopInvariant.
Context {St X : Type}.

Lemma for_each_invariant (P : St -> Prop) (body : X -> M St unit) xs :
  (forall x s, P s -> P (body x s).1) ->
  forall s, P s -> P (for_each xs body s).1.
Proof.
  intros Hbody. induction xs as [|x xs IH]; intros s Hs; [done|].
  rewrite for_each_cons. unfold bind.
  specialize (Hbody x s Hs).
  destruct (body x s) as [s1 [[]|e]]; [by apply IH|done].
Qed.

End LoopInvariant.

Section ShortCalibration.
Context `{PyRuntime}.

Lemma map_outcome_raises {A B} (f : A -> outcome B) xs i x e :
  xs !! i = Some x -> f x = Raise e ->
  exists e', map_outcome f xs = Raise e'.
Proof.
  revert i. induction xs as [|y xs IH]; intros [|i] Hi Hx; simplify_eq/=.
  - rewrite Hx. eauto.
  - destruct (f y); simpl; [|eauto].
    destruct (IH i Hi Hx) as [e' ->]. eauto.
Qed.

Lemma calc_stats_empty_channel data unit i :
  data !! i = Some [] ->
  exists e, ImuDataProcess.calc_stats data unit = Raise e.
Proof.
  intros Hi. unfold ImuDataProcess.calc_stats.
  destruct (map_outcome_raises ImuDataProcess.mean data i []
              ZeroDivisionError Hi eq_refl) as [e ->].
  eauto.
Qed.

(** With a short accelerometer calibration the third accelerometer channel
    is never appended to. *)
Lemma read_line_keeps_accel calib entry s :
  (length (accel_bias calib) < 3)%nat \/ (length (accel_scale calib) < 3)%nat ->
  ImuDataProcess.accel s !! 2%nat = Some [] ->
  ImuDataProcess.accel (ImuDataProcess.read_line calib entry s).1 !! 2%nat
  = Some [].
Proof.
  intros Hshort Hs.
  unfold ImuDataProcess.read_line, try_except, ImuDataProcess.try_block.
  destruct (ImuDataProcess.parse_line entry.2) as [parts|e] eqn:Hp.
  - pose proof (parse_line_length _ _ Hp) as Hlen.
    destruct parts as [|p0 [|p1 [|p2 [|p3 [|p4 [|p5 [|p6 [|? ?]]]]]]]];
      try discriminate.
    destruct calib as [ab ak gb]. simpl in Hshort.
    destruct ab as [|b0 [|b1 [|b2 ab]]];
      destruct ak as [|k0 [|k1 [|k2 ak]]];
      try (simpl in Hshort; lia);
      cbn; unfold append_at; rewrite ?list_lookup_alter_ne by lia; exact Hs.
  - rewrite bind_lift_Raise. destruct (caught_parse_errors e); exact Hs.
Qed.

(** With a short gyroscope calibration the third gyroscope channel is
    never appended to. *)
Lemma read_line_keeps_gyro calib entry s :
  (length (gyro_bias calib) < 3)%nat ->
  ImuDataProcess.gyro s !! 2%nat = Some [] ->
  ImuDataProcess.gyro (ImuDataProcess.read_line calib entry s).1 !! 2%nat
  = Some [].
Proof.
  intros Hshort Hs.
  unfold ImuDataProcess.read_line, try_except, ImuDataProcess.try_block.
  destruct (ImuDataProcess.parse_line entry.2) as [parts|e] eqn:Hp.
  - pose proof (parse_line_length _ _ Hp) as Hlen.
    destruct parts as [|p0 [|p1 [|p2 [|p3 [|p4 [|p5 [|p6 [|? ?]]]]]]]];
      try discriminate.
    destruct calib as [ab ak gb]. simpl in Hshort.
    destruct gb as [|c0 [|c1 [|c2 gb]]]; try (simpl in Hshort; lia);
      destruct ab as [|b0 [|b1 [|b2 ab]]];
      destruct ak as [|k0 [|k1 [|k2 ak]]];
      cbn; unfold append_at; rewrite ?list_lookup_alter_ne by lia; exact Hs.
  - rewrite bind_lift_Raise. destruct (caught_parse_errors e); exact Hs.
Qed.

(** X19. [imu_data_process.py] never returns when a list of the calibration
    record has fewer than three entries.  The [IndexError] of the missing
    entry is caught like a malformed line, after the values of the earlier
    axes have been appended; the third channel stays empty and the
    statistics fail on it. *)
Theorem short_calibration_never_returns (calib : calibration)
    (lines : list str) :
  ~ complete calib ->
  exists e, ImuDataProcess.process_imu_data calib lines = Raise e.
Proof.
  intros Hshort. unfold ImuDataProcess.process_imu_data, finish.
  destruct (ImuDataProcess.read_lines calib lines ImuDataProcess.initial)
    as [s [[]|e]] eqn:Hrun; [|eauto].
  destruct (average_windows _ _) as [avg|e]; simpl; [|eauto].
  assert (ImuDataProcess.accel s !! 2%nat = Some []
          \/ ImuDataProcess.gyro s !! 2%nat = Some []) as [Ha|Hg].
  { replace s with (ImuDataProcess.read_lines calib lines
                      ImuDataProcess.initial).1 by (by rewrite Hrun).
    unfold ImuDataProcess.read_lines.
    destruct (decide ((length (accel_bias calib) < 3)%nat
                      \/ (length (accel_scale calib) < 3)%nat)) as [Hacc|Hacc].
    - left. apply (for_each_invariant
                     (fun s => ImuDataProcess.accel s !! 2%nat = Some []));
        [|done].
      intros entry s0. by apply read_line_keeps_accel.
    - right. apply (for_each_invariant
                      (fun s => ImuDataProcess.gyro s !! 2%nat = Some []));
        [|done].
      intros entry s0. apply read_line_keeps_gyro.
      unfold complete in Hshort. lia. }
  - destruct (calc_stats_empty_channel (ImuDataProcess.accel s) "g" 2 Ha)
      as [e ->]. eauto.
  - destruct (ImuDataProcess.calc_stats (ImuDataProcess.accel s) "g");
      simpl; [|eauto].
    destruct (calc_stats_empty_channel (ImuDataProcess.gyro s) "dps" 2 Hg)
      as [e ->]. eauto.
Qed.

Lemma try_block_short calib parts f s :
  ~ complete calib -> length parts = 14%nat ->
  ProcessImu.parse_row parts = Ok f ->
  ProcessImu.try_block calib parts s = (s, Raise IndexError).
Proof.
  intros Hshort Hl Hp.
  destruct (parse_row_shape _ _ Hl Hp) as (Hfa & Hfg & _).
  destruct f as [fa fg ft faf fgf ftf]. simpl in Hfa, Hfg.
  destruct fa as [|a0 [|a1 [|a2 [|? ?]]]]; try discriminate.
  destruct fg as [|g0 [|g1 [|g2 [|? ?]]]]; try discriminate.
  unfold ProcessImu.try_block. rewrite Hp, bind_lift_Ok.
  destruct calib as [ab ak gb]. unfold complete in Hshort. simpl in Hshort.
  destruct ab as [|b0 [|b1 [|b2 ab]]];
    destruct ak as [|k0 [|k1 [|k2 ak]]];
    destruct gb as [|c0 [|c1 [|c2 gb]]];
    try reflexivity.
  exfalso. apply Hshort. simpl. lia.
Qed.

(** X20. [process_imu.py] ends in [IndexError] at the first row it accepts
    when a list of the calibration record has fewer than three entries: the
    calibration is computed before anything is stored, and the loop catches
    [ValueError] only. *)
Theorem short_calibration_raises (calib : calibration) (header : list str)
    (before after : list (list str)) (row : list str) :
  ~ complete calib ->
  Forall (fun parts => ProcessImu.accept parts = None) before ->
  ProcessImu.accept row <> None ->
  ProcessImu.process_imu_data calib (header :: before ++ row :: after)
  = Raise IndexError.
Proof.
  intros Hshort Hbefore Hrow. unfold ProcessImu.process_imu_data.
  rewrite for_each_app. unfold bind at 1.
  rewrite for_each_skip.
  - rewrite for_each_cons. unfold bind at 1.
    unfold ProcessImu.accept in Hrow. unfold ProcessImu.read_row.
    destruct (Nat.eqb_spec (length row) 14) as [Hl|Hl]; [|done].
    destruct (ProcessImu.parse_row row) as [f|e] eqn:Hp; [|done].
    unfold try_except. by rewrite (try_block_short calib row f _ Hshort Hl Hp).
  - eapply Forall_impl; [exact Hbefore|].
    intros parts Hp s. by apply read_row_rejected.
Qed.

End ShortCalibration.

Lemma short_calibration_never_returns_witness :
  exists e,
    ImuDataProcess.process_imu_data
      {| accel_bias := [0; 0; 0]%float; accel_scale := [1; 1; 1]%float;
         gyro_bias := [0; 0]%float |}
      [Samples.example_line] = Raise e.
Proof.
  apply (short_calibration_never_returns (H := Reference.runtime)).
  unfold complete. simpl. lia.
Defined.

Lemma short_calibration_raises_witness :
  ProcessImu.process_imu_data
    {| accel_bias := [0; 0]%float; accel_scale := [1; 1; 1]%float;
       gyro_bias := [0; 0; 0]%float |}
    (Samples.header_row :: [[lit "x"]] ++ Samples.example_row :: [])
  = Raise IndexError.
Proof.
  apply (short_calibration_raises (H := Reference.runtime)).
  - unfold complete. simpl. lia.
  - repeat constructor.
  - vm_compute. discriminate.
Defined.

(** ** Capturing for longer *)

Lemma framed_lines_drain chunks :
  framed_lines (map Data chunks) = (drain collect (concat chunks) []).1.1.
Proof.
  unfold framed_lines.
  rewrite (acquire_chunks _ collect_never_raises) by done.
  destruct (concat chunks) as [|b bs]; [|done].
  by rewrite drain_settled.
Qed.

(** The lines of a longer stream start with the lines of the shorter
    one. *)
Lemma framed_lines_app chunks more :
  exists later,
    framed_lines (map Data (chunks ++ more))
    = framed_lines (map Data chunks) ++ later.
Proof.
  rewrite !framed_lines_drain, concat_app.
  rewrite (drain_app collect collect_never_raises).
  destruct (drain collect (concat chunks) []) as [[found rest] r]. simpl.
  destruct (drain_lines collect collect_never_raises (rest ++ concat more))
    as (later & Hlater & _).
  exists later. apply Hlater.
Qed.

Lemma handle_all_app {St} (h : str -> M St unit) lines later s :
  handle_all h (lines ++ later) s = handle_all h later (handle_all h lines s).
Proof. apply foldl_app. Qed.

Section LongerCapture.
Context `{PyRuntime}.

Lemma handle_line_grows line s :
  grows s (SerialCapture.handle_line line s).1.
Proof.
  unfold SerialCapture.handle_line, grows.
  destruct (str_startswith line _).
  - unfold try_except, bind, lift, modify.
    destruct (SerialCapture.parse_quaternion line) as [q|e]; simpl.
    + exists [], [q], 0. rewrite !(right_id_L [] (++)). split_and!; simpl; try done; lia.
    + exists [], [], 1. rewrite !(right_id_L [] (++)). split_and!; simpl; try done; lia.
  - destruct (Nat.eqb _ 6).
    + unfold try_except, bind, lift, modify.
      destruct (parse_record line) as [row|e] eqn:E; simpl.
      * exists [row], [], 0. rewrite !(right_id_L [] (++)).
        split_and!; simpl; try done; lia.
      * rewrite (parse_record_errors _ _ E). simpl.
        exists [], [], 1. rewrite !(right_id_L [] (++)). split_and!; simpl; try done; lia.
    + simpl. exists [], [], 1. rewrite !(right_id_L [] (++)). split_and!; simpl; try done; lia.
Qed.

Lemma handle_all_grows lines : forall s,
  grows s (handle_all SerialCapture.handle_line lines s).
Proof.
  induction lines as [|line lines IH]; intros s.
  - exists [], [], 0. rewrite !(right_id_L [] (++)). split_and!; simpl; try done; lia.
  - destruct (handle_line_grows line s) as (r1 & q1 & i1 & Hi1 & Hr1 & Hf1 & Hq1 & Hc1).
    destruct (IH (SerialCapture.handle_line line s).1)
      as (r2 & q2 & i2 & Hi2 & Hr2 & Hf2 & Hq2 & Hc2).
    exists (r1 ++ r2), (q1 ++ q2), (i1 + i2).
    change (handle_all SerialCapture.handle_line (line :: lines) s)
      with (handle_all SerialCapture.handle_line lines
              (SerialCapture.handle_line line s).1).
    rewrite Hr2, Hf2, Hq2, Hc2, Hr1, Hf1, Hq1, Hc1.
    rewrite !(assoc_L (++)). split_and!; try done; lia.
Qed.

Lemma accely_handle_line_grows line s :
  accely_grows s (SerialCaptureAccely.handle_line line s).1.
Proof.
  unfold SerialCaptureAccely.handle_line, accely_grows.
  destruct (Nat.eqb _ 6).
  - unfold try_except, bind, lift, modify.
    destruct (parse_record line) as [row|e] eqn:E; simpl.
    + exists [row], 0. split_and!; simpl; try done; lia.
    + rewrite (parse_record_errors _ _ E). simpl.
      exists [], 1. rewrite !(right_id_L [] (++)). split_and!; simpl; try done; lia.
  - simpl. exists [], 1. rewrite !(right_id_L [] (++)). split_and!; simpl; try done; lia.
Qed.

Lemma accely_handle_all_grows lines : forall s,
  accely_grows s (handle_all SerialCaptureAccely.handle_line lines s).
Proof.
  induction lines as [|line lines IH]; intros s.
  - exists [], 0. rewrite !(right_id_L [] (++)). split_and!; simpl; try done; lia.
  - destruct (accely_handle_line_grows line s) as (r1 & i1 & Hi1 & Hr1 & Hc1).
    destruct (IH (SerialCaptureAccely.handle_line line s).1)
      as (r2 & i2 & Hi2 & Hr2 & Hc2).
    exists (r1 ++ r2), (i1 + i2).
    change (handle_all SerialCaptureAccely.handle_line (line :: lines) s)
      with (handle_all SerialCaptureAccely.handle_line lines
              (SerialCaptureAccely.handle_line line s).1).
    rewrite Hr2, Hc2, Hr1, Hc1.
    rewrite !(assoc_L (++)). split_and!; try done; lia.
Qed.

(** X12. Capturing for longer only adds to the result.  What a capture
    returns after the reads [chunks] is extended, never changed, by the
    reads [more] that follow: rows and quaternions are appended after the
    ones already there and the invalid-line count does not decrease. *)
Theorem longer_capture_extends (chunks more : list (list byte)) :
  (exists raw quat invalid raw_more quat_more invalid_more,
      0 <= invalid_more
      /\ SerialCapture.capture_serial_data true (map Data chunks)
         = (Ok (raw, raw, quat, invalid), Closed)
      /\ SerialCapture.capture_serial_data true (map Data (chunks ++ more))
         = (Ok (raw ++ raw_more, raw ++ raw_more, quat ++ quat_more,
                invalid + invalid_more), Closed))
  /\ (exists raw invalid raw_more invalid_more,
        0 <= invalid_more
        /\ SerialCaptureAccely.capture_serial_data true (map Data chunks)
           = (Ok (raw, invalid), Closed)
        /\ SerialCaptureAccely.capture_serial_data true
             (map Data (chunks ++ more))
           = (Ok (raw ++ raw_more, invalid + invalid_more), Closed)).
Proof.
  destruct (framed_lines_app chunks more) as [later Hlater]. split.
  - rewrite !capture_run, Hlater, handle_all_app.
    pose proof (capture_well_formed true (map Data chunks)) as Hwf.
    rewrite capture_run in Hwf.
    set (s := handle_all SerialCapture.handle_line
                (framed_lines (map Data chunks)) SerialCapture.initial) in *.
    destruct (Hwf _ _ _ _ _ eq_refl) as (_ & Hdup & _).
    destruct (handle_all_grows later s) as (rm & qm & im & Him & Hr & Hf & Hq & Hc).
    exists (SerialCapture.raw_data s), (SerialCapture.quat_data s),
      (SerialCapture.invalid_count s), rm, qm, im.
    unfold SerialCapture.returned. rewrite Hr, Hf, Hq, Hc, Hdup. done.
  - rewrite !accely_capture_run, Hlater, handle_all_app.
    set (s := handle_all SerialCaptureAccely.handle_line
                (framed_lines (map Data chunks)) SerialCaptureAccely.initial).
    destruct (accely_handle_all_grows later s) as (rm & im & Him & Hr & Hc).
    exists (SerialCaptureAccely.raw_data s),
      (SerialCaptureAccely.invalid_count s), rm, im.
    unfold SerialCaptureAccely.returned. rewrite Hr, Hc. done.
Qed.

End LongerCapture.

(** ** Running without a calibration file *)

Section ExactProducts.

Lemma one_spec : Prim2SF 1 = S754_finite false 4503599627370496 (-52).
Proof. reflexivity. Qed.

Lemma zero_spec : Prim2SF 0 = S754_zero false.
Proof. reflexivity. Qed.

Lemma shr_exact_52 m :
  SpecFloat.iter_pos shr_1 52
    {| shr_m := Z.pos (4503599627370496 * m); shr_r := false; shr_s := false |}
  = {| shr_m := Z.pos m; shr_r := false; shr_s := false |}.
Proof. reflexivity. Qed.

Lemma digits_52 m :
  Z.pos (digits2_pos (4503599627370496 * m)) = Z.pos (digits2_pos m) + 52.
Proof.
  change (digits2_pos (4503599627370496 * m))
    with (Pos.iter Pos.succ (digits2_pos m) 52).
  generalize (digits2_pos m). intros d. cbn. lia.
Qed.

Lemma shr_fexp_52 m e :
  fexp prec emax (Z.pos (digits2_pos m) + e) = e ->
  shr_fexp prec emax (Z.pos (4503599627370496 * m)) (e + -52) loc_Exact
  = ({| shr_m := Z.pos m; shr_r := false; shr_s := false |}, e).
Proof.
  intros Hc. unfold shr_fexp, Zdigits2. rewrite digits_52.
  replace (Z.pos (digits2_pos m) + 52 + (e + -52))
    with (Z.pos (digits2_pos m) + e) by lia.
  rewrite Hc. replace (e - (e + -52)) with 52 by lia.
  unfold shr_record_of_loc, shr. rewrite shr_exact_52. f_equal. lia.
Qed.

Lemma shr_fexp_exact m e :
  fexp prec emax (Z.pos (digits2_pos m) + e) = e ->
  shr_fexp prec emax (Z.pos m) e loc_Exact
  = ({| shr_m := Z.pos m; shr_r := false; shr_s := false |}, e).
Proof.
  intros Hc. unfold shr_fexp, Zdigits2. rewrite Hc, Z.sub_diag. reflexivity.
Qed.

(** The product of a binary64 number and 1 is that number: nothing is
    rounded away. *)
Lemma mul_one_finite s m e :
  bounded prec emax m e = true ->
  SF64mul (S754_finite s m e) (S754_finite false 4503599627370496 (-52))
  = S754_finite s m e.
Proof.
  intros Hb. unfold bounded in Hb. apply andb_prop in Hb as [Hc He].
  unfold canonical_mantissa in Hc. apply Z.eqb_eq in Hc.
  unfold SF64mul, SFmul. rewrite xorb_false_r, Pos.mul_comm.
  unfold binary_round_aux. rewrite (shr_fexp_52 m e Hc).
  cbn [loc_of_shr_record shr_m shr_r shr_s round_nearest_even
       negb andb orb].
  rewrite (shr_fexp_exact m e Hc). cbn [shr_m]. by rewrite He.
Qed.

(** [(x - 0.0) * 1.0 == x] and [x - 0.0 == x], bit for bit, for every
    float, the signed zeros, the infinities and NaN included. *)
Lemma float_sub_zero_mul_one (x : float) : ((x - 0) * 1)%float = x.
Proof.
  rewrite <- (SF2Prim_Prim2SF ((x - 0) * 1)).
  transitivity (SF2Prim (Prim2SF x)); [|apply SF2Prim_Prim2SF].
  f_equal. rewrite mul_spec, sub_spec, one_spec, zero_spec.
  pose proof (Prim2SF_valid x) as Hv.
  destruct (Prim2SF x) as [[]|[]| |s m e]; try reflexivity.
  unfold SF64sub, SFsub. by apply mul_one_finite.
Qed.

Lemma float_sub_zero (x : float) : (x - 0)%float = x.
Proof.
  rewrite <- (SF2Prim_Prim2SF (x - 0)).
  transitivity (SF2Prim (Prim2SF x)); [|apply SF2Prim_Prim2SF].
  f_equal. rewrite sub_spec, zero_spec.
  destruct (Prim2SF x) as [[]|[]| |s m e]; reflexivity.
Qed.

End ExactProducts.

Section MissingCalibration.
Context `{PyRuntime}.

Lemma complete_default : complete default_calibration.
Proof. repeat split; simpl; lia. Qed.

Lemma channels7 calib lines r :
  complete calib ->
  ImuDataProcess.process_imu_data calib lines = Ok r ->
  (ImuDataProcess.r_accel_raw r).2
  = map (fun i =>
           map (fun rec : Z * list float =>
                  ((nth i rec.2 0 - nth i (accel_bias calib) 0)
                   * nth i (accel_scale calib) 0)%float)
             (ImuDataProcess.records 0 lines)) [0; 1; 2]%nat
  /\ (ImuDataProcess.r_gyro_raw r).2
     = map (fun i =>
              map (fun rec : Z * list float =>
                     (nth (i + 3) rec.2 0 - nth i (gyro_bias calib) 0)%float)
                (ImuDataProcess.records 0 lines)) [0; 1; 2]%nat.
Proof.
  intros Hc Hr.
  destruct (process_returns calib lines r Hc Hr)
    as (_ & _ & _ & _ & -> & ->).
  cbn [snd].
  rewrite (run_accel calib _ _ [] [] []) by done.
  rewrite (run_gyro calib _ _ [] [] []) by done.
  done.
Qed.

Lemma channels14 calib rows r :
  complete calib ->
  ProcessImu.process_imu_data calib rows = Ok r ->
  (ProcessImu.r_accel_raw r).2
  = map (fun i =>
           map (fun rec : Z * ProcessImu.fields =>
                  ((nth i (ProcessImu.accel_raw rec.2) 0
                    - nth i (accel_bias calib) 0)
                   * nth i (accel_scale calib) 0)%float)
             (ProcessImu.records 0 (tail rows))) [0; 1; 2]%nat
  /\ (ProcessImu.r_gyro_raw r).2
     = map (fun i =>
              map (fun rec : Z * ProcessImu.fields =>
                     (nth i (ProcessImu.gyro_raw rec.2) 0
                      - nth i (gyro_bias calib) 0)%float)
                (ProcessImu.records 0 (tail rows))) [0; 1; 2]%nat.
Proof.
  intros Hc Hr.
  destruct (process_returns14 calib rows r Hc Hr)
    as (_ & _ & _ & -> & -> & _).
  cbn [snd].
  rewrite (run_channels14 calib ProcessImu.accel
             (fun i rec => ((nth i (ProcessImu.accel_raw rec.2) 0
                             - nth i (accel_bias calib) 0)
                            * nth i (accel_scale calib) 0)%float)
             _ ltac:(intros ????? Hs; simpl; by rewrite Hs) _ [] [] [])
    by done.
  rewrite (run_channels14 calib ProcessImu.gyro
             (fun i rec => (nth i (ProcessImu.gyro_raw rec.2) 0
                            - nth i (gyro_bias calib) 0)%float)
             _ ltac:(intros ????? Hs; simpl; by rewrite Hs) _ [] [] [])
    by done.
  done.
Qed.

(** X21. Without a usable calibration file the processors change no value.
    [load_calibration] then returns the profile of zero biases and unit
    scale factors, and a run with it stores in every accelerometer and
    gyroscope channel exactly the numbers parsed from the valid records:
    [(x - 0.0) * 1.0] and [x - 0.0] are [x] itself for every float. *)
Theorem missing_calibration_keeps_values (e : exn) (lines : list str)
    (rows : list (list str)) :
  load_calibration (Raise e) = default_calibration
  /\ (forall r,
        ImuDataProcess.process_imu_data (load_calibration (Raise e)) lines
        = Ok r ->
        (ImuDataProcess.r_accel_raw r).2
        = map (fun i =>
                 map (fun rec : Z * list float => nth i rec.2 0%float)
                   (ImuDataProcess.records 0 lines)) [0; 1; 2]%nat
        /\ (ImuDataProcess.r_gyro_raw r).2
           = map (fun i =>
                    map (fun rec : Z * list float => nth (i + 3) rec.2 0%float)
                      (ImuDataProcess.records 0 lines)) [0; 1; 2]%nat)
  /\ (forall r,
        ProcessImu.process_imu_data (load_calibration (Raise e)) rows
        = Ok r ->
        (ProcessImu.r_accel_raw r).2
        = map (fun i =>
                 map (fun rec : Z * ProcessImu.fields =>
                        nth i (ProcessImu.accel_raw rec.2) 0%float)
                   (ProcessImu.records 0 (tail rows))) [0; 1; 2]%nat
        /\ (ProcessImu.r_gyro_raw r).2
           = map (fun i =>
                    map (fun rec : Z * ProcessImu.fields =>
                           nth i (ProcessImu.gyro_raw rec.2) 0%float)
                      (ProcessImu.records 0 (tail rows))) [0; 1; 2]%nat).
Proof.
  split; [reflexivity|]. cbn [load_calibration]. split; intros r Hr.
  - destruct (channels7 _ _ _ complete_default Hr) as [-> ->].
    cbn [map nth default_calibration accel_bias accel_scale gyro_bias].
    split; repeat (f_equal; try (apply map_ext; intros rec;
      first [apply float_sub_zero_mul_one | apply float_sub_zero])).
  - destruct (channels14 _ _ _ complete_default Hr) as [-> ->].
    cbn [map nth default_calibration accel_bias accel_scale gyro_bias].
    split; repeat (f_equal; try (apply map_ext; intros rec;
      first [apply float_sub_zero_mul_one | apply float_sub_zero])).
Qed.

End MissingCalibration.

Lemma missing_calibration_keeps_values_witness :
  match ProcessImu.process_imu_data (load_calibration (Raise ValueError))
          [Samples.header_row; Samples.example_row] with
  | Ok r =>
      (ProcessImu.r_accel_raw r).2 = [[3]; [0]; [0]]%float
      /\ (ProcessImu.r_gyro_raw r).2 = [[1]; [1]; [1]]%float
  | Raise _ => False
  end.
Proof.
  pose proof (missing_calibration_keeps_values (H := Reference.runtime)
                ValueError []
                [Samples.header_row; Samples.example_row]) as (_ & _ & Hkeep).
  destruct (ProcessImu.process_imu_data _ _) as [r|e] eqn:Hr.
  - destruct (Hkeep r eq_refl) as [-> ->]. vm_compute. by split.
  - vm_compute in Hr. discriminate Hr.
Defined.

(** ** The framer as a function of the stream *)

Section Spans.

Lemma index_of_span span rest :
  index_of newline span = None ->
  index_of newline (span ++ newline :: rest) = Some (length span).
Proof.
  induction span as [|x span IH]; simpl; [done|].
  destruct (Byte.eqb x newline); [done|].
  destruct (index_of newline span); simpl; [done|].
  intros _. by rewrite IH.
Qed.

Lemma drop_span (span rest : list byte) :
  drop (S (length span)) (span ++ newline :: rest) = rest.
Proof.
  rewrite (cons_middle newline span rest), (assoc_L (++)).
  replace (S (length span)) with (length (span ++ [newline]))
    by (rewrite length_app; simpl; lia).
  apply drop_app_length.
Qed.

Lemma drain_spans spans rest : forall lines,
  Forall (fun span => index_of newline span = None) spans ->
  drain collect (concat (map (fun span => span ++ [newline]) spans) ++ rest)
    lines
  = drain collect rest (lines ++ map decoded spans).
Proof.
  induction spans as [|span spans IH]; intros lines Hall.
  - simpl. by rewrite (right_id_L [] (++)).
  - apply Forall_cons in Hall as [Hspan Hall].
    cbn [map concat]. rewrite <- !(assoc_L (++)). cbn [app].
    rewrite drain_unfold, (index_of_span _ _ Hspan).
    rewrite take_app_length.
    rewrite drop_span.
    unfold decoded at 1.
    destruct (decode_line_total span) as [line ->].
    unfold collect at 1, modify. rewrite (IH _ Hall).
    by rewrite <- (assoc_L (++)).
Qed.

Lemma framed_lines_single data :
  framed_lines [Data data] = (drain collect data []).1.1.
Proof.
  pose proof (framed_lines_drain [data]) as Hd.
  cbn [map concat] in Hd. by rewrite (right_id_L [] (++)) in Hd.
Qed.

(** X22. The Line Framer as a function of the byte stream.  For a stream
    made of spans without a terminator, each followed by a terminator, and
    a last unterminated span, the decoded lines are the spans decoded and
    stripped one by one, in order; the unterminated span gives no line. *)
Theorem framed_lines_are_the_spans (spans : list (list byte))
    (tail : list byte) :
  Forall (fun span => index_of newline span = None) spans ->
  index_of newline tail = None ->
  framed_lines
    [Data (concat (map (fun span => span ++ [newline]) spans) ++ tail)]
  = map decoded spans
  /\ Forall2 (fun span line => decode_line span = Ok line)
       spans (map decoded spans).
Proof.
  intros Hall Htail. split.
  - rewrite framed_lines_single, (drain_spans _ _ [] Hall).
    by rewrite (drain_settled collect).
  - clear. induction spans as [|span spans IH]; simpl; constructor; [|done].
    unfold decoded. by destruct (decode_line_total span) as [line ->].
Qed.

Lemma drop_while_app {A} (p : A -> bool) xs ys :
  drop_while p (xs ++ ys)
  = match drop_while p xs with
    | [] => drop_while p ys
    | rest => rest ++ ys
    end.
Proof.
  induction xs as [|x xs IH]; simpl; [by destruct (drop_while p ys)|].
  destruct (p x); [apply IH|done].
Qed.

Lemma str_strip_space s c :
  is_space c = true -> str_strip (s ++ [c]) = str_strip s.
Proof.
  intros Hc. unfold str_strip. rewrite drop_while_app.
  destruct (drop_while is_space s) as [|x rest] eqn:Hs.
  - simpl. by rewrite Hc.
  - rewrite rev_app_distr. simpl. by rewrite Hc.
Qed.

Lemma utf8_ascii bs c :
  (c < 128)%N -> utf8 (bs ++ [c]) = (fun s => s ++ [c]) <$> utf8 bs.
Proof.
  intros Hc. apply N.ltb_lt in Hc.
  assert (is_cont c = false) as Hcont.
  { unfold is_cont. apply N.ltb_lt in Hc.
    destruct (N.leb_spec 128 c); [lia|done]. }
  remember (length bs) as n eqn:Hn. revert bs Hn.
  induction n as [n IH] using lt_wf_ind. intros bs ->.
  destruct bs as [|b0 r0]; [simpl; by rewrite Hc|].
  assert (forall r, (length r < length (b0 :: r0))%nat ->
            utf8 (r ++ [c]) = (fun s => s ++ [c]) <$> utf8 r) as Hrec.
  { intros r Hr. by eapply IH. }
  cbn [utf8 app].
  destruct (b0 <? 128)%N.
  { rewrite Hrec by (simpl; lia). by destruct (utf8 r0). }
  destruct ((194 <=? b0) && (b0 <=? 223))%N.
  { destruct r0 as [|b1 r1]; simpl; [by rewrite Hcont|].
    destruct (is_cont b1); [|done].
    rewrite Hrec by (simpl; lia). by destruct (utf8 r1). }
  destruct ((224 <=? b0) && (b0 <=? 239))%N.
  { destruct r0 as [|b1 [|b2 r2]]; simpl; [done| |].
    - by rewrite Hcont, andb_false_r.
    - destruct (second_ok3 b0 b1 && is_cont b2); [|done].
      rewrite Hrec by (simpl; lia). by destruct (utf8 r2). }
  destruct ((240 <=? b0) && (b0 <=? 244))%N; [|done].
  destruct r0 as [|b1 [|b2 [|b3 r3]]]; simpl; [done|done| |].
  - by rewrite Hcont, andb_false_r.
  - destruct (second_ok4 b0 b1 && is_cont b2 && is_cont b3); [|done].
    rewrite Hrec by (simpl; lia). by destruct (utf8 r3).
Qed.

Lemma decode_line_carriage_return span :
  decode_line (span ++ [carriage_return]) = decode_line span.
Proof.
  unfold decode_line, decode_utf8, decode_latin1, byte in *.
  rewrite map_app. change (map Byte.to_N [carriage_return]) with [13%N].
  rewrite utf8_ascii by done.
  generalize (map Byte.to_N span). intros bs.
  destruct (utf8 bs) as [text|]; simpl; by rewrite str_strip_space.
Qed.

Lemma index_of_carriage_return span :
  index_of newline span = None ->
  index_of newline (span ++ [carriage_return]) = None.
Proof. intros Hs. by apply index_of_app_None. Qed.

End Spans.

Section LineEndings.
Context `{PyRuntime}.

(** X23. A carriage return before the line terminator makes no difference:
    a stream whose lines end in CR LF is framed into the same lines, and
    captured into the same result, as the stream with the bare LF
    endings. *)
Theorem carriage_return_is_ignored (spans : list (list byte)) :
  Forall (fun span => index_of newline span = None) spans ->
  let crlf :=
    concat (map (fun span => span ++ [carriage_return; newline]) spans) in
  let lf := concat (map (fun span => span ++ [newline]) spans) in
  framed_lines [Data crlf] = framed_lines [Data lf]
  /\ SerialCapture.capture_serial_data true [Data crlf]
     = SerialCapture.capture_serial_data true [Data lf]
  /\ SerialCaptureAccely.capture_serial_data true [Data crlf]
     = SerialCaptureAccely.capture_serial_data true [Data lf].
Proof.
  intros Hall crlf lf.
  assert (framed_lines [Data crlf] = framed_lines [Data lf]) as Hlines.
  { unfold crlf, lf. rewrite !framed_lines_single.
    rewrite <- (right_id_L [] (++) (concat (map (fun span => span ++ [newline]) spans))).
    rewrite (drain_spans _ _ [] Hall).
    replace (map (fun span => span ++ [carriage_return; newline]) spans)
      with (map (fun span => span ++ [newline])
              (map (fun span => span ++ [carriage_return]) spans)).
    - rewrite <- (right_id_L [] (++) (concat _)).
      rewrite (drain_spans _ _ []).
      + rewrite map_map.
        rewrite (map_ext (fun span => decoded (span ++ [carriage_return]))
                   decoded); [done|].
        intros span. unfold decoded.
        by rewrite decode_line_carriage_return.
      + apply Forall_map. eapply Forall_impl; [exact Hall|].
        intros span. apply index_of_carriage_return.
    - rewrite map_map. apply map_ext. intros span.
      by rewrite <- (assoc_L (++)). }
  split; [exact Hlines|].
  change [Data crlf] with (map Data [crlf]).
  change [Data lf] with (map Data [lf]).
  rewrite !capture_run, !accely_capture_run.
  change (map Data [crlf]) with [Data crlf].
  change (map Data [lf]) with [Data lf].
  by rewrite Hlines.
Qed.

End LineEndings.

Lemma framed_lines_are_the_spans_witness :
  framed_lines
    [Data (concat (map (fun span => span ++ [newline])
                     [String.list_byte_of_string " 1,2 ";
                      String.list_byte_of_string "x"])
           ++ String.list_byte_of_string "3,4")]
  = [lit "1,2"; lit "x"].
Proof.
  refine (eq_trans (proj1 (framed_lines_are_the_spans
            [String.list_byte_of_string " 1,2 ";
             String.list_byte_of_string "x"]
            (String.list_byte_of_string "3,4") _ _)) _).
  - repeat constructor.
  - reflexivity.
  - vm_compute. reflexivity.
Defined.

Lemma carriage_return_is_ignored_witness :
  SerialCaptureAccely.capture_serial_data true
    [Data (String.list_byte_of_string "1.5,2,3,4,5,6,25"
           ++ [carriage_return; newline])]
  = SerialCaptureAccely.capture_serial_data true
      [Data (Samples.line_bytes "1.5,2,3,4,5,6,25")].
Proof.
  pose proof (carriage_return_is_ignored (H := Reference.runtime)
                [String.list_byte_of_string "1.5,2,3,4,5,6,25"]) as Hcr.
  cbn [map concat] in Hcr. rewrite !(right_id_L [] (++)) in Hcr.
  apply Hcr. repeat constructor.
Defined.
